(** * Markdown link diagnostics: a shallow embedding of
    [extensions/markdown-language-features/src/languageFeatures/diagnostics.ts]

    The file follows the source top-down: the option and diagnostic
    records, [toSeverity], the [FileLinkMap] class, the three validation
    passes of [DiagnosticComputer], the cooperative scheduling of the
    asynchronous parts of [getDiagnostics], and the event handlers of
    [DiagnosticManager].

    JavaScript objects that the code compares by reference ([vscode.Uri]
    values stored in a [Set]) carry an allocation identifier, so Rocq
    equality on them is [===].  Host services that the code only calls
    (link extraction, table of contents, the workspace oracle, URI
    rendering) are the fields of the record [Host]. *)

From Stdlib Require Import String List Bool Arith Lia Permutation.
From stdpp Require Import base option list gmap strings.
Import ListNotations.

Local Open Scope string_scope.
Local Open Scope list_scope.

(** ** Host data (the [vscode] API types the code touches) *)

(** A [vscode.Uri] object.  [uri_oid] is the identity of the JavaScript
    object; the remaining fields are its components. *)
Record Uri := mkUri {
  uri_oid : nat;
  uri_scheme : string;
  uri_path : string;
  uri_query : string
}.

#[global] Instance Uri_eq_dec : EqDecision Uri.
Proof. solve_decision. Defined.

Record Position := mkPosition { line : nat; character : nat }.
Record Range := mkRange { range_start : Position; range_end : Position }.

#[global] Instance Position_eq_dec : EqDecision Position.
Proof. solve_decision. Defined.
#[global] Instance Range_eq_dec : EqDecision Range.
Proof. solve_decision. Defined.

(** [vscode.TextDocument] / [SkinnyTextDocument]: the code reads [uri]
    only; [languageId] and [content] are what the host helpers see. *)
Record TextDocument := mkDoc {
  uri : Uri;
  languageId : string;
  content : string
}.

#[global] Instance TextDocument_eq_dec : EqDecision TextDocument.
Proof. solve_decision. Defined.

Inductive DiagnosticSeverity := Error | Warning | Information | Hint.

#[global] Instance DiagnosticSeverity_eq_dec : EqDecision DiagnosticSeverity.
Proof. solve_decision. Defined.

Record Diagnostic := mkDiagnostic {
  range : Range;
  message : string;
  severity : DiagnosticSeverity
}.

#[global] Instance Diagnostic_eq_dec : EqDecision Diagnostic.
Proof. solve_decision. Defined.

(** ** Options *)

Inductive DiagnosticLevel := ignore | warning | error.

#[global] Instance DiagnosticLevel_eq_dec : EqDecision DiagnosticLevel.
Proof. solve_decision. Defined.

Record DiagnosticOptions := mkOptions {
  enabled : bool;
  validateReferences : DiagnosticLevel;
  validateOwnHeaders : DiagnosticLevel;
  validateFilePaths : DiagnosticLevel
}.

Definition toSeverity (level : DiagnosticLevel) : option DiagnosticSeverity :=
  match level with
  | error => Some Error
  | warning => Some Warning
  | ignore => None
  end.

(** ** Links (declared in [documentLinkProvider], used here) *)

Inductive LinkHref :=
| ExternalHref (target : Uri)
| InternalHref (path : Uri) (fragment : string)
| ReferenceHref (ref : string).

Record MdLinkSource := mkSource { hrefRange : Range }.

(** Modelled from the spec: the declaration of [MdLink] is not part of
    this file's source.  A link is either an ordinary link or a
    reference-style definition carrying its reference name. *)
Inductive MdLinkKind :=
| KindLink
| KindDefinition (refText : string).

Record MdLink := mkLink {
  kind : MdLinkKind;
  source : MdLinkSource;
  href : LinkHref
}.

(** ** Host services

    What the module imports and calls but does not define: URI rendering,
    the link extractor, the table of contents, the reference definition
    index and the workspace oracle.  [toc_lookup d frag] is the
    truthiness of [TableOfContents.create(engine, d).lookup(frag)] and
    [definition_lookup links r] that of
    [new LinkDefinitionSet(links).lookup(r)]. *)
Record Host := mkHost {
  toString : Uri -> string;
  toStringSkipEncoding : Uri -> string;
  fsPath : Uri -> string;
  isMarkdownFile : TextDocument -> bool;
  getAllLinks : TextDocument -> list MdLink;
  toc_lookup : TextDocument -> string -> bool;
  definition_lookup : list MdLink -> string -> bool;
  tryFindMdDocumentForLink : Uri -> option TextDocument;
  pathExists : Uri -> bool
}.

(** JavaScript truthiness of a string: non-empty. *)
Definition truthy (s : string) : bool :=
  match s with
  | EmptyString => false
  | String _ _ => true
  end.

(** [localize(key, fmt, arg)] with the default (English) bundle. *)
Definition localize_invalidHeaderLink (frag : string) : string :=
  "No header found: '" ++ frag ++ "'".
Definition localize_invalidReferenceLink (r : string) : string :=
  "No link reference found: '" ++ r ++ "'".
Definition localize_invalidPathLink (p : string) : string :=
  "File does not exist at path: " ++ p.
Definition localize_invalidLinkToHeaderInOtherFile (frag : string) : string :=
  "Header does not exist in file: " ++ frag.

(** ** [FileLinkMap] *)

Record LinkData := mkLinkData {
  ld_source : MdLinkSource;
  ld_fragment : string
}.

Record FileLinksData := mkFileLinksData {
  fl_path : Uri;
  fl_links : list LinkData
}.

(** A JavaScript [Map<string, FileLinksData>]: iteration is in insertion
    order, so the map is the list of its entries in that order. *)
Abbreviation FileLinkMap := (list (string * FileLinksData)).

Section FileLinkMap.
Variable host : Host.

(** [existingFileEntry.links.push(linkData)] when the key is present. *)
Fixpoint pushExisting (fileKey : string) (linkData : LinkData)
    (m : FileLinkMap) : option FileLinkMap :=
  match m with
  | [] => None
  | (k, e) :: rest =>
      if String.eqb k fileKey
      then Some ((k, mkFileLinksData (fl_path e) (fl_links e ++ [linkData])) :: rest)
      else match pushExisting fileKey linkData rest with
           | Some rest' => Some ((k, e) :: rest')
           | None => None
           end
  end.

(** One iteration of the constructor's loop. *)
Definition addLink (m : FileLinkMap) (link : MdLink) : FileLinkMap :=
  match href link with
  | InternalHref p frag =>
      let fileKey := toString host p in
      let linkData := mkLinkData (source link) frag in
      match pushExisting fileKey linkData m with
      | Some m' => m'
      | None => m ++ [(fileKey, mkFileLinksData p [linkData])]
      end
  | _ => m
  end.

Definition newFileLinkMap (links : list MdLink) : FileLinkMap :=
  fold_left addLink links [].

Definition size (m : FileLinkMap) : nat := length m.
Definition entries (m : FileLinkMap) : list FileLinksData := map snd m.
End FileLinkMap.

(** ** [DiagnosticComputer]: the synchronous bodies of the three passes *)

Section Passes.
Variable host : Host.
Variable doc : TextDocument.

(** The condition of the [if] in [validateOwnHeaderLinks]'s loop;
    [Some frag] when the link is reported. *)
Definition ownHeaderMiss (link : MdLink) : option string :=
  match href link with
  | InternalHref p frag =>
      if String.eqb (toString host p) (toString host (uri doc))
         && truthy frag
         && negb (toc_lookup host doc frag)
      then Some frag else None
  | _ => None
  end.

(** The [for] loop of [validateOwnHeaderLinks], pushing onto
    [diagnostics]. *)
Definition ownHeaderLoop (sev : DiagnosticSeverity) (links : list MdLink)
    : list Diagnostic :=
  fold_left
    (fun diagnostics link =>
       match ownHeaderMiss link with
       | Some frag =>
           diagnostics ++
             [mkDiagnostic (hrefRange (source link))
                           (localize_invalidHeaderLink frag) sev]
       | None => diagnostics
       end)
    links [].

(** The generator loop of [validateReferenceLinks]: each [yield] is
    the next element of the produced sequence. *)
Fixpoint referenceLoop (definitionSet : string -> bool)
    (sev : DiagnosticSeverity) (links : list MdLink) : list Diagnostic :=
  match links with
  | [] => []
  | link :: rest =>
      match href link with
      | ReferenceHref r =>
          if negb (definitionSet r)
          then mkDiagnostic (hrefRange (source link))
                            (localize_invalidReferenceLink r) sev
               :: referenceLoop definitionSet sev rest
          else referenceLoop definitionSet sev rest
      | _ => referenceLoop definitionSet sev rest
      end
  end.

(** [Array.from(this.validateReferenceLinks(options, links))]. *)
Definition validateReferenceLinks (options : DiagnosticOptions)
    (links : list MdLink) : list Diagnostic :=
  match toSeverity (validateReferences options) with
  | None => []
  | Some sev => referenceLoop (definition_lookup host links) sev links
  end.

(** The loop over [fragmentLinks] in the other-file branch. *)
Definition headerLoop (sev : DiagnosticSeverity) (hrefDoc : TextDocument)
    (fragmentLinks : list LinkData) : list Diagnostic :=
  fold_left
    (fun pushed link =>
       if negb (toc_lookup host hrefDoc (ld_fragment link))
       then pushed ++
              [mkDiagnostic (hrefRange (ld_source link))
                 (localize_invalidLinkToHeaderInOtherFile (ld_fragment link))
                 sev]
       else pushed)
    fragmentLinks [].

(** The loop of the missing-file branch. *)
Definition missingFileLoop (sev : DiagnosticSeverity) (p : Uri)
    (links : list LinkData) : list Diagnostic :=
  let msg := localize_invalidPathLink (toStringSkipEncoding host p) in
  fold_left
    (fun pushed link =>
       pushed ++ [mkDiagnostic (hrefRange (ld_source link)) msg sev])
    links [].
End Passes.

(** ** Cooperative scheduling of [getDiagnostics]

    The function is [async]: it runs until an [await], and resumes when
    the awaited host promise settles.  The order in which the pending
    promises settle is the environment's choice and is the input
    [list Wake] below.  Every call to a host service is recorded in a
    trace at the moment the call is made. *)

Inductive Event :=
| EvGetAllLinks (d : TextDocument)
| EvFindDoc (p : Uri)
| EvPathExists (p : Uri)
| EvTocCreate (d : TextDocument).

#[global] Instance Event_eq_dec : EqDecision Event.
Proof. solve_decision. Defined.

(** A suspended task of [validateFileLinks] (the [async] arrow passed to
    [limiter.queue]), with the variables its closure holds. *)
Inductive Task :=
| AwaitFind (sev : DiagnosticSeverity) (e : FileLinksData)
| AwaitExists (sev : DiagnosticSeverity) (e : FileLinksData)
| AwaitToc (sev : DiagnosticSeverity) (hrefDoc : TextDocument)
           (fragmentLinks : list LinkData).

(** A factory waiting in the limiter: the closure over [severity] and the
    destructured entry. *)
Abbreviation Factory := (DiagnosticSeverity * FileLinksData)%type.

(** What a task does when it runs until its next [await] or its end. *)
Inductive Outcome :=
| Suspend (t : Task) (ev : Event)
| Complete (pushed : list Diagnostic).

Inductive OwnPass :=
| OwnAwaitToc (sev : DiagnosticSeverity)
| OwnDone (ds : list Diagnostic).

(** The three passes after they have been started: the limiter of
    [validateFileLinks] with its running tasks and waiting factories, the
    shared [diagnostics] array of that pass, the finished reference pass,
    and the own-header pass. *)
Record Passes := mkPasses {
  running : list Task;
  outstanding : list Factory;
  diagnostics : list Diagnostic;
  references : list Diagnostic;
  ownHeaders : OwnPass
}.

Inductive Phase :=
| AwaitLinks
| Validating (p : Passes)
| Returned (results : list (list Diagnostic)).

Record Computation := mkComputation {
  cancelled : bool;
  trace : list Event;
  phase : Phase
}.

(** The environment's moves: a pending promise settles, or the caller
    cancels the token. *)
Inductive Wake :=
| LinksReady
| TaskReady (k : nat)
| TocReady
| CancelRequested.

(** [new Limiter(10)]. *)
Definition maxDegreeOfParalellism : nat := 10.

Section Computer.
Variable host : Host.
Variable doc : TextDocument.
Variable options : DiagnosticOptions.

(** The task body from its start to the first [await]. *)
Definition startTask (cancel : bool) (f : Factory) : Outcome :=
  if cancel then Complete []
  else Suspend (AwaitFind (fst f) (snd f)) (EvFindDoc (fl_path (snd f))).

(** The task body from one [await] to the next, or to its end. *)
Definition resumeTask (t : Task) : Outcome :=
  match t with
  | AwaitFind sev e =>
      match tryFindMdDocumentForLink host (fl_path e) with
      | Some hrefDoc =>
          if String.eqb (toString host (uri hrefDoc)) (toString host (uri doc))
          then Complete []
          else
            let fragmentLinks :=
              List.filter (fun x => truthy (ld_fragment x)) (fl_links e) in
            match fragmentLinks with
            | [] => Complete []
            | _ :: _ => Suspend (AwaitToc sev hrefDoc fragmentLinks)
                                (EvTocCreate hrefDoc)
            end
      | None => Suspend (AwaitExists sev e) (EvPathExists (fl_path e))
      end
  | AwaitExists sev e =>
      if negb (pathExists host (fl_path e))
      then Complete (missingFileLoop host sev (fl_path e) (fl_links e))
      else Complete []
  | AwaitToc sev hrefDoc fragmentLinks =>
      Complete (headerLoop host sev hrefDoc fragmentLinks)
  end.

(** Modelled from the spec: [Limiter] (in [util/limiter]) is not part
    of this file's source.  It caps the number of started, unfinished
    factories at its bound; further factories wait and are started in
    submission order as slots free up.  A factory that finishes without
    suspending gives its slot back at once. *)
Fixpoint consume (cancel : bool) (waiting : list Factory)
    (run : list Task) (tr : list Event) (ds : list Diagnostic)
    : list Task * list Factory * list Event * list Diagnostic :=
  match waiting with
  | [] => (run, [], tr, ds)
  | f :: rest =>
      if Nat.ltb (length run) maxDegreeOfParalellism then
        match startTask cancel f with
        | Suspend t ev => consume cancel rest (run ++ [t]) (tr ++ [ev]) ds
        | Complete pushed => consume cancel rest run tr (ds ++ pushed)
        end
      else (run, waiting, tr, ds)
  end.

(** Modelled from the spec: [limiter.queue(factory)] appends the factory
    to the waiting ones and lets the limiter start what it can. *)
Definition queue (cancel : bool) (f : Factory)
    (st : list Task * list Factory * list Event * list Diagnostic)
    : list Task * list Factory * list Event * list Diagnostic :=
  let '(run, waiting, tr, ds) := st in
  consume cancel (waiting ++ [f]) run tr ds.

(** [validateFileLinks] up to its [await Promise.all(...)]. *)
Definition startFileLinks (cancel : bool) (links : list MdLink)
    (tr : list Event)
    : list Task * list Factory * list Event * list Diagnostic :=
  match toSeverity (validateFilePaths options) with
  | None => ([], [], tr, [])
  | Some sev =>
      let linkSet := newFileLinkMap host links in
      if Nat.eqb (size linkSet) 0 then ([], [], tr, [])
      else fold_left (fun st e => queue cancel (sev, e) st)
                     (entries linkSet) ([], [], tr, [])
  end.

(** [validateOwnHeaderLinks] up to its [await TableOfContents.create]. *)
Definition startOwnHeaderLinks (tr : list Event) : OwnPass * list Event :=
  match toSeverity (validateOwnHeaders options) with
  | None => (OwnDone [], tr)
  | Some sev => (OwnAwaitToc sev, tr ++ [EvTocCreate doc])
  end.

(** [Promise.all([...])] settles once the three passes have returned. *)
Definition settle (cancel : bool) (tr : list Event) (p : Passes)
    : Computation :=
  match running p, outstanding p, ownHeaders p with
  | [], [], OwnDone own =>
      mkComputation cancel tr (Returned [diagnostics p; references p; own])
  | _, _, _ => mkComputation cancel tr (Validating p)
  end.

Definition step (st : Computation) (w : Wake) : Computation :=
  match w, phase st with
  | CancelRequested, _ => mkComputation true (trace st) (phase st)
  | LinksReady, AwaitLinks =>
      if cancelled st then mkComputation true (trace st) (Returned [])
      else
        let links := getAllLinks host doc in
        let '(run, waiting, tr, ds) := startFileLinks false links (trace st) in
        let refs := validateReferenceLinks host options links in
        let '(own, tr') := startOwnHeaderLinks tr in
        settle false tr' (mkPasses run waiting ds refs own)
  | TaskReady k, Validating p =>
      match running p !! k with
      | None => st
      | Some t =>
          match resumeTask t with
          | Suspend t' ev =>
              mkComputation (cancelled st) (trace st ++ [ev])
                (Validating (mkPasses (<[k := t']> (running p)) (outstanding p)
                               (diagnostics p) (references p) (ownHeaders p)))
          | Complete pushed =>
              let '(run, waiting, tr, ds) :=
                consume (cancelled st) (outstanding p) (delete k (running p))
                        (trace st) (diagnostics p ++ pushed) in
              settle (cancelled st) tr
                (mkPasses run waiting ds (references p) (ownHeaders p))
          end
      end
  | TocReady, Validating p =>
      match ownHeaders p with
      | OwnAwaitToc sev =>
          let own := if cancelled st then []
                     else ownHeaderLoop host doc sev (getAllLinks host doc) in
          settle (cancelled st) (trace st)
            (mkPasses (running p) (outstanding p) (diagnostics p)
                      (references p) (OwnDone own))
      | OwnDone _ => st
      end
  | _, _ => st
  end.

(** The call [getDiagnostics(doc, options, token)]: [token] says
    whether cancellation was already requested. *)
Definition start (token : bool) : Computation :=
  mkComputation token [EvGetAllLinks doc] AwaitLinks.

Definition run (ws : list Wake) (st : Computation) : Computation :=
  fold_left step ws st.

(** The value of the returned promise once it has settled:
    [(await Promise.all([...])).flat()]. *)
Definition result (st : Computation) : option (list Diagnostic) :=
  match phase st with
  | Returned results => Some (concat results)
  | _ => None
  end.

Definition getDiagnostics (token : bool) (ws : list Wake)
    : option (list Diagnostic) :=
  result (run ws (start token)).
End Computer.

(** ** [DiagnosticManager] *)

Inductive TabInput :=
| TabInputText (u : Uri)
| TabInputOther.

(** What the handlers read from the host when they run:
    [vscode.workspace.textDocuments], [vscode.window.tabGroups.all] (the
    [input] of every tab of every group) and the configuration. *)
Record Workspace := mkWorkspace {
  textDocuments : list TextDocument;
  tabGroups : list (list TabInput);
  getOptions : Uri -> DiagnosticOptions
}.

(** A call of [update(doc)] suspended at its [await]: the document, the
    options read at the start and the computation awaited. *)
Record Update := mkUpdate {
  target : TextDocument;
  config : DiagnosticOptions;
  computation : Computation
}.

(** The fields of the manager.  [pendingDiagnostics] is a [Set] of URI
    objects: no duplicates (by identity), iterated in insertion order.
    [collection] is the host's [DiagnosticCollection], keyed by the
    rendered URI.  [delayerArmed] says whether the 300ms [Delayer] has a
    trigger outstanding. *)
Record Manager := mkManager {
  pendingDiagnostics : list Uri;
  collection : gmap string (list Diagnostic);
  delayerArmed : bool;
  inFlight : list Update
}.

Inductive ManagerEvent :=
| DidOpenTextDocument (d : TextDocument)
| DidChangeTextDocument (d : TextDocument)
| DidCloseTextDocument (d : TextDocument)
| ConfigurationDidChange
| DelayerFired
| PromiseSettled (k : nat) (w : Wake).

Definition set_add (u : Uri) (s : list Uri) : list Uri :=
  if decide (u ∈ s) then s else s ++ [u].

Definition set_delete (u : Uri) (s : list Uri) : list Uri :=
  List.filter (fun v => negb (bool_decide (v = u))) s.

Section Manager.
Variable host : Host.

(** [DiagnosticManager.getDiagnostics(doc, token)], up to the first
    suspension of the computation it returns. *)
Definition Manager_getDiagnostics (ws : Workspace) (doc : TextDocument)
    (token : bool) : DiagnosticOptions * Computation :=
  let config := getOptions ws (uri doc) in
  if negb (enabled config)
  then (config, mkComputation token [] (Returned []))
  else (config, start doc token).

(** [update(doc)] up to its [await]; the token is [noopToken]. *)
Definition update (ws : Workspace) (doc : TextDocument) (m : Manager)
    : Manager :=
  let '(config, c) := Manager_getDiagnostics ws doc false in
  mkManager (pendingDiagnostics m) (collection m) (delayerArmed m)
            (inFlight m ++ [mkUpdate doc config c]).

(** The rest of [update(doc)] when the awaited computation moves: once
    it has returned, [this.collection.set(doc.uri, diagnostics)].
    [noopToken] is never cancelled. *)
Definition settled (k : nat) (w : Wake) (m : Manager) : Manager :=
  match w with
  | CancelRequested => m
  | _ =>
      match inFlight m !! k with
      | None => m
      | Some u =>
          let c := step host (target u) (config u) (computation u) w in
          match result c with
          | Some ds =>
              mkManager (pendingDiagnostics m)
                (<[toString host (uri (target u)) := ds]> (collection m))
                (delayerArmed m) (delete k (inFlight m))
          | None =>
              mkManager (pendingDiagnostics m) (collection m) (delayerArmed m)
                (<[k := mkUpdate (target u) (config u) c]> (inFlight m))
          end
      end
  end.

Definition onDocUpdated (doc : TextDocument) (m : Manager) : Manager :=
  if isMarkdownFile host doc
  then mkManager (set_add (uri doc) (pendingDiagnostics m)) (collection m)
                 true (inFlight m)
  else m.

Definition onDidCloseTextDocument (doc : TextDocument) (m : Manager)
    : Manager :=
  mkManager (set_delete (uri doc) (pendingDiagnostics m))
            (delete (toString host (uri doc)) (collection m))
            (delayerArmed m) (inFlight m).

Definition recomputePendingDiagnostics (ws : Workspace) (m : Manager)
    : Manager :=
  let pending := pendingDiagnostics m in
  fold_left
    (fun m resource =>
       match List.find (fun doc => String.eqb (fsPath host (uri doc))
                                              (fsPath host resource))
                       (textDocuments ws) with
       | Some doc => update ws doc m
       | None => m
       end)
    pending
    (mkManager [] (collection m) false (inFlight m)).

Definition getAllTabResources (ws : Workspace) : gmap string Uri :=
  fold_left
    (fun openedTabDocs group =>
       fold_left
         (fun acc tab =>
            match tab with
            | TabInputText u => <[toString host u := u]> acc
            | TabInputOther => acc
            end)
         group openedTabDocs)
    (tabGroups ws) ∅.

(** [rebuild()] up to its [await Promise.all(...)]. *)
Definition rebuild (ws : Workspace) (m : Manager) : Manager :=
  let cleared :=
    mkManager (pendingDiagnostics m) ∅ (delayerArmed m) (inFlight m) in
  let allOpenedTabResources := getAllTabResources ws in
  fold_left
    (fun m doc => update ws doc m)
    (List.filter
       (fun doc =>
          bool_decide (is_Some (allOpenedTabResources !! toString host (uri doc)))
          && isMarkdownFile host doc)
       (textDocuments ws))
    cleared.

Definition handle (ws : Workspace) (m : Manager) (ev : ManagerEvent)
    : Manager :=
  match ev with
  | DidOpenTextDocument d => onDocUpdated d m
  | DidChangeTextDocument d => onDocUpdated d m
  | DidCloseTextDocument d => onDidCloseTextDocument d m
  | ConfigurationDidChange => rebuild ws m
  | DelayerFired =>
      if delayerArmed m then recomputePendingDiagnostics ws m else m
  | PromiseSettled k w => settled k w m
  end.

(** The constructor: empty fields, then [this.rebuild()]. *)
Definition newManager (ws : Workspace) : Manager :=
  rebuild ws (mkManager [] ∅ false []).

(** A history: each event with the workspace the handler saw. *)
Definition handleAll (m : Manager) (h : list (Workspace * ManagerEvent))
    : Manager :=
  fold_left (fun m we => handle (fst we) m (snd we)) h m.

(** [collection.get(uri)]: the diagnostics shown for a resource. *)
Definition published (m : Manager) (u : Uri) : list Diagnostic :=
  default [] (collection m !! toString host u).
End Manager.

(** ** A concrete host for examples *)

Module Sample.

(** Rendering of a URI: scheme, path and, when present, query. *)
Definition render (u : Uri) : string :=
  uri_scheme u ++ ":" ++ uri_path u ++
    (if truthy (uri_query u) then "?" ++ uri_query u else "").

(** Modelled from the spec: [LinkDefinitionSet] (in
    [documentLinkProvider]) is not part of this file's source.  It
    indexes the reference-style definitions of a link list by their
    reference name and supports lookup by name. *)
Definition LinkDefinitionSet_lookup (links : list MdLink) (r : string)
    : bool :=
  existsb (fun l => match kind l with
                    | KindDefinition t => String.eqb t r
                    | KindLink => false
                    end) links.

(** A workspace given by its markdown documents, each with its links
    and header slugs, and by the paths that exist on disk. *)
Record Entry := mkEntry {
  e_doc : TextDocument;
  e_links : list MdLink;
  e_slugs : list string
}.

Definition entryOf (known : list Entry) (p : string) : option Entry :=
  List.find (fun e => String.eqb (render (uri (e_doc e))) p) known.

Definition host (known : list Entry) (onDisk : list string) : Host :=
  {| toString := render;
     toStringSkipEncoding := render;
     fsPath := uri_path;
     isMarkdownFile := fun d => String.eqb (languageId d) "markdown";
     getAllLinks := fun d =>
       match entryOf known (render (uri d)) with
       | Some e => e_links e
       | None => []
       end;
     toc_lookup := fun d frag =>
       match entryOf known (render (uri d)) with
       | Some e => existsb (String.eqb frag) (e_slugs e)
       | None => false
       end;
     definition_lookup := LinkDefinitionSet_lookup;
     tryFindMdDocumentForLink := fun p =>
       match entryOf known (render p) with
       | Some e => Some (e_doc e)
       | None => None
       end;
     pathExists := fun p => existsb (String.eqb (uri_path p)) onDisk |}.

Definition file (oid : nat) (p : string) : Uri := mkUri oid "file" p "".
Definition md (oid : nat) (p : string) : TextDocument :=
  mkDoc (file oid p) "markdown" "".
Definition at_ (l c1 c2 : nat) : MdLinkSource :=
  mkSource (mkRange (mkPosition l c1) (mkPosition l c2)).

Definition readme : TextDocument := md 1 "/readme.md".
Definition guide : TextDocument := md 2 "/guide.md".

(** [[text](#missing)] in [/readme.md]. *)
Definition linkMissingHeader : MdLink :=
  mkLink KindLink (at_ 0 7 15) (InternalHref (file 10 "/readme.md") "missing").
(** [[text][undefined-ref]]. *)
Definition linkUndefinedRef : MdLink :=
  mkLink KindLink (at_ 1 7 20) (ReferenceHref "undefined-ref").
(** [[undefined-ref]: http://example.com]. *)
Definition defUndefinedRef : MdLink :=
  mkLink (KindDefinition "undefined-ref") (at_ 5 17 35)
         (ExternalHref (mkUri 11 "http" "//example.com" "")).
(** [[text](./missing.md)]. *)
Definition linkMissingFile : MdLink :=
  mkLink KindLink (at_ 2 7 19) (InternalHref (file 12 "/missing.md") "").
(** [[text](./guide.md#intro)] and [[text](./guide.md#nowhere)]. *)
Definition linkGuideIntro : MdLink :=
  mkLink KindLink (at_ 3 7 23) (InternalHref (file 13 "/guide.md") "intro").
Definition linkGuideNowhere : MdLink :=
  mkLink KindLink (at_ 4 7 25) (InternalHref (file 14 "/guide.md") "nowhere").
(** [[text](./gone.md)]. *)
Definition linkGoneFile : MdLink :=
  mkLink KindLink (at_ 6 7 16) (InternalHref (file 15 "/gone.md") "").

Definition allOn (l : DiagnosticLevel) : DiagnosticOptions :=
  mkOptions true l l l.

(** Links to [n] distinct missing files [/t.md], [/t0.md], [/t00.md], ... *)
Fixpoint manyTargets (n : nat) (name : string) : list MdLink :=
  match n with
  | O => []
  | S n' =>
      mkLink KindLink (at_ n' 0 5)
             (InternalHref (file (100 + n') ("/t" ++ name ++ ".md")) "")
      :: manyTargets n' (name ++ "0")
  end.

Definition workspaceOf (links : list MdLink) (slugs : list string)
    : list Entry :=
  [mkEntry readme links slugs; mkEntry guide [] ["intro"]].

(** Samples for the statements below. *)
Definition hostRef : Host := host (workspaceOf [linkUndefinedRef] []) [].
Definition hostRefDefined : Host :=
  host (workspaceOf [linkUndefinedRef; defUndefinedRef] []) [].
Definition hostHeader : Host := host (workspaceOf [linkMissingHeader] []) [].
Definition hostHeaderPresent : Host :=
  host (workspaceOf [linkMissingHeader] ["missing"]) [].
Definition hostFiles : Host :=
  host (workspaceOf [linkMissingFile; linkGuideIntro; linkGoneFile;
                     linkGuideNowhere; linkMissingHeader] []) [].
Definition hostFileCreated : Host :=
  host (workspaceOf [linkMissingFile] []) ["/missing.md"].
Definition hostAll : Host :=
  host (workspaceOf [linkMissingHeader; linkUndefinedRef; linkMissingFile;
                     linkGoneFile] []) [].
Definition hostMany : Host := host (workspaceOf (manyTargets 12 "") []) [].

Definition disabledButStrict : DiagnosticOptions :=
  mkOptions false error error error.
Definition allIgnored : DiagnosticOptions := mkOptions true ignore ignore ignore.
Definition filesOnly : DiagnosticOptions := mkOptions true ignore ignore error.

Definition diagMissingFile : Diagnostic :=
  mkDiagnostic (hrefRange (source linkMissingFile))
    "File does not exist at path: file:/missing.md" Error.
Definition diagGoneFile : Diagnostic :=
  mkDiagnostic (hrefRange (source linkGoneFile))
    "File does not exist at path: file:/gone.md" Error.
Definition diagUndefinedRef : Diagnostic :=
  mkDiagnostic (hrefRange (source linkUndefinedRef))
    "No link reference found: 'undefined-ref'" Error.
Definition diagMissingHeader : Diagnostic :=
  mkDiagnostic (hrefRange (source linkMissingHeader))
    "No header found: 'missing'" Error.

(** The check for [/gone.md] settles before the one for [/missing.md]. *)
Definition goneFirst : list Wake :=
  [LinksReady; TocReady; TaskReady 2; TaskReady 2; TaskReady 0; TaskReady 0;
   TaskReady 0].

(** The same file opened through another scheme, with a query. *)
Definition readmeAtHead : TextDocument :=
  mkDoc (mkUri 50 "git" "/readme.md" "ref=HEAD") "markdown" "".

Definition twoViews : Workspace :=
  mkWorkspace [readmeAtHead; readme] [] (fun _ => allOn error).

Definition idle : Manager := mkManager [] ∅ false [].

(** [/readme.md] is opened, the debounce timer fires, and the document
    is closed while its diagnostics are being computed. *)
Definition openedThenClosed (ws : Workspace) : list (Workspace * ManagerEvent) :=
  [(ws, DidOpenTextDocument readme); (ws, DelayerFired);
   (ws, DidCloseTextDocument readme)].

(** The computation started before the close runs to its end. *)
Definition lateCompletion (ws : Workspace) : list (Workspace * ManagerEvent) :=
  [(ws, PromiseSettled 0 LinksReady); (ws, PromiseSettled 0 TocReady)].

Definition workspace (o : DiagnosticOptions) : Workspace :=
  mkWorkspace [readme; guide] [[TabInputText (uri readme); TabInputOther]]
              (fun _ => o).

End Sample.

(** ** Statements of the expected results, in the words of the specification *)

Section Expected.
Variable host : Host.
Variable doc : TextDocument.

(** Own-header validation: one diagnostic at the href range of every
    internal link to the document's own path with a non-empty fragment
    that the document's table of contents does not have. *)
Definition ownHeaderExpected (sev : DiagnosticSeverity)
    (links : list MdLink) : list Diagnostic :=
  flat_map
    (fun link =>
       match href link with
       | InternalHref p frag =>
           if bool_decide (toString host p = toString host (uri doc)
                           /\ frag <> ""
                           /\ toc_lookup host doc frag = false)
           then [mkDiagnostic (hrefRange (source link))
                   ("No header found: '" ++ frag ++ "'") sev]
           else []
       | _ => []
       end)
    links.

(** Reference validation: one diagnostic at the href range of every
    reference link whose name has no definition among [links]. *)
Definition referenceExpected (sev : DiagnosticSeverity)
    (links : list MdLink) : list Diagnostic :=
  flat_map
    (fun link =>
       match href link with
       | ReferenceHref r =>
           if definition_lookup host links r then []
           else [mkDiagnostic (hrefRange (source link))
                   ("No link reference found: '" ++ r ++ "'") sev]
       | _ => []
       end)
    links.

(** File-path validation of one distinct target. *)
Definition targetExpected (sev : DiagnosticSeverity) (e : FileLinksData)
    : list Diagnostic :=
  match tryFindMdDocumentForLink host (fl_path e) with
  | Some target =>
      if bool_decide (toString host (uri target) = toString host (uri doc))
      then []
      else
        map (fun l => mkDiagnostic (hrefRange (ld_source l))
                        ("Header does not exist in file: " ++ ld_fragment l) sev)
            (List.filter
               (fun l => bool_decide (ld_fragment l <> "")
                         && negb (toc_lookup host target (ld_fragment l)))
               (fl_links e))
  | None =>
      if pathExists host (fl_path e) then []
      else
        map (fun l => mkDiagnostic (hrefRange (ld_source l))
                        ("File does not exist at path: "
                           ++ toStringSkipEncoding host (fl_path e)) sev)
            (fl_links e)
  end.

(** The link data of the internal links of [links] whose target
    renders as [k], in source order. *)
Definition linksTo (k : string) (links : list MdLink) : list LinkData :=
  flat_map
    (fun link =>
       match href link with
       | InternalHref p frag =>
           if bool_decide (toString host p = k)
           then [mkLinkData (source link) frag] else []
       | _ => []
       end)
    links.

(** The three parts of a result, by level. *)
Definition filePathDiagnostics (options : DiagnosticOptions)
    (links : list MdLink) : list Diagnostic :=
  match toSeverity (validateFilePaths options) with
  | None => []
  | Some sev => flat_map (targetExpected sev) (entries (newFileLinkMap host links))
  end.

Definition referenceDiagnostics (options : DiagnosticOptions)
    (links : list MdLink) : list Diagnostic :=
  match toSeverity (validateReferences options) with
  | None => []
  | Some sev => referenceExpected sev links
  end.

Definition ownHeaderDiagnostics (options : DiagnosticOptions)
    (links : list MdLink) : list Diagnostic :=
  match toSeverity (validateOwnHeaders options) with
  | None => []
  | Some sev => ownHeaderExpected sev links
  end.

(** The path/document existence calls made for one target. *)
Definition resolutionsOf (e : FileLinksData) : list Event :=
  EvFindDoc (fl_path e)
  :: match tryFindMdDocumentForLink host (fl_path e) with
     | Some _ => []
     | None => [EvPathExists (fl_path e)]
     end.
End Expected.

Definition isResolution (ev : Event) : bool :=
  match ev with
  | EvFindDoc _ | EvPathExists _ => true
  | _ => false
  end.

(** The path/document existence calls of a trace. *)
Definition resolutions (tr : list Event) : list Event :=
  List.filter isResolution tr.

Definition isCancel (w : Wake) : bool :=
  match w with
  | CancelRequested => true
  | _ => false
  end.

(** A schedule during which the token is never cancelled. *)
Definition neverCancelled (ws : list Wake) : Prop :=
  Forall (fun w => isCancel w = false) ws.

(** The schedule that lets every pending promise settle, oldest task
    first. *)
Definition drain (n : nat) : list Wake :=
  LinksReady :: TocReady :: repeat (TaskReady 0) n.

(** ** Bookkeeping used in the proofs about the scheduling *)

Section Accounting.
Variable host : Host.
Variable doc : TextDocument.
Variable options : DiagnosticOptions.

(** What the task for entry [e] pushes when run from start to end. *)
Definition entryYield (sev : DiagnosticSeverity) (e : FileLinksData)
    : list Diagnostic :=
  match tryFindMdDocumentForLink host (fl_path e) with
  | Some hrefDoc =>
      if String.eqb (toString host (uri hrefDoc)) (toString host (uri doc))
      then []
      else headerLoop host sev hrefDoc
             (List.filter (fun x => truthy (ld_fragment x)) (fl_links e))
  | None =>
      if negb (pathExists host (fl_path e))
      then missingFileLoop host sev (fl_path e) (fl_links e)
      else []
  end.

(** What a suspended task still has to push. *)
Definition taskYield (t : Task) : list Diagnostic :=
  match t with
  | AwaitFind sev e => entryYield sev e
  | AwaitExists sev e =>
      if negb (pathExists host (fl_path e))
      then missingFileLoop host sev (fl_path e) (fl_links e)
      else []
  | AwaitToc sev hrefDoc fragmentLinks =>
      headerLoop host sev hrefDoc fragmentLinks
  end.

(** The existence calls a suspended task still has to make. *)
Definition taskResolutions (t : Task) : list Event :=
  match t with
  | AwaitFind _ e =>
      match tryFindMdDocumentForLink host (fl_path e) with
      | Some _ => []
      | None => [EvPathExists (fl_path e)]
      end
  | _ => []
  end.

Definition factoryYield (f : Factory) : list Diagnostic :=
  entryYield (fst f) (snd f).
Definition factoryResolutions (f : Factory) : list Event :=
  resolutionsOf host (snd f).

(** The number of wake-ups a task can still take. *)
Definition weight (t : Task) : nat :=
  match t with
  | AwaitFind _ _ => 2
  | _ => 1
  end.

Definition remaining (run : list Task) (waiting : list Factory) : nat :=
  list_sum (map weight run) + 3 * length waiting.

(** The factories [validateFileLinks] submits, in submission order. *)
Definition fileFactories : list Factory :=
  match toSeverity (validateFilePaths options) with
  | None => []
  | Some sev =>
      map (pair sev) (entries (newFileLinkMap host (getAllLinks host doc)))
  end.

(** The value [validateOwnHeaderLinks] returns when not cancelled. *)
Definition ownHeaderFinal : list Diagnostic :=
  match toSeverity (validateOwnHeaders options) with
  | None => []
  | Some sev => ownHeaderLoop host doc sev (getAllLinks host doc)
  end.

Definition ownHeaderOk (o : OwnPass) : Prop :=
  match o with
  | OwnAwaitToc sev => toSeverity (validateOwnHeaders options) = Some sev
  | OwnDone ds => ds = ownHeaderFinal
  end.

(** Invariant of every reachable state: the limiter's bound, that
    factories wait only while all slots are taken, and that
    [Promise.all] has settled as soon as nothing is left to do. *)
Definition Bounded (st : Computation) : Prop :=
  match phase st with
  | Validating p =>
      length (running p) <= maxDegreeOfParalellism
      /\ (outstanding p <> [] -> length (running p) = maxDegreeOfParalellism)
      /\ (running p = [] -> outstanding p = [] ->
          forall ds, ownHeaders p <> OwnDone ds)
  | _ => True
  end.

(** Invariant of the states reached without cancellation: every
    diagnostic and every existence call of every target is either
    already made, or owed by a running task, or owed by a waiting
    factory; the waiting factories are a suffix of the submitted ones. *)
Definition Accounted (st : Computation) : Prop :=
  cancelled st = false /\
  match phase st with
  | AwaitLinks => resolutions (trace st) = []
  | Validating p =>
      diagnostics p ++ flat_map taskYield (running p)
        ++ flat_map factoryYield (outstanding p)
        ≡ₚ flat_map factoryYield fileFactories
      /\ resolutions (trace st) ++ flat_map taskResolutions (running p)
           ++ flat_map factoryResolutions (outstanding p)
         ≡ₚ flat_map factoryResolutions fileFactories
      /\ references p
         = validateReferenceLinks host options (getAllLinks host doc)
      /\ ownHeaderOk (ownHeaders p)
      /\ (exists n, outstanding p = drop n fileFactories)
  | Returned results =>
      exists f,
        results = [f; validateReferenceLinks host options (getAllLinks host doc);
                   ownHeaderFinal]
        /\ f ≡ₚ flat_map factoryYield fileFactories
        /\ resolutions (trace st) ≡ₚ flat_map factoryResolutions fileFactories
  end.
End Accounting.

(** The loop invariant of the [FileLinkMap] constructor over the links
    seen so far: distinct keys, every entry holding exactly the links to
    its key, and every linked key present. *)
Definition Grouped (host : Host) (m : FileLinkMap) (links : list MdLink)
    : Prop :=
  NoDup (map fst m)
  /\ (forall k e, In (k, e) m ->
        fl_links e = linksTo host k links /\ toString host (fl_path e) = k)
  /\ (forall k, linksTo host k links <> [] -> In k (map fst m)).

(** What pass [i] of [Promise.all([file, reference, own-header])] has
    contributed in a state. *)
Definition passResult (i : nat) (st : Computation) : list Diagnostic :=
  match phase st with
  | AwaitLinks => []
  | Validating p =>
      nth i [diagnostics p; references p;
             match ownHeaders p with OwnDone ds => ds | OwnAwaitToc _ => [] end]
          []
  | Returned results => nth i results []
  end.

(** Invariant of every reachable state about the passes set to
    [ignore]. *)
Definition Quiet (options : DiagnosticOptions) (st : Computation) : Prop :=
  match phase st with
  | AwaitLinks => resolutions (trace st) = []
  | Validating p =>
      (validateFilePaths options = ignore ->
         running p = [] /\ outstanding p = [] /\ diagnostics p = []
         /\ resolutions (trace st) = [])
      /\ (validateReferences options = ignore -> references p = [])
      /\ (validateOwnHeaders options = ignore -> ownHeaders p = OwnDone [])
  | Returned results =>
      (validateFilePaths options = ignore ->
         nth 0 results [] = [] /\ resolutions (trace st) = [])
      /\ (validateReferences options = ignore -> nth 1 results [] = [])
      /\ (validateOwnHeaders options = ignore -> nth 2 results [] = [])
  end.

(** The document lookups and the path checks of a trace. *)
Definition documentLookup (ev : Event) : option Uri :=
  match ev with
  | EvFindDoc p => Some p
  | _ => None
  end.

Definition pathCheck (ev : Event) : option Uri :=
  match ev with
  | EvPathExists p => Some p
  | _ => None
  end.

(** ** Statements about the manager *)

Section ManagerExpected.
Variable host : Host.

(** The suspended [update(doc)] call that a handler leaves behind. *)
Definition updateOf (ws : Workspace) (doc : TextDocument) : Update :=
  mkUpdate doc (fst (Manager_getDiagnostics ws doc false))
               (snd (Manager_getDiagnostics ws doc false)).

(** A document appears in a tracked tab group: some tab of some group
    is a text tab whose URI renders as the document's. *)
Definition inSomeTab (ws : Workspace) (doc : TextDocument) : bool :=
  existsb
    (fun group =>
       existsb (fun tab =>
                  match tab with
                  | TabInputText u =>
                      String.eqb (toString host u) (toString host (uri doc))
                  | TabInputOther => false
                  end) group)
    (tabGroups ws).

(** The open markdown documents that appear in a tracked tab group. *)
Definition visibleMarkdown (ws : Workspace) : list TextDocument :=
  List.filter (fun doc => inSomeTab ws doc && isMarkdownFile host doc)
              (textDocuments ws).

(** The first open document with the file system path of [resource]. *)
Definition firstWithPath (ws : Workspace) (resource : Uri)
    : option TextDocument :=
  List.find (fun doc => String.eqb (fsPath host (uri doc)) (fsPath host resource))
            (textDocuments ws).
End ManagerExpected.

Definition isSettlement (ev : ManagerEvent) : bool :=
  match ev with
  | PromiseSettled _ _ => true
  | _ => false
  end.

(** A history in which nothing happens but awaited promises settling. *)
Definition onlySettlements (h : list (Workspace * ManagerEvent)) : Prop :=
  Forall (fun we => isSettlement (snd we) = true) h.

(** The promises awaited by the update at index [k] settle in the order
    [sched]. *)
Definition settlements (ws : Workspace) (k : nat) (sched : list Wake)
    : list (Workspace * ManagerEvent) :=
  map (fun w => (ws, PromiseSettled k w)) sched.

(** Every update in flight has already returned the empty list and no
    published entry holds a diagnostic. *)
Definition AllClear (m : Manager) : Prop :=
  (forall u, In u (inFlight m) -> phase (computation u) = Returned [])
  /\ (forall key ds, collection m !! key = Some ds -> ds = []).

(** ** [VSCodeDiagnosticConfiguration] *)

(** A value stored for a setting.  The code reads the [enabled] setting
    only through its truthiness and the level settings only through
    [toSeverity]'s [switch], so a stored value that is neither a boolean
    nor a string is kept with its JavaScript truthiness alone. *)
Inductive SettingValue :=
| SettingBool (b : bool)
| SettingString (s : string)
| SettingOther (truthiness : bool).

(** [config.get(key, defaultValue)]: the stored value, or the default
    when nothing is stored. *)
Definition config_get (config : string -> option SettingValue)
    (key : string) (defaultValue : SettingValue) : SettingValue :=
  match config key with
  | Some v => v
  | None => defaultValue
  end.

Definition valueTruthy (v : SettingValue) : bool :=
  match v with
  | SettingBool b => b
  | SettingString s => truthy s
  | SettingOther t => t
  end.

(** [toSeverity] on a stored value: the [switch] compares it with the
    three enum strings and has no [default], so every other value falls
    through to [undefined]. *)
Definition toSeverityOfValue (v : SettingValue) : option DiagnosticSeverity :=
  match v with
  | SettingString s =>
      if String.eqb s "error" then Some Error
      else if String.eqb s "warning" then Some Warning
      else if String.eqb s "ignore" then None
      else None
  | _ => None
  end.

(** The level a stored value stands for in the typed options. *)
Definition levelOfValue (v : SettingValue) : DiagnosticLevel :=
  match v with
  | SettingString s =>
      if String.eqb s "error" then error
      else if String.eqb s "warning" then warning
      else ignore
  | _ => ignore
  end.

(** [VSCodeDiagnosticConfiguration.getOptions(resource)], given the
    settings of section [markdown] for the resource. *)
Definition VSCodeDiagnosticConfiguration_getOptions
    (config : string -> option SettingValue) : DiagnosticOptions :=
  {| enabled :=
       valueTruthy (config_get config "experimental.validate.enabled"
                               (SettingBool false));
     validateReferences :=
       levelOfValue (config_get config "experimental.validate.referenceLinks"
                                (SettingString "ignore"));
     validateOwnHeaders :=
       levelOfValue (config_get config "experimental.validate.headerLinks"
                                (SettingString "ignore"));
     validateFilePaths :=
       levelOfValue (config_get config "experimental.validate.fileLinks"
                                (SettingString "ignore")) |}.

(** The listener of the constructor: whether [_onDidChange] fires for a
    configuration change event, given its [affectsConfiguration]. *)
Definition VSCodeDiagnosticConfiguration_fires
    (affectsConfiguration : string -> bool) : bool :=
  affectsConfiguration "markdown.experimental.validate.enabled".

(** [register]: the manager's [rebuild] runs on a host configuration
    change only when the configuration object fires. *)
Definition onDidChangeConfiguration (host : Host)
    (affectsConfiguration : string -> bool) (ws : Workspace) (m : Manager)
    : Manager :=
  if VSCodeDiagnosticConfiguration_fires affectsConfiguration
  then handle host ws m ConfigurationDidChange
  else m.

(** The value stored under [key] is exactly the enum string that
    [toSeverity] maps to [sev]. *)
Definition storedLevel (config : string -> option SettingValue)
    (key : string) (sev : DiagnosticSeverity) : Prop :=
  (sev = Error /\ config key = Some (SettingString "error"))
  \/ (sev = Warning /\ config key = Some (SettingString "warning")).

(** ** Further bookkeeping *)

Section Soundness.
Variable host : Host.
Variable doc : TextDocument.
Variable options : DiagnosticOptions.

(** Invariant of every reachable state, cancelled or not: what has been
    pushed and what is still owed never exceeds what the targets yield,
    and likewise for the existence calls. *)
Definition Sound (st : Computation) : Prop :=
  match phase st with
  | AwaitLinks => resolutions (trace st) = []
  | Validating p =>
      diagnostics p ++ flat_map (taskYield host doc) (running p)
        ++ flat_map (factoryYield host doc) (outstanding p)
        ⊆+ flat_map (factoryYield host doc) (fileFactories host doc options)
      /\ resolutions (trace st) ++ flat_map (taskResolutions host) (running p)
           ++ flat_map (factoryResolutions host) (outstanding p)
         ⊆+ flat_map (factoryResolutions host) (fileFactories host doc options)
      /\ references p
         = validateReferenceLinks host options (getAllLinks host doc)
      /\ match ownHeaders p with
         | OwnAwaitToc sev => toSeverity (validateOwnHeaders options) = Some sev
         | OwnDone ds => ds = ownHeaderFinal host doc options \/ ds = []
         end
  | Returned results =>
      resolutions (trace st)
        ⊆+ flat_map (factoryResolutions host) (fileFactories host doc options)
      /\ (results = []
          \/ exists f o,
               results
               = [f; validateReferenceLinks host options (getAllLinks host doc); o]
               /\ f ⊆+ flat_map (factoryYield host doc)
                         (fileFactories host doc options)
               /\ (o = ownHeaderFinal host doc options \/ o = []))
  end.
End Soundness.

Definition isLinksReady (w : Wake) : bool :=
  match w with
  | LinksReady => true
  | _ => false
  end.

(** The link data of an internal link. *)
Definition internalData (link : MdLink) : option LinkData :=
  match href link with
  | InternalHref _ frag => Some (mkLinkData (source link) frag)
  | _ => None
  end.

Definition isReference (link : MdLink) : bool :=
  match href link with
  | ReferenceHref _ => true
  | _ => false
  end.

(** The href ranges of the internal links and of the reference links of
    a link list, one per link, in source order.  External links have no
    part in either list. *)
Definition internalRanges (links : list MdLink) : list Range :=
  map (fun d => hrefRange (ld_source d)) (omap internalData links).

Definition referenceRanges (links : list MdLink) : list Range :=
  map (fun link => hrefRange (source link)) (List.filter isReference links).

(** No update in flight has called a host service or has anything but
    the empty list to publish, and no published entry holds a
    diagnostic. *)
Definition Silent (m : Manager) : Prop :=
  (forall u, In u (inFlight m) ->
     computation u = mkComputation false [] (Returned []))
  /\ (forall key ds, collection m !! key = Some ds -> ds = []).

(** A history during which validation is disabled for every resource. *)
Definition validationOff (h : list (Workspace * ManagerEvent)) : Prop :=
  Forall (fun we => forall r, enabled (getOptions (fst we) r) = false) h.

(** Everything the three passes report for a document under given
    options when nothing is cancelled. *)
Definition expectedDiagnostics (host : Host) (doc : TextDocument)
    (options : DiagnosticOptions) : list Diagnostic :=
  filePathDiagnostics host doc options (getAllLinks host doc)
  ++ referenceDiagnostics host options (getAllLinks host doc)
  ++ ownHeaderDiagnostics host doc options (getAllLinks host doc).

(** [ds] under [key] is accounted for by a document that the host
    listed in one of the workspaces [wss]: the key is its rendered URI
    and [ds] holds only diagnostics expected for it under the options
    configured for it there, none more often than expected. *)
Definition Justified (host : Host) (wss : list Workspace) (key : string)
    (ds : list Diagnostic) : Prop :=
  exists ws doc,
    In ws wss /\ In doc (textDocuments ws)
    /\ toString host (uri doc) = key
    /\ ds ⊆+ expectedDiagnostics host doc (getOptions ws (uri doc)).

(** An update in flight was started by [update] for a listed document
    with the options configured for it, and its computation is a state
    that [getDiagnostics] reaches. *)
Definition Started (host : Host) (wss : list Workspace) (u : Update) : Prop :=
  (exists ws, In ws wss /\ In (target u) (textDocuments ws)
              /\ config u = getOptions ws (uri (target u)))
  /\ (computation u = mkComputation false [] (Returned [])
      \/ exists sched,
           computation u
           = run host (target u) (config u) sched (start (target u) false)).

Definition Faithful (host : Host) (wss : list Workspace) (m : Manager)
    : Prop :=
  (forall u, In u (inFlight m) -> Started host wss u)
  /\ (forall key ds, collection m !! key = Some ds ->
        Justified host wss key ds).

(** More samples. *)
Module Sample2.

(** Settings in which validation is on, reference links are errors, the
    header level is misspelt and the file level is not a string. *)
Definition settings (key : string) : option SettingValue :=
  if String.eqb key "experimental.validate.enabled" then Some (SettingBool true)
  else if String.eqb key "experimental.validate.referenceLinks"
  then Some (SettingString "error")
  else if String.eqb key "experimental.validate.headerLinks"
  then Some (SettingString "Error")
  else if String.eqb key "experimental.validate.fileLinks"
  then Some (SettingOther true)
  else None.

(** Cancellation arrives after the first ten tasks have started. *)
Definition cancelledLate : list Wake :=
  [LinksReady; CancelRequested].

(** Validation is switched on and nothing else is stored. *)
Definition onlyEnabled (key : string) : option SettingValue :=
  if String.eqb key "experimental.validate.enabled" then Some (SettingBool true)
  else None.

(** [/readme.md] is opened, validated and published; an event for a
    document that the host does not list follows. *)
Definition openedAndPublished : list (Workspace * ManagerEvent) :=
  Sample.openedThenClosed (Sample.workspace (Sample.allOn error))
  ++ Sample.lateCompletion (Sample.workspace (Sample.allOn error))
  ++ [(Sample.workspace (Sample.allOn error),
       DidOpenTextDocument (Sample.md 70 "/unlisted.md"));
      (Sample.workspace (Sample.allOn error), DelayerFired)].

(** [[text](http://example.com)]. *)
Definition linkExternal : MdLink :=
  mkLink KindLink (Sample.at_ 7 7 27)
         (ExternalHref (mkUri 16 "http" "//example.com" "")).

(** [/readme.md] with a link of every kind. *)
Definition hostMixed : Host :=
  Sample.host
    (Sample.workspaceOf [Sample.linkMissingHeader; linkExternal;
                         Sample.linkMissingFile; Sample.linkUndefinedRef] [])
    [].

(** Diagnostics are published for [/readme.md], which is also pending
    again, while an update of [/guide.md] is in flight. *)
Definition busy : Manager :=
  mkManager [uri Sample.guide; uri Sample.readme]
    {["file:/readme.md" := [Sample.diagUndefinedRef]]} true
    [updateOf (Sample.workspace (Sample.allOn error)) Sample.guide].

(** Two updates of [/readme.md] in flight, the older at index 0. *)
Definition twoInFlight : Manager :=
  mkManager [] ∅ false
    [updateOf (Sample.workspace (Sample.allOn error)) Sample.readme;
     updateOf (Sample.workspace Sample.allIgnored) Sample.readme].

End Sample2.

(** * Theorems *)

(** ** List helpers *)

Lemma fold_left_pushes {A B} (f : list B -> A -> list B) (g : A -> list B)
    (l : list A) (acc : list B) :
  (forall acc x, f acc x = acc ++ g x) ->
  fold_left f l acc = acc ++ flat_map g l.
Proof.
  intros Hf. revert acc. induction l as [|x l IH]; intros acc; simpl.
  - by rewrite app_nil_r.
  - rewrite IH, Hf. by rewrite <- app_assoc.
Qed.

Lemma flat_map_lookup_perm {A B} (g : A -> list B) (l : list A) k t :
  l !! k = Some t -> flat_map g l ≡ₚ g t ++ flat_map g (delete k l).
Proof.
  intros Hk. rewrite (delete_Permutation l k t Hk) at 1. done.
Qed.

Lemma flat_map_insert_perm {A B} (g : A -> list B) (l : list A) k t t' :
  l !! k = Some t ->
  flat_map g (<[k := t']> l) ≡ₚ g t' ++ flat_map g (delete k l).
Proof.
  intros Hk. apply lookup_lt_Some in Hk.
  rewrite insert_take_drop, delete_take_drop by done.
  rewrite !flat_map_app. simpl.
  apply Permutation_app_swap_app.
Qed.

Lemma omap_cons_eq {A B} (f : A -> option B) (x : A) (l : list A) :
  omap f (x :: l)
  = match f x with
    | Some y => y :: omap f l
    | None => omap f l
    end.
Proof. done. Qed.

Lemma truthy_nonempty s : truthy s = bool_decide (s <> "").
Proof.
  destruct s; cbn [truthy]; symmetry.
  - apply bool_decide_eq_false. auto.
  - by apply bool_decide_eq_true.
Qed.

Lemma eqb_bool_decide (a b : string) : String.eqb a b = bool_decide (a = b).
Proof.
  destruct (String.eqb_spec a b).
  - by rewrite bool_decide_true.
  - by rewrite bool_decide_false.
Qed.

(** ** The loops of the three passes *)

Section PassLemmas.
Variable host : Host.
Variable doc : TextDocument.

Lemma ownHeaderMiss_spec link p frag :
  href link = InternalHref p frag ->
  ownHeaderMiss host doc link
  = if bool_decide (toString host p = toString host (uri doc)
                    /\ frag <> "" /\ toc_lookup host doc frag = false)
    then Some frag else None.
Proof.
  intros Hh. unfold ownHeaderMiss. rewrite Hh.
  rewrite eqb_bool_decide, truthy_nonempty.
  destruct (toc_lookup host doc frag) eqn:Hl; simpl.
  - rewrite andb_false_r. rewrite bool_decide_false; [done|].
    intros (_ & _ & ?). done.
  - rewrite andb_true_r.
    destruct (decide (toString host p = toString host (uri doc))) as [Hp|Hp];
      destruct (decide (frag <> "")) as [Hf|Hf].
    + by rewrite !bool_decide_true by auto.
    + rewrite (bool_decide_false (frag <> "")) by auto. rewrite andb_false_r.
      rewrite bool_decide_false; [done|]. intros (_ & ? & _). done.
    + rewrite (bool_decide_false (toString host p = _)) by auto. simpl.
      rewrite bool_decide_false; [done|]. intros (? & _ & _). done.
    + rewrite (bool_decide_false (toString host p = _)) by auto. simpl.
      rewrite bool_decide_false; [done|]. intros (? & _ & _). done.
Qed.

Lemma ownHeaderLoop_expected sev links :
  ownHeaderLoop host doc sev links = ownHeaderExpected host doc sev links.
Proof.
  unfold ownHeaderLoop, ownHeaderExpected.
  erewrite fold_left_pushes; [done|].
  intros acc link. cbv beta.
  destruct (href link) as [t|p frag|r] eqn:Hh.
  - unfold ownHeaderMiss. rewrite Hh. by rewrite app_nil_r.
  - rewrite (ownHeaderMiss_spec _ _ _ Hh).
    case_bool_decide; [done|]. by rewrite app_nil_r.
  - unfold ownHeaderMiss. rewrite Hh. by rewrite app_nil_r.
Qed.

Lemma referenceLoop_expected defs sev links :
  referenceLoop defs sev links
  = flat_map
      (fun link =>
         match href link with
         | ReferenceHref r =>
             if defs r then []
             else [mkDiagnostic (hrefRange (source link))
                     ("No link reference found: '" ++ r ++ "'") sev]
         | _ => []
         end)
      links.
Proof.
  induction links as [|link links IH]; simpl; [done|].
  rewrite IH. destruct (href link) as [t|p frag|r]; try done.
  by destruct (defs r).
Qed.

Lemma headerLoop_expected sev hrefDoc fragmentLinks :
  headerLoop host sev hrefDoc fragmentLinks
  = map (fun l => mkDiagnostic (hrefRange (ld_source l))
                    ("Header does not exist in file: " ++ ld_fragment l) sev)
        (List.filter (fun l => negb (toc_lookup host hrefDoc (ld_fragment l)))
                     fragmentLinks).
Proof.
  unfold headerLoop.
  rewrite (fold_left_pushes _
             (fun l => if negb (toc_lookup host hrefDoc (ld_fragment l))
                       then [mkDiagnostic (hrefRange (ld_source l))
                               ("Header does not exist in file: " ++ ld_fragment l) sev]
                       else [])).
  - simpl. induction fragmentLinks as [|l ls IH]; simpl; [done|].
    rewrite IH. by destruct (toc_lookup host hrefDoc (ld_fragment l)).
  - intros acc l. destruct (negb _); [done|]. by rewrite app_nil_r.
Qed.

Lemma missingFileLoop_expected sev p links :
  missingFileLoop host sev p links
  = map (fun l => mkDiagnostic (hrefRange (ld_source l))
                    ("File does not exist at path: " ++ toStringSkipEncoding host p)
                    sev)
        links.
Proof.
  unfold missingFileLoop.
  rewrite (fold_left_pushes _
             (fun l => [mkDiagnostic (hrefRange (ld_source l))
                          ("File does not exist at path: "
                             ++ toStringSkipEncoding host p) sev])).
  - simpl. induction links as [|l ls IH]; simpl; [done|]. by rewrite IH.
  - done.
Qed.
End PassLemmas.

(** ** The limiter *)

Section LimiterLemmas.

Lemma consume_not_cancelled waiting run tr ds :
  consume false waiting run tr ds
  = (run ++ map (fun f => AwaitFind (fst f) (snd f))
                (take (maxDegreeOfParalellism - length run) waiting),
     drop (maxDegreeOfParalellism - length run) waiting,
     tr ++ map (fun f => EvFindDoc (fl_path (snd f)))
               (take (maxDegreeOfParalellism - length run) waiting),
     ds).
Proof.
  revert run tr. induction waiting as [|f rest IH]; intros run tr.
  - cbn [consume]. by rewrite take_nil, drop_nil, !app_nil_r.
  - cbn [consume]. destruct (Nat.ltb_spec (length run) maxDegreeOfParalellism) as [Hlt|Hge].
    + cbn [startTask]. rewrite IH. rewrite length_app. cbn [length].
      replace (maxDegreeOfParalellism - length run)
        with (S (maxDegreeOfParalellism - (length run + 1))) by lia.
      cbn [take drop map]. by rewrite <- !app_assoc.
    + replace (maxDegreeOfParalellism - length run) with 0 by lia.
      cbn [take drop map]. by rewrite !app_nil_r.
Qed.

Lemma consume_cancelled waiting run tr ds :
  consume true waiting run tr ds
  = if Nat.ltb (length run) maxDegreeOfParalellism
    then (run, [], tr, ds)
    else (run, waiting, tr, ds).
Proof.
  induction waiting as [|f rest IH].
  - cbn [consume]. by destruct (Nat.ltb _ _).
  - cbn [consume startTask]. rewrite app_nil_r, IH.
    by destruct (Nat.ltb _ _).
Qed.

(** Whatever the token says, the limiter never exceeds its bound, keeps
    factories waiting only when all slots are taken, and does not add
    pending work. *)
Lemma consume_bounded cancel waiting run tr ds run' waiting' tr' ds' :
  consume cancel waiting run tr ds = (run', waiting', tr', ds') ->
  length run <= maxDegreeOfParalellism ->
  (waiting <> [] -> length run < maxDegreeOfParalellism
   \/ length run = maxDegreeOfParalellism) ->
  length run' <= maxDegreeOfParalellism
  /\ (waiting' <> [] -> length run' = maxDegreeOfParalellism)
  /\ remaining run' waiting' <= remaining run waiting.
Proof.
  intros Hc Hle _. destruct cancel.
  - rewrite consume_cancelled in Hc.
    destruct (Nat.ltb_spec (length run) maxDegreeOfParalellism);
      inversion Hc; subst; clear Hc.
    + split; [lia|]. split; [done|]. unfold remaining. simpl. lia.
    + split; [lia|]. split; [lia|]. done.
  - rewrite consume_not_cancelled in Hc. inversion Hc; subst; clear Hc.
    set (j := maxDegreeOfParalellism - length run).
    rewrite length_app, length_map, length_take.
    split; [subst j; lia|]. split.
    + intros Hne. destruct (decide (length waiting <= j)) as [Hs|Hs].
      * rewrite drop_ge in Hne by done. done.
      * subst j. lia.
    + unfold remaining. rewrite map_app, list_sum_app, length_drop.
      assert (Hw : list_sum (map weight
                     (map (fun f => AwaitFind (fst f) (snd f)) (take j waiting)))
                   = 2 * length (take j waiting)).
      { generalize (take j waiting). intros l.
        induction l as [|x l IHl]; simpl in *; lia. }
      rewrite Hw, length_take. subst j. lia.
Qed.
End LimiterLemmas.

(** ** One move of a computation *)

Section SchedulingLemmas.
Variable host : Host.
Variable doc : TextDocument.
Variable options : DiagnosticOptions.

Abbreviation hstep := (step host doc options).
Abbreviation hrun := (run host doc options).

Abbreviation Accounted := (Accounted host doc options).
Abbreviation F := (fileFactories host doc options).
Abbreviation taskYield := (taskYield host doc).
Abbreviation factoryYield := (factoryYield host doc).
Abbreviation taskResolutions := (taskResolutions host).
Abbreviation factoryResolutions := (factoryResolutions host).
Abbreviation awaitFind := (fun f : Factory => AwaitFind (fst f) (snd f)).
Abbreviation evFind := (fun f : Factory => EvFindDoc (fl_path (snd f))).

Lemma fold_queue sev es tr :
  fold_left (fun st e => queue false (sev, e) st) es ([], [], tr, [])
  = (map awaitFind (take maxDegreeOfParalellism (map (pair sev) es)),
     drop maxDegreeOfParalellism (map (pair sev) es),
     tr ++ map evFind (take maxDegreeOfParalellism (map (pair sev) es)),
     []).
Proof.
  induction es as [|e es IH] using rev_ind.
  - simpl. by rewrite app_nil_r.
  - rewrite fold_left_app, IH. cbn [fold_left queue].
    rewrite consume_not_cancelled. rewrite length_map, length_take, length_map.
    rewrite map_app. cbn [map].
    destruct (decide (length es < maxDegreeOfParalellism)) as [Hlt|Hge].
    + rewrite (drop_ge (map (pair sev) es)) by (rewrite length_map; lia).
      rewrite (take_ge (map (pair sev) es)) by (rewrite length_map; lia).
      rewrite (take_ge (map (pair sev) es ++ _))
        by (rewrite length_app, length_map; simpl; lia).
      rewrite (drop_ge (map (pair sev) es ++ _))
        by (rewrite length_app, length_map; simpl; lia).
      replace (maxDegreeOfParalellism - maxDegreeOfParalellism `min` length es)
        with (S (maxDegreeOfParalellism - length es - 1)) by lia.
      cbn [app take drop]. rewrite take_nil, drop_nil.
      rewrite !map_app. cbn [map]. by rewrite <- !app_assoc.
    + replace (maxDegreeOfParalellism - maxDegreeOfParalellism `min` length es)
        with 0 by lia.
      rewrite take_0, drop_0. cbn [map]. rewrite !app_nil_r.
      rewrite take_app_le by (rewrite length_map; lia).
      rewrite drop_app_le by (rewrite length_map; lia).
      done.
Qed.

Lemma startFileLinks_closed tr :
  startFileLinks host options false (getAllLinks host doc) tr
  = (map awaitFind (take maxDegreeOfParalellism F),
     drop maxDegreeOfParalellism F,
     tr ++ map evFind (take maxDegreeOfParalellism F),
     []).
Proof.
  unfold startFileLinks, fileFactories.
  destruct (toSeverity (validateFilePaths options)) as [sev|].
  - destruct (Nat.eqb_spec (size (newFileLinkMap host (getAllLinks host doc))) 0)
      as [Hz|Hnz].
    + unfold size in Hz. apply length_zero_iff_nil in Hz. rewrite Hz.
      simpl. by rewrite app_nil_r.
    + apply fold_queue.
  - simpl. by rewrite app_nil_r.
Qed.

Lemma yield_awaitFind (l : list Factory) :
  flat_map taskYield (map awaitFind l) = flat_map factoryYield l.
Proof. induction l as [|f l IH]; simpl; [done|]. by rewrite IH. Qed.

Lemma resolutions_app tr1 tr2 :
  resolutions (tr1 ++ tr2) = resolutions tr1 ++ resolutions tr2.
Proof. unfold resolutions. apply List.filter_app. Qed.

Lemma resolutions_evFind (l : list Factory) :
  resolutions (map evFind l) = map evFind l.
Proof.
  unfold resolutions. induction l as [|f l IH]; simpl; [done|].
  by rewrite IH.
Qed.

Lemma resolutions_awaitFind (l : list Factory) :
  map evFind l ++ flat_map taskResolutions (map awaitFind l)
  ≡ₚ flat_map factoryResolutions l.
Proof.
  induction l as [|f l IH]; simpl; [done|].
  constructor. rewrite <- IH.
  rewrite (Permutation_app_comm (map evFind l)).
  rewrite <- !app_assoc. apply Permutation_app_head.
  apply Permutation_app_comm.
Qed.

Lemma resumeTask_suspend t t' ev :
  resumeTask host doc t = Suspend t' ev ->
  taskYield t' = taskYield t
  /\ resolutions [ev] ++ taskResolutions t' = taskResolutions t
  /\ weight t' < weight t.
Proof.
  destruct t as [sev e|sev e|sev d fl]; cbn [resumeTask].
  - cbn [taskYield taskResolutions]. unfold entryYield.
    destruct (tryFindMdDocumentForLink host (fl_path e)) as [hrefDoc|].
    + destruct (String.eqb _ _); [done|].
      destruct (List.filter _ _) eqn:Hf; [done|].
      intros [= <- <-]. cbn [taskYield taskResolutions weight]. auto.
    + intros [= <- <-]. simpl. auto.
  - by destruct (negb _).
  - done.
Qed.

Lemma resumeTask_complete t pushed :
  resumeTask host doc t = Complete pushed ->
  pushed = taskYield t /\ taskResolutions t = [] /\ 1 <= weight t.
Proof.
  destruct t as [sev e|sev e|sev d fl]; cbn [resumeTask].
  - cbn [taskYield taskResolutions weight]. unfold entryYield.
    destruct (tryFindMdDocumentForLink host (fl_path e)) as [hrefDoc|]; [|done].
    destruct (String.eqb _ _); [intros [= <-]; auto|].
    destruct (List.filter _ _) eqn:Hf; [|done].
    intros [= <-]. auto.
  - cbn [taskYield taskResolutions weight].
    destruct (negb _); intros [= <-]; auto.
  - cbn [taskYield taskResolutions weight]. intros [= <-]. auto.
Qed.

Lemma settle_cases c tr p :
  (settle c tr p = mkComputation c tr (Validating p)
   /\ (running p = [] -> outstanding p = [] ->
       forall ds, ownHeaders p <> OwnDone ds))
  \/ (exists own,
        running p = [] /\ outstanding p = [] /\ ownHeaders p = OwnDone own
        /\ settle c tr p
           = mkComputation c tr (Returned [diagnostics p; references p; own])).
Proof.
  unfold settle.
  destruct (running p) as [|t r]; [|left; split; [done|discriminate]].
  destruct (outstanding p) as [|f w]; [|left; split; [done|discriminate]].
  destruct (ownHeaders p) as [sev|own].
  - left. split; [done|]. intros _ _ ds. discriminate.
  - right. exists own. auto.
Qed.

Lemma settle_Bounded c tr p :
  length (running p) <= maxDegreeOfParalellism ->
  (outstanding p <> [] -> length (running p) = maxDegreeOfParalellism) ->
  Bounded (settle c tr p).
Proof.
  intros H1 H2. destruct (settle_cases c tr p) as [[-> H3]|(own & _ & _ & _ & ->)].
  - unfold Bounded. simpl. auto.
  - unfold Bounded. simpl. done.
Qed.

Lemma step_Bounded st w : Bounded st -> Bounded (hstep st w).
Proof.
  intros HB. destruct st as [c tr ph].
  destruct w as [|k| |]; destruct ph as [|p|rs]; try exact HB.
  - (* the links arrive *)
    unfold step. cbn [phase cancelled trace].
    destruct c; [done|].
    rewrite startFileLinks_closed. unfold startOwnHeaderLinks.
    destruct (toSeverity (validateOwnHeaders options));
      (apply settle_Bounded; cbn [running outstanding];
       rewrite length_map, length_take;
       [lia | intros Hne; destruct (decide (length F <= maxDegreeOfParalellism));
              [by rewrite drop_ge in Hne | lia]]).
  - (* a task is woken *)
    unfold step. cbn [phase cancelled trace].
    destruct HB as (H1 & H2 & H3).
    destruct (running p !! k) as [t|] eqn:Hk; [|done].
    destruct (resumeTask host doc t) as [t' ev|pushed] eqn:Hr.
    + unfold Bounded. cbn [phase running outstanding ownHeaders].
      rewrite length_insert. split; [done|]. split; [done|].
      intros Hnil. apply (f_equal length) in Hnil. rewrite length_insert in Hnil.
      apply lookup_lt_Some in Hk. simpl in Hnil. lia.
    + destruct (consume c (outstanding p) (delete k (running p)) tr
                        (diagnostics p ++ pushed))
        as [[[run' waiting'] tr'] ds'] eqn:Hc.
      apply consume_bounded in Hc as (Hb1 & Hb2 & _).
      * by apply settle_Bounded.
      * rewrite length_delete by eauto. lia.
      * intros _. rewrite length_delete by eauto. lia.
  - (* the table of contents arrives *)
    unfold step. cbn [phase cancelled trace].
    destruct (ownHeaders p) as [sev|own] eqn:Ho; [|exact HB].
    destruct HB as (H1 & H2 & H3). by apply settle_Bounded.
Qed.

Lemma run_Bounded ws st : Bounded st -> Bounded (hrun ws st).
Proof.
  revert st. induction ws as [|w ws IH]; intros st HB; [done|].
  simpl. apply IH. by apply step_Bounded.
Qed.

Lemma start_Bounded token : Bounded (start doc token).
Proof. done. Qed.


Lemma settle_Accounted tr p :
  diagnostics p ++ flat_map taskYield (running p)
    ++ flat_map factoryYield (outstanding p)
    ≡ₚ flat_map factoryYield F ->
  resolutions tr ++ flat_map taskResolutions (running p)
    ++ flat_map factoryResolutions (outstanding p)
    ≡ₚ flat_map factoryResolutions F ->
  references p = validateReferenceLinks host options (getAllLinks host doc) ->
  ownHeaderOk host doc options (ownHeaders p) ->
  (exists n, outstanding p = drop n F) ->
  Accounted (settle false tr p).
Proof.
  intros Hd Hr Href Ho Hs.
  destruct (settle_cases false tr p)
    as [[-> _]|(own & Hrun & Hout & Hown & ->)].
  - split; [done|]. simpl. auto.
  - split; [done|]. cbn [phase trace].
    rewrite Hrun, Hout in Hd, Hr. simpl in Hd, Hr. rewrite app_nil_r in Hd, Hr.
    rewrite Hown in Ho. simpl in Ho. subst own.
    exists (diagnostics p). rewrite Href. auto.
Qed.

Lemma step_Accounted st w :
  isCancel w = false -> Accounted st -> Accounted (hstep st w).
Proof.
  intros Hw HA. destruct st as [c tr ph].
  destruct HA as [Hc HA]. cbn [cancelled] in Hc. subst c.
  cbn [phase trace] in HA.
  destruct w as [|k| |]; [| | |done];
    destruct ph as [|p|rs]; try (split; [done|exact HA]).
  - (* the links arrive *)
    unfold step. cbn [phase cancelled trace].
    rewrite startFileLinks_closed.
    assert (Hy : [] ++ flat_map taskYield
                     (map awaitFind (take maxDegreeOfParalellism F))
                   ++ flat_map factoryYield (drop maxDegreeOfParalellism F)
                 ≡ₚ flat_map factoryYield F).
    { simpl. rewrite yield_awaitFind, <- flat_map_app, take_drop. done. }
    assert (Hr : forall extra, resolutions extra = [] ->
                 resolutions ((tr ++ map evFind (take maxDegreeOfParalellism F))
                              ++ extra)
                   ++ flat_map taskResolutions
                        (map awaitFind (take maxDegreeOfParalellism F))
                   ++ flat_map factoryResolutions (drop maxDegreeOfParalellism F)
                 ≡ₚ flat_map factoryResolutions F).
    { intros extra He. rewrite !resolutions_app, HA, He, resolutions_evFind.
      simpl. rewrite app_nil_r, app_assoc, resolutions_awaitFind.
      rewrite <- flat_map_app, take_drop. done. }
    unfold startOwnHeaderLinks.
    destruct (toSeverity (validateOwnHeaders options)) as [sev|] eqn:Hsev.
    + apply settle_Accounted; cbn [diagnostics running outstanding references ownHeaders].
      * exact Hy.
      * by apply Hr.
      * done.
      * exact Hsev.
      * by exists maxDegreeOfParalellism.
    + apply settle_Accounted; cbn [diagnostics running outstanding references ownHeaders].
      * exact Hy.
      * specialize (Hr [] eq_refl). by rewrite app_nil_r in Hr.
      * done.
      * unfold ownHeaderOk, ownHeaderFinal. by rewrite Hsev.
      * by exists maxDegreeOfParalellism.
  - (* a task is woken *)
    unfold step. cbn [phase cancelled trace].
    destruct HA as (Hd & Hr & Href & Ho & n & Hs).
    destruct (running p !! k) as [t|] eqn:Hk; [|split; [done|]; simpl; eauto 10].
    rewrite (flat_map_lookup_perm taskYield _ _ _ Hk) in Hd.
    rewrite (flat_map_lookup_perm taskResolutions _ _ _ Hk) in Hr.
    destruct (resumeTask host doc t) as [t' ev|pushed] eqn:Hres.
    + apply resumeTask_suspend in Hres as (Hy & Hrs & _).
      split; [done|]. cbn [phase trace running outstanding diagnostics references ownHeaders].
      rewrite (flat_map_insert_perm taskYield _ _ _ t' Hk), Hy.
      rewrite (flat_map_insert_perm taskResolutions _ _ _ t' Hk).
      rewrite resolutions_app. rewrite <- Hrs in Hr.
      split; [exact Hd|]. split; [|eauto].
      rewrite <- Hr. rewrite <- !app_assoc. done.
    + apply resumeTask_complete in Hres as (-> & Hrs & _).
      rewrite consume_not_cancelled.
      set (j := maxDegreeOfParalellism - length (delete k (running p))).
      rewrite Hrs in Hr. simpl in Hr.
      apply settle_Accounted; cbn [diagnostics running outstanding references ownHeaders].
      * rewrite flat_map_app, yield_awaitFind.
        rewrite <- Hd. rewrite <- (take_drop j (outstanding p)) at 3.
        rewrite flat_map_app. rewrite <- !app_assoc. done.
      * rewrite resolutions_app, resolutions_evFind, flat_map_app.
        rewrite <- Hr.
        assert (Hsplit : flat_map factoryResolutions (outstanding p)
                         ≡ₚ (map evFind (take j (outstanding p))
                             ++ flat_map taskResolutions
                                  (map awaitFind (take j (outstanding p))))
                            ++ flat_map factoryResolutions (drop j (outstanding p))).
        { by rewrite resolutions_awaitFind, <- flat_map_app, take_drop. }
        rewrite Hsplit, <- !app_assoc. apply Permutation_app_head.
        apply Permutation_app_swap_app.
      * done.
      * done.
      * exists (n + j). by rewrite Hs, drop_drop.
  - (* the table of contents arrives *)
    unfold step. cbn [phase cancelled trace].
    destruct HA as (Hd & Hr & Href & Ho & Hs).
    destruct (ownHeaders p) as [sev|own] eqn:Hown.
    + apply settle_Accounted; cbn [diagnostics running outstanding references ownHeaders];
        try done.
      unfold ownHeaderOk, ownHeaderFinal. simpl in Ho. by rewrite Ho.
    + split; [done|]. cbn [phase trace]. rewrite Hown. auto.
Qed.

Lemma run_Accounted ws st :
  neverCancelled ws -> Accounted st -> Accounted (hrun ws st).
Proof.
  revert st. induction ws as [|w ws IH]; intros st Hn HA; [done|].
  inversion Hn; subst. simpl. apply IH; [done|]. by apply step_Accounted.
Qed.

Lemma start_Accounted : Accounted (start doc false).
Proof. split; done. Qed.


(** *** Every computation can finish *)

Lemma weight_positive (l : list Task) :
  list_sum (map weight l) = 0 -> l = [].
Proof. destruct l as [|t l]; [done|]. destruct t; simpl; lia. Qed.

Lemma step_task_progress st p :
  Bounded st -> phase st = Validating p ->
  (exists ds, ownHeaders p = OwnDone ds) ->
  forall p', phase (hstep st (TaskReady 0)) = Validating p' ->
    ownHeaders p' = ownHeaders p
    /\ remaining (running p') (outstanding p')
       < remaining (running p) (outstanding p).
Proof.
  intros HB Hph [own Hown] p'. destruct st as [c tr ph]. simpl in Hph. subst ph.
  destruct HB as (H1 & H2 & H3).
  unfold step. cbn [phase cancelled trace].
  destruct (running p) as [|t rest] eqn:Hrun.
  { exfalso. destruct (outstanding p) as [|f w] eqn:Hout.
    - by eapply H3.
    - unfold maxDegreeOfParalellism in H2. simpl in H2.
      specialize (H2 ltac:(done)). done. }
  cbn [lookup list_lookup].
  destruct (resumeTask host doc t) as [t' ev|pushed] eqn:Hres.
  - cbn [phase]. intros [= <-]. cbn [ownHeaders running outstanding].
    apply resumeTask_suspend in Hres as (_ & _ & Hwt).
    split; [done|]. unfold remaining. simpl. lia.
  - apply resumeTask_complete in Hres as (_ & _ & Hwt).
    destruct (consume c (outstanding p) (delete 0 (t :: rest)) tr
                      (diagnostics p ++ pushed))
      as [[[run' waiting'] tr'] ds'] eqn:Hc.
    apply consume_bounded in Hc as (_ & _ & Hrem);
      [|simpl in *; lia|simpl in *; lia].
    match goal with
    | |- context [settle ?c ?tr ?q] =>
        destruct (settle_cases c tr q) as [[-> _]|(o & _ & _ & _ & ->)]
    end.
    + cbn [phase]. intros [= <-]. cbn [ownHeaders running outstanding].
      split; [done|]. unfold remaining in *. simpl in *. lia.
    + done.
Qed.

Lemma step_keeps_started st w :
  phase st <> AwaitLinks -> phase (hstep st w) <> AwaitLinks.
Proof.
  intros Hne. destruct st as [c tr ph]. simpl in Hne.
  destruct w as [|k| |]; destruct ph as [|p|rs]; try done.
  - unfold step. cbn [phase cancelled trace].
    destruct (running p !! k) as [t|]; [|done].
    destruct (resumeTask host doc t); [done|].
    destruct (consume _ _ _ _ _) as [[[run' waiting'] tr'] ds'].
    match goal with
    | |- context [settle ?c ?tr ?q] =>
        by destruct (settle_cases c tr q) as [[-> _]|(o & _ & _ & _ & ->)]
    end.
  - unfold step. cbn [phase cancelled trace].
    destruct (ownHeaders p); [|done].
    match goal with
    | |- context [settle ?c ?tr ?q] =>
        by destruct (settle_cases c tr q) as [[-> _]|(o & _ & _ & _ & ->)]
    end.
Qed.

Lemma step_links_started st : phase (hstep st LinksReady) <> AwaitLinks.
Proof.
  destruct st as [c tr ph]. destruct ph as [|p|rs]; try done.
  unfold step. cbn [phase cancelled trace].
  destruct c; [done|].
  destruct (startFileLinks _ _ _ _ _) as [[[run' waiting'] tr'] ds'].
  destruct (startOwnHeaderLinks _ _) as [own tr''].
  match goal with
  | |- context [settle ?c ?tr ?q] =>
      by destruct (settle_cases c tr q) as [[-> _]|(o & _ & _ & _ & ->)]
  end.
Qed.

Lemma step_toc_done st p :
  phase (hstep st TocReady) = Validating p ->
  phase st <> AwaitLinks ->
  exists ds, ownHeaders p = OwnDone ds.
Proof.
  destruct st as [c tr ph]. destruct ph as [|q|rs]; try done.
  unfold step. cbn [phase cancelled trace].
  destruct (ownHeaders q) as [sev|own] eqn:Hown.
  - match goal with
    | |- context [settle ?c ?tr ?q] =>
        destruct (settle_cases c tr q) as [[-> _]|(o & _ & _ & _ & ->)]
    end; [|done].
    cbn [phase]. intros [= <-] _. simpl. eauto.
  - cbn [phase]. intros [= <-] _. eauto.
Qed.

Lemma drain_tasks n st :
  Bounded st -> phase st <> AwaitLinks ->
  (forall p, phase st = Validating p ->
     (exists ds, ownHeaders p = OwnDone ds)
     /\ remaining (running p) (outstanding p) <= n) ->
  exists rs, phase (hrun (repeat (TaskReady 0) n) st) = Returned rs.
Proof.
  revert st. induction n as [|n IH]; intros st HB Hne Hdue.
  - simpl. destruct (phase st) as [|p|rs] eqn:Hph; [done| |eauto].
    exfalso. destruct (Hdue p eq_refl) as [[own Hown] Hrem].
    unfold Bounded in HB. rewrite Hph in HB. destruct HB as (_ & _ & H3).
    unfold remaining in Hrem.
    assert (running p = []) by (apply weight_positive; lia).
    assert (outstanding p = []) by (apply length_zero_iff_nil; lia).
    by eapply H3.
  - cbn [repeat]. change (hrun (?w :: ?ws) st) with (hrun ws (hstep st w)).
    apply IH.
    + by apply step_Bounded.
    + by apply step_keeps_started.
    + intros p' Hp'. destruct (phase st) as [|p|rs] eqn:Hph; [done| |].
      * destruct (Hdue p eq_refl) as [Hown Hrem].
        destruct (step_task_progress st p HB Hph Hown p' Hp') as [Ho Hlt].
        rewrite Ho. split; [done|lia].
      * exfalso. destruct st as [c tr ph]. simpl in Hph. subst ph.
        simpl in Hp'. done.
Qed.

Lemma neverCancelled_drain n : neverCancelled (drain n).
Proof.
  unfold neverCancelled, drain. repeat constructor.
  induction n; simpl; constructor; done.
Qed.

(** From every reachable state, letting the pending promises settle
    makes the computation return. *)
Lemma run_completes st :
  Bounded st ->
  exists n, forall m, n <= m ->
    exists rs, phase (hrun (drain m) st) = Returned rs.
Proof.
  intros HB.
  set (st2 := hstep (hstep st LinksReady) TocReady).
  exists (match phase st2 with
          | Validating p => remaining (running p) (outstanding p)
          | _ => 0
          end).
  intros m Hm. unfold drain.
  change (hrun (LinksReady :: TocReady :: ?ws) st) with (hrun ws st2).
  apply drain_tasks.
  - unfold st2. by do 2 apply step_Bounded.
  - unfold st2. apply step_keeps_started, step_links_started.
  - intros p Hp. rewrite Hp in Hm. split; [|done].
    eapply step_toc_done; [exact Hp|]. apply step_links_started.
Qed.

(** The shape of every result computed without cancellation. *)
Lemma returned_results ws rs :
  neverCancelled ws ->
  phase (hrun ws (start doc false)) = Returned rs ->
  exists f,
    rs = [f; validateReferenceLinks host options (getAllLinks host doc);
          ownHeaderFinal host doc options]
    /\ f ≡ₚ flat_map factoryYield F
    /\ resolutions (trace (hrun ws (start doc false)))
       ≡ₚ flat_map factoryResolutions F.
Proof.
  intros Hn Hph.
  destruct (run_Accounted ws _ Hn start_Accounted) as [_ HA].
  by rewrite Hph in HA.
Qed.

End SchedulingLemmas.

(** ** [FileLinkMap]: grouping by rendered target *)

Section FileLinkMapLemmas.
Variable host : Host.

Lemma pushExisting_None k d m :
  pushExisting k d m = None -> ~ In k (map fst m).
Proof.
  induction m as [|[k' e] m IH]; simpl; [auto|].
  destruct (String.eqb_spec k' k) as [->|Hne]; [done|].
  destruct (pushExisting k d m); [done|].
  intros _ [?|?]; [done|]. by apply IH.
Qed.

Lemma pushExisting_Some k d m m' :
  pushExisting k d m = Some m' ->
  exists m1 e m2,
    m = m1 ++ (k, e) :: m2
    /\ m' = m1 ++ (k, mkFileLinksData (fl_path e) (fl_links e ++ [d])) :: m2.
Proof.
  revert m'. induction m as [|[k' e] m IH]; intros m'; simpl; [done|].
  destruct (String.eqb_spec k' k) as [->|Hne].
  - intros [= <-]. by exists [], e, m.
  - destruct (pushExisting k d m) as [r|]; [|done].
    intros [= <-]. destruct (IH r eq_refl) as (m1 & e0 & m2 & -> & ->).
    by exists ((k', e) :: m1), e0, m2.
Qed.

Lemma linksTo_snoc k links link :
  linksTo host k (links ++ [link])
  = linksTo host k links
    ++ match href link with
       | InternalHref p frag =>
           if bool_decide (toString host p = k)
           then [mkLinkData (source link) frag] else []
       | _ => []
       end.
Proof.
  unfold linksTo. rewrite flat_map_app. simpl. by rewrite app_nil_r.
Qed.

Lemma addLink_Grouped m links link :
  Grouped host m links -> Grouped host (addLink host m link) (links ++ [link]).
Proof.
  intros (Hnd & Hin & Hall). unfold addLink.
  destruct (href link) as [t|p frag|r] eqn:Hh.
  - split; [done|]. split; intros k; [intros e|]; rewrite linksTo_snoc, Hh, app_nil_r; auto.
  - set (kl := toString host p). set (d := mkLinkData (source link) frag).
    assert (Hsn : forall k, k <> kl ->
              linksTo host k (links ++ [link]) = linksTo host k links).
    { intros k Hne. rewrite linksTo_snoc, Hh.
      rewrite bool_decide_false by (fold kl; congruence). by rewrite app_nil_r. }
    assert (Hkl : linksTo host kl (links ++ [link]) = linksTo host kl links ++ [d]).
    { rewrite linksTo_snoc, Hh. by rewrite bool_decide_true. }
    destruct (pushExisting kl d m) as [m'|] eqn:Hp.
    + apply pushExisting_Some in Hp as (m1 & e & m2 & -> & ->).
      assert (Hkeys : map fst (m1 ++ (kl, mkFileLinksData (fl_path e)
                                         (fl_links e ++ [d])) :: m2)
                      = map fst (m1 ++ (kl, e) :: m2)).
      { by rewrite !map_app. }
      split; [by rewrite Hkeys|]. split.
      * intros k x Hx. apply in_app_or in Hx as [Hx|[Hx|Hx]].
        -- assert (k <> kl).
           { intros ->. rewrite map_app in Hnd. simpl in Hnd.
             apply NoDup_app in Hnd as (_ & Hd & _).
             apply (Hd kl); [|left].
             apply list_elem_of_In. by apply (in_map fst) in Hx. }
           rewrite Hsn by done. apply Hin. apply in_or_app. by left.
        -- inversion Hx; subst k x. cbn [fl_links fl_path].
           destruct (Hin kl e) as [-> ?]; [apply in_or_app; right; by left|].
           by rewrite Hkl.
        -- assert (k <> kl).
           { intros ->. rewrite map_app in Hnd. simpl in Hnd.
             apply NoDup_app in Hnd as (_ & _ & Hd).
             apply NoDup_cons in Hd as [Hd _]. apply Hd.
             apply list_elem_of_In. by apply (in_map fst) in Hx. }
           rewrite Hsn by done. apply Hin. apply in_or_app. right. by right.
      * intros k Hk. rewrite Hkeys.
        destruct (decide (k = kl)) as [->|Hne].
        -- rewrite map_app. apply in_or_app. right. by left.
        -- apply Hall. by rewrite <- Hsn.
    + apply pushExisting_None in Hp.
      assert (Hempty : linksTo host kl links = []).
      { destruct (linksTo host kl links) eqn:Hl; [done|].
        exfalso. apply Hp, Hall. by rewrite Hl. }
      split; [|split].
      * rewrite map_app. simpl. apply NoDup_app. split; [done|]. split.
        -- intros x Hx Hx'. apply list_elem_of_singleton in Hx'. subst x.
           by apply list_elem_of_In in Hx.
        -- apply NoDup_singleton.
      * intros k x Hx. apply in_app_or in Hx as [Hx|[Hx|[]]].
        -- assert (k <> kl).
           { intros ->. apply Hp. by apply (in_map fst) in Hx. }
           rewrite Hsn by done. by apply Hin.
        -- inversion Hx; subst k x. cbn [fl_links fl_path].
           by rewrite Hkl, Hempty.
      * intros k Hk. rewrite map_app. apply in_or_app.
        destruct (decide (k = kl)) as [->|Hne]; [right; by left|].
        left. apply Hall. by rewrite <- Hsn.
  - split; [done|]. split; intros k; [intros e|]; rewrite linksTo_snoc, Hh, app_nil_r; auto.
Qed.

Lemma newFileLinkMap_Grouped links :
  Grouped host (newFileLinkMap host links) links.
Proof.
  unfold newFileLinkMap. induction links as [|link links IH] using rev_ind.
  - split; [constructor|]. split; [intros ? ? []|]. intros k Hk. by simpl in Hk.
  - rewrite fold_left_app. simpl. by apply addLink_Grouped.
Qed.
End FileLinkMapLemmas.

(** ** Passes set to [ignore] *)

Section QuietLemmas.
Variable host : Host.
Variable doc : TextDocument.
Variable options : DiagnosticOptions.

Lemma settle_Quiet c tr p :
  (validateFilePaths options = ignore ->
     running p = [] /\ outstanding p = [] /\ diagnostics p = []
     /\ resolutions tr = []) ->
  (validateReferences options = ignore -> references p = []) ->
  (validateOwnHeaders options = ignore -> ownHeaders p = OwnDone []) ->
  Quiet options (settle c tr p).
Proof.
  intros Hf Hr Ho.
  destruct (settle_cases c tr p) as [[-> _]|(own & _ & _ & Hown & ->)].
  - unfold Quiet. simpl. auto.
  - unfold Quiet. cbn [phase trace nth]. split; [|split]; [|done|].
    + intros Hi. destruct (Hf Hi) as (_ & _ & ? & ?). auto.
    + intros Hi. specialize (Ho Hi). congruence.
Qed.

Lemma step_Quiet st w :
  Quiet options st -> Quiet options (step host doc options st w).
Proof.
  intros HQ. destruct st as [c tr ph].
  destruct w as [|k| |]; destruct ph as [|p|rs]; try exact HQ.
  - unfold step. cbn [phase cancelled trace].
    destruct c; [unfold Quiet; simpl; unfold Quiet in HQ; simpl in HQ; auto|].
    unfold Quiet in HQ. cbn [phase trace] in HQ.
    unfold startFileLinks, startOwnHeaderLinks, validateReferenceLinks.
    destruct (validateFilePaths options) eqn:Hf;
      destruct (validateReferences options) eqn:Hr;
      destruct (validateOwnHeaders options) eqn:Ho;
      cbn [toSeverity];
      repeat match goal with
             | |- context [if ?b then _ else _] => destruct b
             | |- context [let '(_, _) := ?x in _] =>
                 destruct x as [[[? ?] ?] ?]
             end;
      apply settle_Quiet; cbn [running outstanding diagnostics references ownHeaders];
      try done; intros Hi; try congruence;
      rewrite ?resolutions_app, ?HQ; done.
  - unfold step. cbn [phase cancelled trace].
    unfold Quiet in HQ. cbn [phase trace] in HQ. destruct HQ as (Hf & Hr & Ho).
    destruct (running p !! k) as [t|] eqn:Hk; [|unfold Quiet; simpl; auto].
    assert (Hnot : validateFilePaths options <> ignore).
    { intros Hi. destruct (Hf Hi) as (Hrun & _). by rewrite Hrun in Hk. }
    destruct (resumeTask host doc t) as [t' ev|pushed].
    + unfold Quiet. cbn [phase trace running outstanding diagnostics references ownHeaders].
      split; [done|]. auto.
    + destruct (consume _ _ _ _ _) as [[[run' waiting'] tr'] ds'].
      apply settle_Quiet; cbn [running outstanding diagnostics references ownHeaders];
        done.
  - unfold step. cbn [phase cancelled trace].
    unfold Quiet in HQ. cbn [phase trace] in HQ. destruct HQ as (Hf & Hr & Ho).
    destruct (ownHeaders p) as [sev|own] eqn:Hown.
    + apply settle_Quiet; cbn [running outstanding diagnostics references ownHeaders];
        try done. intros Hi. by specialize (Ho Hi).
    + unfold Quiet. cbn [phase trace]. rewrite Hown. auto.
Qed.

Lemma run_Quiet ws st :
  Quiet options st -> Quiet options (run host doc options ws st).
Proof.
  revert st. induction ws as [|w ws IH]; intros st HQ; [done|].
  simpl. apply IH. by apply step_Quiet.
Qed.
End QuietLemmas.

(** ** Results against the expected lists *)

Section ResultLemmas.
Variable host : Host.
Variable doc : TextDocument.
Variable options : DiagnosticOptions.

Lemma filter_filter_and {A} (f g : A -> bool) (l : list A) :
  List.filter f (List.filter g l) = List.filter (fun x => g x && f x) l.
Proof.
  induction l as [|x l IH]; simpl; [done|].
  destruct (g x); simpl; [|done]. destruct (f x); by rewrite IH.
Qed.

Lemma entryYield_expected sev e :
  entryYield host doc sev e = targetExpected host doc sev e.
Proof.
  unfold entryYield, targetExpected.
  destruct (tryFindMdDocumentForLink host (fl_path e)) as [target|].
  - rewrite eqb_bool_decide. case_bool_decide; [done|].
    rewrite headerLoop_expected, filter_filter_and. f_equal.
    apply List.filter_ext. intros l. by rewrite truthy_nonempty.
  - destruct (pathExists host (fl_path e)); simpl; [done|].
    apply missingFileLoop_expected.
Qed.

Lemma fileFactories_expected :
  flat_map (factoryYield host doc) (fileFactories host doc options)
  = filePathDiagnostics host doc options (getAllLinks host doc).
Proof.
  unfold fileFactories, filePathDiagnostics, entries.
  destruct (toSeverity (validateFilePaths options)) as [sev|]; [|done].
  induction (map snd (newFileLinkMap host (getAllLinks host doc))) as [|e es IH];
    simpl; [done|].
  rewrite IH. unfold factoryYield at 1. simpl. by rewrite entryYield_expected.
Qed.

Lemma validateReferenceLinks_expected links :
  validateReferenceLinks host options links
  = referenceDiagnostics host options links.
Proof.
  unfold validateReferenceLinks, referenceDiagnostics.
  destruct (toSeverity (validateReferences options)) as [sev|]; [|done].
  apply referenceLoop_expected.
Qed.

Lemma ownHeaderFinal_expected :
  ownHeaderFinal host doc options
  = ownHeaderDiagnostics host doc options (getAllLinks host doc).
Proof.
  unfold ownHeaderFinal, ownHeaderDiagnostics.
  destruct (toSeverity (validateOwnHeaders options)) as [sev|]; [|done].
  apply ownHeaderLoop_expected.
Qed.

(** Every result computed without cancellation is the three expected
    parts in pass order, the first up to the order of its elements. *)
Lemma returned_expected sched rs :
  neverCancelled sched ->
  phase (run host doc options sched (start doc false)) = Returned rs ->
  exists f,
    rs = [f; referenceDiagnostics host options (getAllLinks host doc);
          ownHeaderDiagnostics host doc options (getAllLinks host doc)]
    /\ f ≡ₚ filePathDiagnostics host doc options (getAllLinks host doc).
Proof.
  intros Hn Hph.
  destruct (returned_results host doc options sched rs Hn Hph) as (f & -> & Hf & _).
  exists f. rewrite validateReferenceLinks_expected, ownHeaderFinal_expected.
  by rewrite <- fileFactories_expected.
Qed.

(** A computation that is left alone returns. *)
Lemma getDiagnostics_returns token :
  exists n, forall m, n <= m ->
    is_Some (getDiagnostics host doc options token (drain m)).
Proof.
  destruct (run_completes host doc options (start doc token) (start_Bounded doc token))
    as [n Hn].
  exists n. intros m Hm. destruct (Hn m Hm) as [rs Hrs].
  unfold getDiagnostics, result. rewrite Hrs. eauto.
Qed.
End ResultLemmas.

(** * Main results *)

(** ** C1: the [enabled] flag *)

(** C1, as stated, at a concrete input: the computer is called with
    [enabled = false] and the reference level [error] on a document
    whose only link is [[text][undefined-ref]]; it returns one
    diagnostic, not the empty list. *)
Lemma computer_ignores_enabled_flag :
  enabled Sample.disabledButStrict = false
  /\ getDiagnostics Sample.hostRef Sample.readme Sample.disabledButStrict false
       [LinksReady; TocReady]
     = Some [mkDiagnostic (hrefRange (source Sample.linkUndefinedRef))
               "No link reference found: 'undefined-ref'" Error].
Proof. split; reflexivity. Qed.

(** C1 (amended): when the options configured for [doc.uri] have
    [enabled = false], [DiagnosticManager.getDiagnostics] returns the
    empty list at once, whatever the token says and whatever the
    document links to, without calling the computer or any host service.
    [DiagnosticComputer.getDiagnostics] does not read [options.enabled]:
    its result is the same for both values of the flag. *)
Theorem disabled_manager_returns_empty (host : Host) (ws : Workspace)
    (doc : TextDocument) (token : bool) :
  enabled (getOptions ws (uri doc)) = false ->
  result (snd (Manager_getDiagnostics ws doc token)) = Some []
  /\ trace (snd (Manager_getDiagnostics ws doc token)) = []
  /\ (forall e1 e2 r o f sched,
        getDiagnostics host doc (mkOptions e1 r o f) token sched
        = getDiagnostics host doc (mkOptions e2 r o f) token sched).
Proof.
  intros Hoff. unfold Manager_getDiagnostics. rewrite Hoff. cbn.
  split; [done|]. split; [done|]. intros e1 e2 r o f sched.
  reflexivity.
Qed.

Lemma disabled_manager_returns_empty_witness :
  enabled (getOptions (Sample.workspace Sample.disabledButStrict)
                      (uri Sample.readme)) = false
  /\ result (snd (Manager_getDiagnostics
                    (Sample.workspace Sample.disabledButStrict)
                    Sample.readme false)) = Some [].
Proof.
  split; [reflexivity|].
  apply (disabled_manager_returns_empty Sample.hostRef
           (Sample.workspace Sample.disabledButStrict) Sample.readme false).
  reflexivity.
Defined.

(** ** C2: levels set to [ignore] *)

(** C2: in every state of every computation, whatever the schedule and
    the token, a pass whose level is [ignore] has contributed no
    diagnostic; when the file-path level is [ignore] no path or document
    existence call has been made. *)
Theorem ignored_passes_contribute_nothing (host : Host) (doc : TextDocument)
    (options : DiagnosticOptions) (token : bool) (sched : list Wake) :
  (validateOwnHeaders options = ignore ->
     passResult 2 (run host doc options sched (start doc token)) = [])
  /\ (validateReferences options = ignore ->
        passResult 1 (run host doc options sched (start doc token)) = [])
  /\ (validateFilePaths options = ignore ->
        passResult 0 (run host doc options sched (start doc token)) = []
        /\ resolutions (trace (run host doc options sched (start doc token))) = []).
Proof.
  assert (HQ : Quiet options (run host doc options sched (start doc token))).
  { apply run_Quiet. done. }
  unfold Quiet in HQ. unfold passResult.
  destruct (phase (run host doc options sched (start doc token))) as [|p|rs].
  - auto.
  - destruct HQ as (Hf & Hr & Ho). split; [|split].
    + intros Hi. cbn [nth]. by rewrite (Ho Hi).
    + intros Hi. cbn [nth]. auto.
    + intros Hi. destruct (Hf Hi) as (_ & _ & ? & ?). auto.
  - destruct HQ as (Hf & Hr & Ho). auto.
Qed.

Lemma ignored_passes_contribute_nothing_witness :
  validateOwnHeaders Sample.allIgnored = ignore
  /\ validateReferences Sample.allIgnored = ignore
  /\ validateFilePaths Sample.allIgnored = ignore
  /\ passResult 2 (run Sample.hostAll Sample.readme Sample.allIgnored
                       [LinksReady] (start Sample.readme false)) = []
  /\ passResult 1 (run Sample.hostAll Sample.readme Sample.allIgnored
                       [LinksReady] (start Sample.readme false)) = []
  /\ passResult 0 (run Sample.hostAll Sample.readme Sample.allIgnored
                       [LinksReady] (start Sample.readme false)) = []
  /\ resolutions (trace (run Sample.hostAll Sample.readme Sample.allIgnored
                             [LinksReady] (start Sample.readme false))) = [].
Proof.
  pose proof (ignored_passes_contribute_nothing Sample.hostAll Sample.readme
                Sample.allIgnored false [LinksReady]) as (Ho & Hr & Hf).
  split; [reflexivity|]. split; [reflexivity|]. split; [reflexivity|].
  split; [apply Ho; reflexivity|]. split; [apply Hr; reflexivity|].
  apply Hf; reflexivity.
Defined.

(** ** C5: own-header validation *)

(** C5: with a severity configured for own-header links, a computation
    that is not cancelled returns, and the own-header part of its result
    holds, in link order, exactly one diagnostic with that severity at
    the href range of every internal link to the document's own path
    whose non-empty fragment the document's table of contents lacks, and
    nothing else. *)
Theorem own_header_validation (host : Host) (doc : TextDocument)
    (options : DiagnosticOptions) (sev : DiagnosticSeverity) :
  toSeverity (validateOwnHeaders options) = Some sev ->
  (exists n, forall m, n <= m ->
     is_Some (getDiagnostics host doc options false (drain m)))
  /\ (forall sched rs,
        neverCancelled sched ->
        phase (run host doc options sched (start doc false)) = Returned rs ->
        nth 2 rs [] = ownHeaderExpected host doc sev (getAllLinks host doc)).
Proof.
  intros Hsev. split; [apply getDiagnostics_returns|].
  intros sched rs Hn Hph.
  destruct (returned_expected host doc options sched rs Hn Hph) as (f & -> & _).
  cbn [nth]. unfold ownHeaderDiagnostics. by rewrite Hsev.
Qed.

Lemma own_header_validation_witness :
  toSeverity (validateOwnHeaders (Sample.allOn error)) = Some Error
  /\ nth 2 [[]; [];
            [mkDiagnostic (hrefRange (source Sample.linkMissingHeader))
               "No header found: 'missing'" Error]] []
     = ownHeaderExpected Sample.hostHeader Sample.readme Error
         (getAllLinks Sample.hostHeader Sample.readme).
Proof.
  split; [reflexivity|].
  apply (proj2 (own_header_validation Sample.hostHeader Sample.readme
                  (Sample.allOn error) Error eq_refl) (drain 1)).
  - repeat constructor.
  - reflexivity.
Defined.

(** [[text](#missing)] with no such header and every level at [error]:
    exactly one error, at the link's href range. *)
Example own_header_missing :
  getDiagnostics Sample.hostHeader Sample.readme (Sample.allOn error) false
    (drain 1)
  = Some [mkDiagnostic (hrefRange (source Sample.linkMissingHeader))
            "No header found: 'missing'" Error].
Proof. reflexivity. Qed.

(** The same document once its table of contents has the slug. *)
Example own_header_present :
  getDiagnostics Sample.hostHeaderPresent Sample.readme (Sample.allOn error)
    false (drain 1)
  = Some [].
Proof. reflexivity. Qed.

(** ** C7: reference validation *)

(** C7: with a severity configured for reference links, a computation
    that is not cancelled returns, and the reference part of its result
    holds, in link order, exactly one diagnostic with that severity at
    the href range of every reference link whose name has no definition
    in the definition set built from the same links, and nothing else. *)
Theorem reference_validation (host : Host) (doc : TextDocument)
    (options : DiagnosticOptions) (sev : DiagnosticSeverity) :
  toSeverity (validateReferences options) = Some sev ->
  (exists n, forall m, n <= m ->
     is_Some (getDiagnostics host doc options false (drain m)))
  /\ (forall sched rs,
        neverCancelled sched ->
        phase (run host doc options sched (start doc false)) = Returned rs ->
        nth 1 rs [] = referenceExpected host sev (getAllLinks host doc))
  /\ (forall links,
        validateReferenceLinks host options links
        = referenceExpected host sev links).
Proof.
  intros Hsev. split; [apply getDiagnostics_returns|]. split.
  - intros sched rs Hn Hph.
    destruct (returned_expected host doc options sched rs Hn Hph) as (f & -> & _).
    cbn [nth]. unfold referenceDiagnostics. by rewrite Hsev.
  - intros links. rewrite validateReferenceLinks_expected.
    unfold referenceDiagnostics. by rewrite Hsev.
Qed.

Lemma reference_validation_witness :
  toSeverity (validateReferences (Sample.allOn warning)) = Some Warning
  /\ validateReferenceLinks Sample.hostRef (Sample.allOn warning)
       [Sample.linkUndefinedRef]
     = referenceExpected Sample.hostRef Warning [Sample.linkUndefinedRef].
Proof.
  split; [reflexivity|].
  apply (proj2 (proj2 (reference_validation Sample.hostRef Sample.readme
                         (Sample.allOn warning) Warning eq_refl))).
Defined.

(** [[text][undefined-ref]] without a definition, level [warning]:
    exactly one warning. *)
Example reference_undefined :
  getDiagnostics Sample.hostRef Sample.readme (Sample.allOn warning) false
    (drain 0)
  = Some [mkDiagnostic (hrefRange (source Sample.linkUndefinedRef))
            "No link reference found: 'undefined-ref'" Warning].
Proof. reflexivity. Qed.

(** The same document with [[undefined-ref]: url] added. *)
Example reference_defined :
  getDiagnostics Sample.hostRefDefined Sample.readme (Sample.allOn warning)
    false (drain 0)
  = Some [].
Proof. reflexivity. Qed.

(** ** C6: file-path validation *)

Lemma entries_distinct_paths (host : Host) (links : list MdLink) :
  NoDup (map fl_path (entries (newFileLinkMap host links))).
Proof.
  destruct (newFileLinkMap_Grouped host links) as (Hnd & Hin & _).
  apply NoDup_ListNoDup, (NoDup_map_inv (toString host)). unfold entries.
  rewrite !map_map.
  rewrite (map_ext_in _ fst); [by apply NoDup_ListNoDup|].
  intros [k e] Hke. simpl. by destruct (Hin k e Hke).
Qed.

(** C6: with a severity configured for file links, the internal links
    are grouped under distinct rendered target paths, every group
    holding exactly the links to its target in source order; a
    computation that is not cancelled returns, and the file-path part of
    its result consists, up to the order in which targets complete, of:
    nothing for a target that resolves to the validated document itself;
    one "file does not exist" diagnostic per referencing link for a
    target that is neither a known markdown document nor an existing
    path; and, for a target that is another markdown document, one
    "header does not exist" diagnostic per referencing link whose
    non-empty fragment that document's table of contents lacks. *)
Theorem file_path_validation (host : Host) (doc : TextDocument)
    (options : DiagnosticOptions) (sev : DiagnosticSeverity) :
  toSeverity (validateFilePaths options) = Some sev ->
  (NoDup (map fst (newFileLinkMap host (getAllLinks host doc)))
   /\ (forall k e,
         In (k, e) (newFileLinkMap host (getAllLinks host doc)) ->
         toString host (fl_path e) = k
         /\ fl_links e = linksTo host k (getAllLinks host doc))
   /\ (forall link p frag,
         In link (getAllLinks host doc) ->
         href link = InternalHref p frag ->
         exists e, In (toString host p, e)
                      (newFileLinkMap host (getAllLinks host doc))))
  /\ (exists n, forall m, n <= m ->
        is_Some (getDiagnostics host doc options false (drain m)))
  /\ (forall sched rs,
        neverCancelled sched ->
        phase (run host doc options sched (start doc false)) = Returned rs ->
        nth 0 rs []
        ≡ₚ flat_map (targetExpected host doc sev)
             (entries (newFileLinkMap host (getAllLinks host doc)))).
Proof.
  intros Hsev. split; [|split; [apply getDiagnostics_returns|]].
  - destruct (newFileLinkMap_Grouped host (getAllLinks host doc))
      as (Hnd & Hin & Hall).
    split; [done|]. split.
    + intros k e Hke. destruct (Hin k e Hke). auto.
    + intros link p frag Hl Hh.
      assert (Hk : In (toString host p)
                      (map fst (newFileLinkMap host (getAllLinks host doc)))).
      { apply Hall. intros Hnil.
        assert (Hd : In (mkLinkData (source link) frag)
                        (linksTo host (toString host p) (getAllLinks host doc))).
        { unfold linksTo. apply in_flat_map. exists link. split; [done|].
          rewrite Hh. rewrite bool_decide_true by done. by left. }
        by rewrite Hnil in Hd. }
      apply in_map_iff in Hk as ([k e] & Hfst & Hke). simpl in Hfst. subst k.
      eauto.
  - intros sched rs Hn Hph.
    destruct (returned_expected host doc options sched rs Hn Hph) as (f & -> & Hf).
    cbn [nth]. rewrite Hf. unfold filePathDiagnostics. by rewrite Hsev.
Qed.

Lemma file_path_validation_witness :
  toSeverity (validateFilePaths Sample.filesOnly) = Some Error
  /\ nth 0 [[mkDiagnostic (hrefRange (source Sample.linkMissingFile))
               "File does not exist at path: file:/missing.md" Error;
             mkDiagnostic (hrefRange (source Sample.linkGuideNowhere))
               "Header does not exist in file: nowhere" Error;
             mkDiagnostic (hrefRange (source Sample.linkGoneFile))
               "File does not exist at path: file:/gone.md" Error];
            []; []] []
     ≡ₚ flat_map (targetExpected Sample.hostFiles Sample.readme Error)
          (entries (newFileLinkMap Sample.hostFiles
                      (getAllLinks Sample.hostFiles Sample.readme))).
Proof.
  split; [reflexivity|].
  apply (proj2 (proj2 (file_path_validation Sample.hostFiles Sample.readme
                         Sample.filesOnly Error eq_refl))
           (drain 8)).
  - repeat constructor.
  - reflexivity.
Defined.

(** A link to [./missing.md] with nothing on disk, level [error]: one
    error naming the path. *)
Example file_missing :
  getDiagnostics (Sample.host (Sample.workspaceOf [Sample.linkMissingFile] []) [])
    Sample.readme (Sample.allOn error) false (drain 2)
  = Some [mkDiagnostic (hrefRange (source Sample.linkMissingFile))
            "File does not exist at path: file:/missing.md" Error].
Proof. reflexivity. Qed.

(** The same document once the file exists. *)
Example file_created :
  getDiagnostics Sample.hostFileCreated Sample.readme (Sample.allOn error)
    false (drain 2)
  = Some [].
Proof. reflexivity. Qed.

(** ** C4: determinism and pass order *)

(** C4, as stated, at a concrete input: the same document, options and
    oracle answers, two computations neither of which is cancelled; in
    the second the existence check of [/gone.md] settles before that of
    [/missing.md].  The two results list the file-path diagnostics in
    different orders. *)
Lemma completion_order_changes_result_order :
  getDiagnostics Sample.hostAll Sample.readme (Sample.allOn error) false (drain 5)
  = Some [Sample.diagMissingFile; Sample.diagGoneFile;
          Sample.diagUndefinedRef; Sample.diagMissingHeader]
  /\ getDiagnostics Sample.hostAll Sample.readme (Sample.allOn error) false
       Sample.goneFirst
     = Some [Sample.diagGoneFile; Sample.diagMissingFile;
             Sample.diagUndefinedRef; Sample.diagMissingHeader]
  /\ getDiagnostics Sample.hostAll Sample.readme (Sample.allOn error) false (drain 5)
     <> getDiagnostics Sample.hostAll Sample.readme (Sample.allOn error) false
          Sample.goneFirst.
Proof. split; [reflexivity|]. split; [reflexivity|]. discriminate. Qed.

(** C4 (amended): two computations on the same document with the same
    options and oracle answers, neither cancelled, return their
    diagnostics in the pass order file-path, reference, own-header; the
    reference and own-header parts are the same lists in the same order,
    and the file-path parts hold the same diagnostics, possibly in
    different orders, so the two results are permutations of each other;
    computations whose promises settle in the same order return the same
    list. *)
Theorem results_agree_up_to_completion_order (host : Host)
    (doc : TextDocument) (options : DiagnosticOptions)
    (sched1 sched2 : list Wake) (ds1 ds2 : list Diagnostic) :
  neverCancelled sched1 -> neverCancelled sched2 ->
  getDiagnostics host doc options false sched1 = Some ds1 ->
  getDiagnostics host doc options false sched2 = Some ds2 ->
  (exists f1 f2,
     ds1 = f1 ++ referenceDiagnostics host options (getAllLinks host doc)
              ++ ownHeaderDiagnostics host doc options (getAllLinks host doc)
     /\ ds2 = f2 ++ referenceDiagnostics host options (getAllLinks host doc)
                 ++ ownHeaderDiagnostics host doc options (getAllLinks host doc)
     /\ f1 ≡ₚ filePathDiagnostics host doc options (getAllLinks host doc)
     /\ f2 ≡ₚ filePathDiagnostics host doc options (getAllLinks host doc))
  /\ ds1 ≡ₚ ds2
  /\ (sched1 = sched2 -> ds1 = ds2).
Proof.
  intros Hn1 Hn2 H1 H2.
  assert (Hshape : forall sched ds,
            neverCancelled sched ->
            getDiagnostics host doc options false sched = Some ds ->
            exists f,
              ds = f ++ referenceDiagnostics host options (getAllLinks host doc)
                     ++ ownHeaderDiagnostics host doc options (getAllLinks host doc)
              /\ f ≡ₚ filePathDiagnostics host doc options (getAllLinks host doc)).
  { intros sched ds Hn Hds. unfold getDiagnostics, result in Hds.
    destruct (phase (run host doc options sched (start doc false)))
      as [|p|rs] eqn:Hph; try done.
    destruct (returned_expected host doc options sched rs Hn Hph) as (f & -> & Hf).
    exists f. split; [|done]. injection Hds as <-. simpl. by rewrite app_nil_r. }
  destruct (Hshape sched1 ds1 Hn1 H1) as (f1 & -> & Hf1).
  destruct (Hshape sched2 ds2 Hn2 H2) as (f2 & -> & Hf2).
  split; [by exists f1, f2|]. split.
  - by rewrite Hf1, Hf2.
  - intros ->. congruence.
Qed.

Lemma results_agree_up_to_completion_order_witness :
  neverCancelled (drain 5) /\ neverCancelled Sample.goneFirst
  /\ getDiagnostics Sample.hostAll Sample.readme (Sample.allOn error) false
       (drain 5)
     = Some [Sample.diagMissingFile; Sample.diagGoneFile;
             Sample.diagUndefinedRef; Sample.diagMissingHeader]
  /\ getDiagnostics Sample.hostAll Sample.readme (Sample.allOn error) false
       Sample.goneFirst
     = Some [Sample.diagGoneFile; Sample.diagMissingFile;
             Sample.diagUndefinedRef; Sample.diagMissingHeader]
  /\ [Sample.diagMissingFile; Sample.diagGoneFile;
      Sample.diagUndefinedRef; Sample.diagMissingHeader]
     ≡ₚ [Sample.diagGoneFile; Sample.diagMissingFile;
         Sample.diagUndefinedRef; Sample.diagMissingHeader].
Proof.
  assert (H1 : neverCancelled (drain 5)) by (repeat constructor).
  assert (H2 : neverCancelled Sample.goneFirst) by (repeat constructor).
  split; [exact H1|]. split; [exact H2|].
  split; [vm_compute; reflexivity|]. split; [vm_compute; reflexivity|].
  apply (results_agree_up_to_completion_order Sample.hostAll Sample.readme
           (Sample.allOn error) (drain 5) Sample.goneFirst
           [Sample.diagMissingFile; Sample.diagGoneFile;
            Sample.diagUndefinedRef; Sample.diagMissingHeader]
           [Sample.diagGoneFile; Sample.diagMissingFile;
            Sample.diagUndefinedRef; Sample.diagMissingHeader]
           H1 H2); vm_compute; reflexivity.
Defined.

(** ** C9: the limiter *)

Lemma documentLookup_resolutions tr :
  omap documentLookup (resolutions tr) = omap documentLookup tr.
Proof.
  unfold resolutions. induction tr as [|ev tr IH]; [done|].
  destruct ev; cbn [List.filter isResolution]; rewrite !omap_cons_eq;
    cbn [documentLookup]; by rewrite IH.
Qed.

Lemma pathCheck_resolutions tr :
  omap pathCheck (resolutions tr) = omap pathCheck tr.
Proof.
  unfold resolutions. induction tr as [|ev tr IH]; [done|].
  destruct ev; cbn [List.filter isResolution]; rewrite !omap_cons_eq;
    cbn [pathCheck]; by rewrite IH.
Qed.

Lemma documentLookup_factories (host : Host) (l : list Factory) :
  omap documentLookup (flat_map (factoryResolutions host) l)
  = map (fun f => fl_path (snd f)) l.
Proof.
  induction l as [|f l IH]; [done|].
  cbn [flat_map map]. unfold factoryResolutions at 1, resolutionsOf.
  destruct (tryFindMdDocumentForLink host (fl_path (snd f)));
    cbn [app]; rewrite !omap_cons_eq; cbn [documentLookup pathCheck];
    by rewrite IH.
Qed.

Lemma pathCheck_factories (host : Host) (l : list Factory) :
  omap pathCheck (flat_map (factoryResolutions host) l)
  = List.filter (fun p => bool_decide (tryFindMdDocumentForLink host p = None))
                (map (fun f => fl_path (snd f)) l).
Proof.
  induction l as [|f l IH]; [done|].
  cbn [flat_map map List.filter]. unfold factoryResolutions at 1, resolutionsOf.
  destruct (tryFindMdDocumentForLink host (fl_path (snd f))) eqn:Hfind;
    cbn [app]; rewrite !omap_cons_eq; cbn [documentLookup pathCheck];
    rewrite IH.
  - by rewrite bool_decide_false.
  - by rewrite bool_decide_true.
Qed.

(** C9: in every state of every computation at most 10 tasks of the
    file-path pass are started and unfinished, so at most 10 existence
    calls are outstanding, and factories wait only while all 10 slots are
    taken; from every state the computation returns once the pending
    promises settle; the targets are distinct; and in a computation that
    is not cancelled the waiting factories are the not yet started
    targets in submission order, and on return the document lookups made
    are the targets, each exactly once, and the path checks made are the
    targets without a markdown document, each exactly once. *)
Theorem limiter_bounds_resolutions (host : Host) (doc : TextDocument)
    (options : DiagnosticOptions) (sev : DiagnosticSeverity) (token : bool)
    (sched : list Wake) :
  toSeverity (validateFilePaths options) = Some sev ->
  (forall p,
     phase (run host doc options sched (start doc token)) = Validating p ->
     length (running p) <= 10
     /\ (outstanding p <> [] -> length (running p) = 10))
  /\ (exists n, forall m, n <= m ->
        exists rs,
          phase (run host doc options (drain m)
                   (run host doc options sched (start doc token)))
          = Returned rs)
  /\ NoDup (map fl_path (entries (newFileLinkMap host (getAllLinks host doc))))
  /\ (token = false -> neverCancelled sched ->
      (forall p,
         phase (run host doc options sched (start doc token)) = Validating p ->
         exists n,
           map snd (outstanding p)
           = drop n (entries (newFileLinkMap host (getAllLinks host doc))))
      /\ (forall rs,
            phase (run host doc options sched (start doc token)) = Returned rs ->
            omap documentLookup
              (trace (run host doc options sched (start doc token)))
            ≡ₚ map fl_path (entries (newFileLinkMap host (getAllLinks host doc)))
            /\ omap pathCheck
                 (trace (run host doc options sched (start doc token)))
               ≡ₚ List.filter
                    (fun p => bool_decide
                                (tryFindMdDocumentForLink host p = None))
                    (map fl_path
                       (entries (newFileLinkMap host (getAllLinks host doc)))))).
Proof.
  intros Hsev.
  assert (HB : Bounded (run host doc options sched (start doc token))).
  { apply run_Bounded, start_Bounded. }
  assert (HF : fileFactories host doc options
               = map (pair sev)
                   (entries (newFileLinkMap host (getAllLinks host doc)))).
  { unfold fileFactories. by rewrite Hsev. }
  split; [|split; [|split]].
  - intros p Hp. unfold Bounded in HB. rewrite Hp in HB.
    destruct HB as (H1 & H2 & _). auto.
  - by apply run_completes.
  - apply entries_distinct_paths.
  - intros -> Hn.
    destruct (run_Accounted host doc options sched _ Hn (start_Accounted host doc options))
      as [_ HA].
    split.
    + intros p Hp. rewrite Hp in HA. destruct HA as (_ & _ & _ & _ & n & Hs).
      exists n. rewrite Hs, HF, <- skipn_map, map_map. simpl. by rewrite map_id.
    + intros rs Hrs. rewrite Hrs in HA. destruct HA as (f & _ & _ & Hres).
      split.
      * rewrite <- documentLookup_resolutions, Hres, documentLookup_factories.
        rewrite HF, map_map. done.
      * rewrite <- pathCheck_resolutions, Hres, pathCheck_factories.
        rewrite HF, map_map. done.
Qed.

Lemma limiter_bounds_resolutions_witness :
  toSeverity (validateFilePaths (Sample.allOn error)) = Some Error
  /\ false = false
  /\ neverCancelled [LinksReady]
  /\ 10 < length (entries (newFileLinkMap Sample.hostMany
                             (getAllLinks Sample.hostMany Sample.readme)))
  /\ exists p,
       phase (run Sample.hostMany Sample.readme (Sample.allOn error)
                [LinksReady] (start Sample.readme false)) = Validating p
       /\ length (running p) <= 10
       /\ exists n,
            map snd (outstanding p)
            = drop n (entries (newFileLinkMap Sample.hostMany
                                 (getAllLinks Sample.hostMany Sample.readme))).
Proof.
  assert (Hn : neverCancelled [LinksReady]) by (repeat constructor).
  destruct (limiter_bounds_resolutions Sample.hostMany Sample.readme
              (Sample.allOn error) Error false [LinksReady] eq_refl)
    as (Hbound & _ & _ & Hrest).
  destruct (Hrest eq_refl Hn) as [Hwait _].
  split; [reflexivity|]. split; [reflexivity|]. split; [exact Hn|].
  split; [vm_compute; lia|].
  eexists. split; [reflexivity|]. split.
  - eapply Hbound. reflexivity.
  - eapply Hwait. reflexivity.
Defined.

(** ** The manager's handlers *)

Section ManagerLemmas.
Variable host : Host.

Lemma update_eq ws doc m :
  update ws doc m
  = mkManager (pendingDiagnostics m) (collection m) (delayerArmed m)
              (inFlight m ++ [updateOf ws doc]).
Proof.
  unfold update, updateOf. by destruct (Manager_getDiagnostics ws doc false).
Qed.

Lemma fold_update ws docs m :
  fold_left (fun m doc => update ws doc m) docs m
  = mkManager (pendingDiagnostics m) (collection m) (delayerArmed m)
              (inFlight m ++ map (updateOf ws) docs).
Proof.
  revert m. induction docs as [|doc docs IH]; intros m.
  - simpl. rewrite app_nil_r. by destruct m.
  - cbn [fold_left map]. rewrite IH, update_eq. cbn.
    by rewrite <- app_assoc.
Qed.

Lemma fold_recompute ws pending m :
  fold_left
    (fun m resource =>
       match List.find (fun doc => String.eqb (fsPath host (uri doc))
                                              (fsPath host resource))
                       (textDocuments ws) with
       | Some doc => update ws doc m
       | None => m
       end)
    pending m
  = mkManager (pendingDiagnostics m) (collection m) (delayerArmed m)
      (inFlight m
       ++ omap (fun resource => updateOf ws <$> firstWithPath host ws resource)
               pending).
Proof.
  revert m. induction pending as [|resource pending IH]; intros m.
  - simpl. rewrite app_nil_r. by destruct m.
  - cbn [fold_left]. rewrite IH, omap_cons_eq. unfold firstWithPath at 2.
    destruct (List.find _ (textDocuments ws)) as [doc|]; [|done].
    rewrite update_eq. cbn. by rewrite <- app_assoc.
Qed.

Lemma recomputePendingDiagnostics_eq ws m :
  recomputePendingDiagnostics host ws m
  = mkManager [] (collection m) false
      (inFlight m
       ++ omap (fun resource => updateOf ws <$> firstWithPath host ws resource)
               (pendingDiagnostics m)).
Proof. unfold recomputePendingDiagnostics. by rewrite fold_recompute. Qed.

Lemma inner_tabs_lookup (group : list TabInput) (acc : gmap string Uri) k :
  is_Some (fold_left (fun acc tab =>
                        match tab with
                        | TabInputText u => <[toString host u := u]> acc
                        | TabInputOther => acc
                        end) group acc !! k)
  <-> is_Some (acc !! k)
      \/ exists u, In (TabInputText u) group /\ toString host u = k.
Proof.
  revert acc. induction group as [|tab group IH]; intros acc; simpl.
  - split; [auto|]. intros [?|(u & [] & _)]. done.
  - rewrite IH. destruct tab as [u|].
    + rewrite lookup_insert_is_Some'. split.
      * intros [[Hk|?]|(u' & ? & ?)]; eauto 6.
      * intros [?|(u' & [[= ->]|?] & ?)]; eauto 6.
    + split.
      * intros [?|(u' & ? & ?)]; eauto 6.
      * intros [?|(u' & [?|?] & ?)]; [auto|done|eauto 6].
Qed.

Lemma outer_tabs_lookup (groups : list (list TabInput)) (acc : gmap string Uri) k :
  is_Some (fold_left
             (fun openedTabDocs group =>
                fold_left (fun acc tab =>
                             match tab with
                             | TabInputText u => <[toString host u := u]> acc
                             | TabInputOther => acc
                             end) group openedTabDocs)
             groups acc !! k)
  <-> is_Some (acc !! k)
      \/ exists group u,
           In group groups /\ In (TabInputText u) group /\ toString host u = k.
Proof.
  revert acc. induction groups as [|group groups IH]; intros acc; simpl.
  - split; [auto|]. intros [?|(g & u & [] & _)]. done.
  - rewrite IH, inner_tabs_lookup. split.
    + intros [[?|(u & ? & ?)]|(g & u & ? & ? & ?)]; eauto 10.
    + intros [?|(g & u & [->|?] & ? & ?)]; eauto 10.
Qed.

Lemma getAllTabResources_lookup ws k :
  is_Some (getAllTabResources host ws !! k)
  <-> exists group u,
        In group (tabGroups ws) /\ In (TabInputText u) group
        /\ toString host u = k.
Proof.
  unfold getAllTabResources. rewrite outer_tabs_lookup.
  split; [|auto]. intros [H|H]; [|done].
  rewrite lookup_empty in H. by destruct H.
Qed.

Lemma inSomeTab_spec ws doc :
  inSomeTab host ws doc = true
  <-> exists group u,
        In group (tabGroups ws) /\ In (TabInputText u) group
        /\ toString host u = toString host (uri doc).
Proof.
  unfold inSomeTab. rewrite existsb_exists. split.
  - intros (group & Hg & Hex). apply existsb_exists in Hex as (tab & Ht & Heq).
    destruct tab as [u|]; [|done]. apply String.eqb_eq in Heq. eauto.
  - intros (group & u & Hg & Ht & Heq). exists group. split; [done|].
    apply existsb_exists. exists (TabInputText u). split; [done|].
    by apply String.eqb_eq.
Qed.

Lemma rebuild_eq ws m :
  rebuild host ws m
  = mkManager (pendingDiagnostics m) ∅ (delayerArmed m)
              (inFlight m ++ map (updateOf ws) (visibleMarkdown host ws)).
Proof.
  unfold rebuild. rewrite fold_update. cbn. do 3 f_equal.
  unfold visibleMarkdown. apply List.filter_ext. intros doc. f_equal.
  destruct (inSomeTab host ws doc) eqn:Hin.
  - apply bool_decide_eq_true, getAllTabResources_lookup.
    by apply inSomeTab_spec.
  - apply bool_decide_eq_false. rewrite getAllTabResources_lookup.
    rewrite <- inSomeTab_spec. congruence.
Qed.

Lemma find_first {A} (f : A -> bool) (l : list A) x :
  List.find f l = Some x ->
  exists before after,
    l = before ++ x :: after /\ f x = true
    /\ forall y, In y before -> f y = false.
Proof.
  induction l as [|a l IH]; simpl; [done|].
  destruct (f a) eqn:Hfa.
  - intros [= <-]. exists [], l. split; [done|]. split; [done|]. intros ? [].
  - intros Hx. destruct (IH Hx) as (before & after & -> & Hfx & Hb).
    exists (a :: before), after. split; [done|]. split; [done|].
    intros y [<-|Hy]; auto.
Qed.

Lemma settled_pending k w m :
  pendingDiagnostics (settled host k w m) = pendingDiagnostics m.
Proof.
  unfold settled. destruct w; try done;
    destruct (inFlight m !! k) as [u|]; try done;
    by destruct (result _).
Qed.

Lemma settled_targets k w m u' :
  In u' (inFlight (settled host k w m)) ->
  exists u, In u (inFlight m) /\ target u' = target u.
Proof.
  unfold settled.
  assert (Hgen : forall w',
            In u' (inFlight
                     match inFlight m !! k with
                     | Some u =>
                         match result (step host (target u) (config u)
                                         (computation u) w') with
                         | Some ds =>
                             mkManager (pendingDiagnostics m)
                               (<[toString host (uri (target u)) := ds]> (collection m))
                               (delayerArmed m) (delete k (inFlight m))
                         | None =>
                             mkManager (pendingDiagnostics m) (collection m)
                               (delayerArmed m)
                               (<[k := mkUpdate (target u) (config u)
                                         (step host (target u) (config u)
                                            (computation u) w')]> (inFlight m))
                         end
                     | None => m
                     end) ->
            exists u, In u (inFlight m) /\ target u' = target u).
  { intros w'. destruct (inFlight m !! k) as [u|] eqn:Hk; [|eauto].
    destruct (result _).
    - cbn [inFlight]. intros Hin. exists u'. split; [|done].
      apply list_elem_of_In. eapply list_elem_of_delete_inv.
      by apply list_elem_of_In.
    - cbn [inFlight]. intros Hin. apply list_elem_of_In in Hin.
      apply list_elem_of_lookup in Hin as [j Hj].
      apply list_lookup_insert_Some in Hj as [(-> & <- & _)|(_ & Hj)].
      + exists u. split; [|done]. apply list_elem_of_In.
        apply list_elem_of_lookup. eauto.
      + exists u'. split; [|done]. apply list_elem_of_In.
        apply list_elem_of_lookup. eauto. }
  destruct w; eauto.
Qed.

Lemma settled_collection k w m key :
  (forall u, In u (inFlight m) -> toString host (uri (target u)) <> key) ->
  collection (settled host k w m) !! key = collection m !! key.
Proof.
  intros Hother. unfold settled.
  destruct w; try done;
    (destruct (inFlight m !! k) as [u|] eqn:Hk; [|done];
     destruct (result _); [|done];
     cbn [collection]; apply lookup_insert_ne, Hother;
     apply list_elem_of_In, list_elem_of_lookup; eauto).
Qed.

(** When the computation awaited by update [k] returns, its result is
    stored under the rendered URI of the update's document. *)
Lemma settled_publishes k w m u ds :
  inFlight m !! k = Some u ->
  isCancel w = false ->
  result (step host (target u) (config u) (computation u) w) = Some ds ->
  collection (settled host k w m)
  = <[toString host (uri (target u)) := ds]> (collection m).
Proof.
  intros Hk Hw Hres. unfold settled.
  destruct w; try done; by rewrite Hk, Hres.
Qed.

Lemma set_delete_spec u v s :
  In v (set_delete u s) <-> In v s /\ v <> u.
Proof.
  unfold set_delete. rewrite filter_In. split.
  - intros [Hin Hne]. split; [done|]. intros ->.
    by rewrite bool_decide_true in Hne.
  - intros [Hin Hne]. split; [done|]. by rewrite bool_decide_false.
Qed.

End ManagerLemmas.

(** ** C10: the debounce callback *)

(** C10: when the debounce callback runs, the pending set is emptied and
    the published collection is left as it is; for every pending URI, in
    insertion order, an update is started for the first open document
    whose [fsPath] equals the URI's [fsPath], whatever the rest of its
    URI, and nothing is done for a pending URI that no open document
    matches. *)
Theorem recompute_matches_by_fsPath (host : Host) (ws : Workspace)
    (m : Manager) :
  pendingDiagnostics (recomputePendingDiagnostics host ws m) = []
  /\ collection (recomputePendingDiagnostics host ws m) = collection m
  /\ inFlight (recomputePendingDiagnostics host ws m)
     = inFlight m
       ++ omap (fun resource => updateOf ws <$> firstWithPath host ws resource)
               (pendingDiagnostics m)
  /\ (forall resource,
        match firstWithPath host ws resource with
        | Some doc =>
            exists before after,
              textDocuments ws = before ++ doc :: after
              /\ fsPath host (uri doc) = fsPath host resource
              /\ (forall d, In d before ->
                    fsPath host (uri d) <> fsPath host resource)
        | None =>
            forall d, In d (textDocuments ws) ->
              fsPath host (uri d) <> fsPath host resource
        end).
Proof.
  rewrite recomputePendingDiagnostics_eq. cbn [pendingDiagnostics collection inFlight].
  do 3 (split; [done|]). intros resource. unfold firstWithPath.
  destruct (List.find _ _) as [doc|] eqn:Hfind.
  - apply find_first in Hfind as (before & after & Htd & Heq & Hb).
    exists before, after. split; [done|]. split; [by apply String.eqb_eq|].
    intros d Hd. apply String.eqb_neq. auto.
  - intros d Hd. apply String.eqb_neq.
    by apply (find_none _ _ Hfind).
Qed.

Lemma recompute_matches_by_fsPath_witness :
  pendingDiagnostics
    (recomputePendingDiagnostics (Sample.host [] []) Sample.twoViews
       (mkManager [uri Sample.readme] ∅ true [])) = []
  /\ match firstWithPath (Sample.host [] []) Sample.twoViews (uri Sample.readme) with
     | Some doc =>
         exists before after,
           textDocuments Sample.twoViews = before ++ doc :: after
           /\ fsPath (Sample.host [] []) (uri doc)
              = fsPath (Sample.host [] []) (uri Sample.readme)
           /\ (forall d, In d before ->
                 fsPath (Sample.host [] []) (uri d)
                 <> fsPath (Sample.host [] []) (uri Sample.readme))
     | None =>
         forall d, In d (textDocuments Sample.twoViews) ->
           fsPath (Sample.host [] []) (uri d)
           <> fsPath (Sample.host [] []) (uri Sample.readme)
     end.
Proof.
  destruct (recompute_matches_by_fsPath (Sample.host [] []) Sample.twoViews
              (mkManager [uri Sample.readme] ∅ true []))
    as (Hpending & _ & _ & Hfirst).
  split; [exact Hpending|]. exact (Hfirst (uri Sample.readme)).
Defined.

(** The pending URI [file:/readme.md] while the file is open twice, first
    as [git:/readme.md?ref=HEAD]: the update is started for that first
    document, and only for it. *)
Example recompute_picks_first_view :
  inFlight (recomputePendingDiagnostics (Sample.host [] []) Sample.twoViews
              (mkManager [uri Sample.readme] ∅ true []))
  = [updateOf Sample.twoViews Sample.readmeAtHead].
Proof. reflexivity. Qed.

(** A pending URI that no open document matches is dropped. *)
Example recompute_drops_unmatched :
  recomputePendingDiagnostics (Sample.host [] []) Sample.twoViews
    (mkManager [Sample.file 60 "/closed.md"] ∅ true [])
  = Sample.idle.
Proof. reflexivity. Qed.

(** ** C8: configuration changes *)

Lemma step_returned (host : Host) doc options st w rs :
  phase st = Returned rs ->
  phase (step host doc options st w) = Returned rs.
Proof.
  destruct st as [c tr ph]. cbn [phase]. intros ->. by destruct w.
Qed.

Lemma settled_AllClear (host : Host) k w m :
  AllClear m -> AllClear (settled host k w m).
Proof.
  intros [Hfly Hcol].
  assert (Hgo : forall w',
            AllClear
              match inFlight m !! k with
              | Some u =>
                  match result (step host (target u) (config u)
                                  (computation u) w') with
                  | Some ds =>
                      mkManager (pendingDiagnostics m)
                        (<[toString host (uri (target u)) := ds]> (collection m))
                        (delayerArmed m) (delete k (inFlight m))
                  | None =>
                      mkManager (pendingDiagnostics m) (collection m)
                        (delayerArmed m)
                        (<[k := mkUpdate (target u) (config u)
                                  (step host (target u) (config u)
                                     (computation u) w')]> (inFlight m))
                  end
              | None => m
              end).
  { intros w'. destruct (inFlight m !! k) as [u|] eqn:Hk; [|by split].
    assert (Hu : phase (computation u) = Returned []).
    { apply Hfly, list_elem_of_In, list_elem_of_lookup. eauto. }
    unfold result. rewrite (step_returned host _ _ _ w' [] Hu). cbn [concat].
    split; cbn [inFlight collection].
    - intros u' Hu'. apply Hfly, list_elem_of_In.
      eapply list_elem_of_delete_inv. by apply list_elem_of_In.
    - intros key ds. rewrite lookup_insert_Some.
      intros [[_ <-]|[_ Hds]]; [done|by eapply Hcol]. }
  unfold settled. destruct w; try apply Hgo. by split.
Qed.

Lemma handleAll_AllClear (host : Host) h m :
  onlySettlements h -> AllClear m -> AllClear (handleAll host m h).
Proof.
  revert m. induction h as [|[ws ev] h IH]; intros m Hs Hm; [done|].
  inversion Hs as [|we h' Hev Hrest]; subst.
  cbn [handleAll fold_left]. apply IH; [done|].
  cbn [fst snd] in *. destruct ev; try done. cbn [handle].
  by apply settled_AllClear.
Qed.

Section Settlements.
Variable host : Host.

Lemma result_step_stable doc options st w ds :
  result st = Some ds -> result (step host doc options st w) = Some ds.
Proof.
  unfold result. destruct (phase st) as [|p|rs] eqn:Hph; try done.
  intros Hds. by rewrite (step_returned host doc options st w rs Hph).
Qed.

Lemma run_snoc doc options sched w st :
  run host doc options (sched ++ [w]) st
  = step host doc options (run host doc options sched st) w.
Proof. unfold run. by rewrite fold_left_app. Qed.

Lemma handleAll_app m h1 h2 :
  handleAll host m (h1 ++ h2) = handleAll host (handleAll host m h1) h2.
Proof. unfold handleAll. apply fold_left_app. Qed.

(** While the computation awaited by update [k] has not returned, the
    settlements of its promises move that update and nothing else. *)
Lemma settlements_suspended ws k sched m u :
  inFlight m !! k = Some u ->
  neverCancelled sched ->
  result (run host (target u) (config u) sched (computation u)) = None ->
  handleAll host m (settlements ws k sched)
  = mkManager (pendingDiagnostics m) (collection m) (delayerArmed m)
      (<[k := mkUpdate (target u) (config u)
                (run host (target u) (config u) sched (computation u))]>
         (inFlight m)).
Proof.
  intros Hk. induction sched as [|w sched IH] using rev_ind; intros Hn Hres.
  - cbn. rewrite list_insert_id; [by destruct m|]. by destruct u.
  - apply Forall_app in Hn as [Hn Hw]. inversion Hw as [|? ? Hw' _]; subst.
    rewrite run_snoc in *.
    assert (Hbefore : result (run host (target u) (config u) sched
                                (computation u)) = None).
    { destruct (result (run host (target u) (config u) sched (computation u)))
        as [ds|] eqn:Hds; [|done].
      by rewrite (result_step_stable _ _ _ w ds Hds) in Hres. }
    unfold settlements. rewrite map_app, handleAll_app.
    fold (settlements ws k sched). rewrite (IH Hn Hbefore).
    cbn [map handleAll fold_left fst snd handle]. unfold settled.
    cbn [inFlight pendingDiagnostics collection delayerArmed].
    rewrite list_lookup_insert_eq by (by eapply lookup_lt_Some).
    cbn [target config computation]. rewrite Hres.
    rewrite list_insert_insert_eq. by destruct w.
Qed.

(** When the computation awaited by update [k] returns at the last of
    the settlements, its result is stored under the update's document
    and the update is finished. *)
Lemma settlements_publish ws k sched w m u ds :
  inFlight m !! k = Some u ->
  neverCancelled (sched ++ [w]) ->
  result (run host (target u) (config u) sched (computation u)) = None ->
  result (run host (target u) (config u) (sched ++ [w]) (computation u))
  = Some ds ->
  handleAll host m (settlements ws k (sched ++ [w]))
  = mkManager (pendingDiagnostics m)
      (<[toString host (uri (target u)) := ds]> (collection m))
      (delayerArmed m) (delete k (inFlight m)).
Proof.
  intros Hk Hn Hnone Hres.
  apply Forall_app in Hn as [Hn Hw]. inversion Hw as [|? ? Hw' _]; subst.
  rewrite run_snoc in Hres.
  unfold settlements. rewrite map_app, handleAll_app.
  fold (settlements ws k sched). rewrite (settlements_suspended ws k sched m u Hk Hn Hnone).
  cbn [map handleAll fold_left fst snd handle]. unfold settled.
  cbn [inFlight pendingDiagnostics collection delayerArmed].
  rewrite list_lookup_insert_eq by (by eapply lookup_lt_Some).
  cbn [target config computation]. rewrite Hres.
  assert (Hdel : delete k (<[k := mkUpdate (target u) (config u)
                              (run host (target u) (config u) sched
                                 (computation u))]> (inFlight m))
                 = delete k (inFlight m)).
  { clear. revert k. induction (inFlight m) as [|x l IH]; intros [|k]; try done.
    cbn. f_equal. apply IH. }
  rewrite Hdel. by destruct w.
Qed.

(** A computation that returns under a schedule returns at one of its
    wakes and not before. *)
Lemma first_return doc options sched st :
  result st = None ->
  is_Some (result (run host doc options sched st)) ->
  exists before w after,
    sched = before ++ w :: after
    /\ result (run host doc options before st) = None
    /\ is_Some (result (run host doc options (before ++ [w]) st)).
Proof.
  revert st. induction sched as [|w sched IH]; intros st Hnone Hsome.
  - cbn in Hsome. rewrite Hnone in Hsome. by destruct Hsome.
  - destruct (result (step host doc options st w)) as [ds|] eqn:Hstep.
    + exists [], w, sched. split; [done|]. split; [done|]. cbn. by rewrite Hstep.
    + destruct (IH (step host doc options st w) Hstep Hsome)
        as (before & w' & after & -> & Hb & Ha).
      exists (w :: before), w', after. by split.
Qed.
End Settlements.

(** C8: on a configuration change the manager first empties the
    published collection, leaves the pending set as it is, and starts an
    update for exactly the open markdown documents that appear in a tab
    group, in the order of the open documents; each of these updates
    stores its result under its document when its computation returns.
    For a document for which validation is enabled the update runs the
    computer on it with the options now configured for it: the
    computation returns once its promises have settled, and when it
    does, the entry published for the document is the file-path
    diagnostics expected under those options, in completion order, then
    the expected reference diagnostics, then the expected own-header
    diagnostics.  When validation is off, every started update has
    already returned the empty list, and, no older update being in
    flight, no diagnostic is published for any resource however the
    promises then settle. *)
Theorem configuration_change_rebuilds (host : Host) (ws : Workspace)
    (m : Manager) :
  collection (handle host ws m ConfigurationDidChange) = ∅
  /\ pendingDiagnostics (handle host ws m ConfigurationDidChange)
     = pendingDiagnostics m
  /\ inFlight (handle host ws m ConfigurationDidChange)
     = inFlight m ++ map (updateOf ws) (visibleMarkdown host ws)
  /\ (forall doc,
        In doc (visibleMarkdown host ws)
        <-> In doc (textDocuments ws)
            /\ isMarkdownFile host doc = true
            /\ exists group u,
                 In group (tabGroups ws) /\ In (TabInputText u) group
                 /\ toString host u = toString host (uri doc))
  /\ (forall k u w ds,
        inFlight (handle host ws m ConfigurationDidChange) !! k = Some u ->
        isCancel w = false ->
        result (step host (target u) (config u) (computation u) w) = Some ds ->
        collection (settled host k w (handle host ws m ConfigurationDidChange))
        = <[toString host (uri (target u)) := ds]> ∅)
  /\ (forall i doc,
        visibleMarkdown host ws !! i = Some doc ->
        enabled (getOptions ws (uri doc)) = true ->
        (exists sched w,
           neverCancelled (sched ++ [w])
           /\ getDiagnostics host doc (getOptions ws (uri doc)) false sched
              = None
           /\ is_Some (getDiagnostics host doc (getOptions ws (uri doc)) false
                         (sched ++ [w])))
        /\ (forall sched w ds,
              neverCancelled (sched ++ [w]) ->
              getDiagnostics host doc (getOptions ws (uri doc)) false sched
              = None ->
              getDiagnostics host doc (getOptions ws (uri doc)) false
                (sched ++ [w]) = Some ds ->
              collection
                (handleAll host (handle host ws m ConfigurationDidChange)
                   (settlements ws (length (inFlight m) + i) (sched ++ [w])))
              = {[ toString host (uri doc) := ds ]}
              /\ exists f,
                   ds = f ++ referenceDiagnostics host (getOptions ws (uri doc))
                               (getAllLinks host doc)
                          ++ ownHeaderDiagnostics host doc
                               (getOptions ws (uri doc)) (getAllLinks host doc)
                   /\ f ≡ₚ filePathDiagnostics host doc
                              (getOptions ws (uri doc)) (getAllLinks host doc)))
  /\ ((forall r, enabled (getOptions ws r) = false) ->
      (forall doc, In doc (visibleMarkdown host ws) ->
         result (computation (updateOf ws doc)) = Some []
         /\ trace (computation (updateOf ws doc)) = [])
      /\ (inFlight m = [] ->
          forall h r, onlySettlements h ->
            published host
              (handleAll host (handle host ws m ConfigurationDidChange) h) r
            = [])).
Proof.
  cbn [handle]. rewrite rebuild_eq. cbn [collection pendingDiagnostics inFlight].
  do 3 (split; [done|]). split; [|split; [|split]].
  - intros doc. unfold visibleMarkdown. rewrite filter_In, andb_true_iff.
    rewrite inSomeTab_spec. tauto.
  - intros k u w ds Hk Hw Hres.
    by rewrite (settled_publishes host k w (mkManager _ _ _ _) u ds Hk Hw Hres).
  - intros i doc Hi Hon.
    assert (Hu : updateOf ws doc
                 = mkUpdate doc (getOptions ws (uri doc)) (start doc false)).
    { unfold updateOf, Manager_getDiagnostics. by rewrite Hon. }
    split.
    + destruct (getDiagnostics_returns host doc (getOptions ws (uri doc)) false)
        as [n Hn].
      destruct (first_return host doc (getOptions ws (uri doc)) (drain n)
                  (start doc false) eq_refl (Hn n (le_n n)))
        as (before & w & after & Hsplit & Hb & Ha).
      exists before, w. split; [|by split].
      pose proof (neverCancelled_drain n) as Hd. rewrite Hsplit in Hd.
      apply Forall_app in Hd as [Hd1 Hd2]. apply Forall_app. split; [done|].
      inversion Hd2; subst. by repeat constructor.
    + intros sched w ds Hn Hnone Hsome.
      assert (Hk : (inFlight m ++ map (updateOf ws) (visibleMarkdown host ws))
                     !! (length (inFlight m) + i)
                   = Some (updateOf ws doc)).
      { rewrite lookup_app_r by lia.
        replace (length (inFlight m) + i - length (inFlight m)) with i by lia.
        by rewrite list_lookup_fmap, Hi. }
      split.
      * rewrite (settlements_publish host ws _ sched w (mkManager _ _ _ _)
                   (updateOf ws doc) ds Hk Hn);
          rewrite ?Hu; cbn [target config computation collection]; done.
      * unfold getDiagnostics, result in Hsome.
        destruct (phase (run host doc (getOptions ws (uri doc)) (sched ++ [w])
                           (start doc false))) as [|p|rs] eqn:Hph; try done.
        destruct (returned_expected host doc (getOptions ws (uri doc))
                    (sched ++ [w]) rs Hn Hph) as (f & -> & Hf).
        exists f. split; [|done]. injection Hsome as <-. cbn [concat].
        by rewrite app_nil_r.
  - intros Hoff.
    assert (Hret : forall doc,
              computation (updateOf ws doc) = mkComputation false [] (Returned [])).
    { intros doc. unfold updateOf, Manager_getDiagnostics.
      by rewrite (Hoff (uri doc)). }
    split.
    + intros doc _. by rewrite Hret.
    + intros Hidle h r Hs. rewrite Hidle. cbn [app].
      match goal with
      | |- published host (handleAll host ?m0 h) r = [] =>
          destruct (handleAll_AllClear host h m0 Hs) as [_ Hcol]
      end.
      * split; cbn [inFlight collection].
        -- intros u Hu. apply in_map_iff in Hu as (doc & <- & _). by rewrite Hret.
        -- intros key ds. by rewrite lookup_empty.
      * unfold published.
        destruct (collection _ !! toString host r) as [ds|] eqn:Hl; [|done].
        simpl. by eapply Hcol.
Qed.

Lemma configuration_change_rebuilds_witness :
  ((forall r, enabled (getOptions (Sample.workspace Sample.disabledButStrict) r)
              = false)
   /\ inFlight (mkManager [] {["file:/readme.md" := [Sample.diagUndefinedRef]]}
                          false []) = []
   /\ onlySettlements [(Sample.workspace Sample.disabledButStrict,
                        PromiseSettled 0 LinksReady)]
   /\ published Sample.hostRef
        (handleAll Sample.hostRef
           (handle Sample.hostRef (Sample.workspace Sample.disabledButStrict)
              (mkManager [] {["file:/readme.md" := [Sample.diagUndefinedRef]]}
                         false [])
              ConfigurationDidChange)
           [(Sample.workspace Sample.disabledButStrict,
             PromiseSettled 0 LinksReady)])
        (uri Sample.readme)
      = [])
  /\ (visibleMarkdown Sample.hostRef (Sample.workspace (Sample.allOn error))
        !! 0 = Some Sample.readme
      /\ enabled (getOptions (Sample.workspace (Sample.allOn error))
                             (uri Sample.readme)) = true
      /\ neverCancelled ([LinksReady] ++ [TocReady])
      /\ getDiagnostics Sample.hostRef Sample.readme (Sample.allOn error) false
           [LinksReady] = None
      /\ getDiagnostics Sample.hostRef Sample.readme (Sample.allOn error) false
           ([LinksReady] ++ [TocReady]) = Some [Sample.diagUndefinedRef]
      /\ collection
           (handleAll Sample.hostRef
              (handle Sample.hostRef (Sample.workspace (Sample.allOn error))
                 (mkManager [] {["file:/guide.md" := [Sample.diagMissingHeader]]}
                            false [])
                 ConfigurationDidChange)
              (settlements (Sample.workspace (Sample.allOn error)) 0
                 ([LinksReady] ++ [TocReady])))
         = {[ "file:/readme.md" := [Sample.diagUndefinedRef] ]}).
Proof.
  assert (Hoff : forall r,
            enabled (getOptions (Sample.workspace Sample.disabledButStrict) r)
            = false) by reflexivity.
  assert (Hs : onlySettlements [(Sample.workspace Sample.disabledButStrict,
                                 PromiseSettled 0 LinksReady)])
    by (repeat constructor).
  assert (Hn : neverCancelled ([LinksReady] ++ [TocReady]))
    by (repeat constructor).
  split.
  - split; [exact Hoff|]. split; [reflexivity|]. split; [exact Hs|].
    destruct (configuration_change_rebuilds Sample.hostRef
                (Sample.workspace Sample.disabledButStrict)
                (mkManager [] {["file:/readme.md" := [Sample.diagUndefinedRef]]}
                           false []))
      as (_ & _ & _ & _ & _ & _ & Hq).
    destruct (Hq Hoff) as [_ Hclear].
    apply Hclear; [reflexivity|exact Hs].
  - split; [reflexivity|]. split; [reflexivity|]. split; [exact Hn|].
    split; [reflexivity|]. split; [reflexivity|].
    destruct (configuration_change_rebuilds Sample.hostRef
                (Sample.workspace (Sample.allOn error))
                (mkManager [] {["file:/guide.md" := [Sample.diagMissingHeader]]}
                           false []))
      as (_ & _ & _ & _ & _ & Hon & _).
    destruct (Hon 0 Sample.readme eq_refl eq_refl) as [_ Hpub].
    exact (proj1 (Hpub [LinksReady] TocReady [Sample.diagUndefinedRef]
                    Hn eq_refl eq_refl)).
Defined.

(** ** C3: closing a document *)

(** C3: the code breaks the claim at this input.  [/readme.md], whose
    only link is [[text][undefined-ref]], is opened; the debounce timer
    fires and the update starts; the document is closed, which leaves no
    entry and no pending URI for it; then the computation that was in
    flight returns, and [update] stores its diagnostic for the closed
    document: the collection holds an entry for it again. *)
Lemma late_completion_republishes_closed_document :
  collection (handleAll Sample.hostRef Sample.idle
                (Sample.openedThenClosed (Sample.workspace (Sample.allOn error))))
    !! "file:/readme.md" = None
  /\ pendingDiagnostics
       (handleAll Sample.hostRef Sample.idle
          (Sample.openedThenClosed (Sample.workspace (Sample.allOn error))))
     = []
  /\ collection
       (handleAll Sample.hostRef Sample.idle
          (Sample.openedThenClosed (Sample.workspace (Sample.allOn error))
           ++ Sample.lateCompletion (Sample.workspace (Sample.allOn error))))
       !! "file:/readme.md"
     = Some [Sample.diagUndefinedRef].
Proof. split; [|split]; vm_compute; reflexivity. Qed.

Lemma settlements_keep_absent (host : Host) h m key v :
  onlySettlements h ->
  (forall u, In u (inFlight m) -> toString host (uri (target u)) <> key) ->
  collection m !! key = None ->
  ~ In v (pendingDiagnostics m) ->
  collection (handleAll host m h) !! key = None
  /\ ~ In v (pendingDiagnostics (handleAll host m h)).
Proof.
  revert m. induction h as [|[ws ev] h IH]; intros m Hs Hfly Hcol Hpen; [done|].
  inversion Hs as [|we h' Hev Hrest]; subst.
  cbn [handleAll fold_left fst snd] in *. destruct ev; try done. cbn [handle].
  apply IH; [done| | |].
  - intros u' Hu'. destruct (settled_targets host k w m u' Hu') as (u & Hu & ->).
    by apply Hfly.
  - by rewrite settled_collection.
  - by rewrite settled_pending.
Qed.

(** X15: the close handler by itself.  When the manager has processed a
    close event for a document, the collection holds no entry under the
    document's rendered URI and the pending set does not contain its URI
    object; every other entry and every other pending URI is as before,
    and so are the updates in flight and the timer.  While promises then
    settle and no update in flight at the close is for a document with
    the closed document's rendered URI, the collection keeps holding no
    entry for it and the pending set keeps not containing its URI. *)
Theorem close_removes_entry_and_pending (host : Host) (ws : Workspace)
    (m : Manager) (doc : TextDocument) :
  collection (handle host ws m (DidCloseTextDocument doc))
    !! toString host (uri doc) = None
  /\ ~ In (uri doc)
       (pendingDiagnostics (handle host ws m (DidCloseTextDocument doc)))
  /\ (forall key, key <> toString host (uri doc) ->
        collection (handle host ws m (DidCloseTextDocument doc)) !! key
        = collection m !! key)
  /\ (forall v, v <> uri doc ->
        In v (pendingDiagnostics (handle host ws m (DidCloseTextDocument doc)))
        <-> In v (pendingDiagnostics m))
  /\ inFlight (handle host ws m (DidCloseTextDocument doc)) = inFlight m
  /\ delayerArmed (handle host ws m (DidCloseTextDocument doc)) = delayerArmed m
  /\ (forall h,
        onlySettlements h ->
        (forall u, In u (inFlight m) ->
           toString host (uri (target u)) <> toString host (uri doc)) ->
        collection (handleAll host (handle host ws m (DidCloseTextDocument doc)) h)
          !! toString host (uri doc) = None
        /\ ~ In (uri doc)
             (pendingDiagnostics
                (handleAll host (handle host ws m (DidCloseTextDocument doc)) h))).
Proof.
  cbn [handle]. unfold onDidCloseTextDocument.
  cbn [collection pendingDiagnostics inFlight delayerArmed].
  split; [apply lookup_delete_eq|].
  assert (Hgone : ~ In (uri doc) (set_delete (uri doc) (pendingDiagnostics m))).
  { rewrite set_delete_spec. tauto. }
  split; [exact Hgone|]. split; [|split; [|split; [done|split; [done|]]]].
  - intros key Hne. by apply lookup_delete_ne.
  - intros v Hne. rewrite set_delete_spec. tauto.
  - intros h Hs Hfly.
    apply settlements_keep_absent; cbn [inFlight collection pendingDiagnostics];
      [done|done|apply lookup_delete_eq|done].
Qed.

Lemma close_removes_entry_and_pending_witness :
  collection Sample2.busy !! "file:/readme.md" = Some [Sample.diagUndefinedRef]
  /\ In (uri Sample.readme) (pendingDiagnostics Sample2.busy)
  /\ onlySettlements (Sample.lateCompletion (Sample.workspace (Sample.allOn error)))
  /\ (forall u, In u (inFlight Sample2.busy) ->
        toString Sample.hostRef (uri (target u))
        <> toString Sample.hostRef (uri Sample.readme))
  /\ collection
       (handleAll Sample.hostRef
          (handle Sample.hostRef (Sample.workspace (Sample.allOn error))
             Sample2.busy (DidCloseTextDocument Sample.readme))
          (Sample.lateCompletion (Sample.workspace (Sample.allOn error))))
       !! "file:/guide.md" = Some []
  /\ pendingDiagnostics
       (handleAll Sample.hostRef
          (handle Sample.hostRef (Sample.workspace (Sample.allOn error))
             Sample2.busy (DidCloseTextDocument Sample.readme))
          (Sample.lateCompletion (Sample.workspace (Sample.allOn error))))
     = [uri Sample.guide]
  /\ collection
       (handleAll Sample.hostRef
          (handle Sample.hostRef (Sample.workspace (Sample.allOn error))
             Sample2.busy (DidCloseTextDocument Sample.readme))
          (Sample.lateCompletion (Sample.workspace (Sample.allOn error))))
       !! toString Sample.hostRef (uri Sample.readme) = None.
Proof.
  assert (Hs : onlySettlements
                 (Sample.lateCompletion (Sample.workspace (Sample.allOn error))))
    by (repeat constructor).
  assert (Hfly : forall u, In u (inFlight Sample2.busy) ->
                   toString Sample.hostRef (uri (target u))
                   <> toString Sample.hostRef (uri Sample.readme)).
  { intros u [<-|[]]. vm_compute. discriminate. }
  split; [vm_compute; reflexivity|]. split; [right; by left|].
  split; [exact Hs|]. split; [exact Hfly|].
  split; [vm_compute; reflexivity|]. split; [vm_compute; reflexivity|].
  destruct (close_removes_entry_and_pending Sample.hostRef
              (Sample.workspace (Sample.allOn error)) Sample2.busy Sample.readme)
    as (_ & _ & _ & _ & _ & _ & Hstable).
  apply (Hstable _ Hs Hfly).
Defined.

(** * Further properties *)

(** ** Results and host calls under any schedule *)

Section SoundnessLemmas.
Variable host : Host.
Variable doc : TextDocument.
Variable options : DiagnosticOptions.

Lemma consume_sound cancel waiting run tr ds run' waiting' tr' ds' :
  consume cancel waiting run tr ds = (run', waiting', tr', ds') ->
  ds' = ds
  /\ flat_map (taskYield host doc) run'
       ++ flat_map (factoryYield host doc) waiting'
     ⊆+ flat_map (taskYield host doc) run
          ++ flat_map (factoryYield host doc) waiting
  /\ resolutions tr' ++ flat_map (taskResolutions host) run'
       ++ flat_map (factoryResolutions host) waiting'
     ⊆+ resolutions tr ++ flat_map (taskResolutions host) run
          ++ flat_map (factoryResolutions host) waiting.
Proof.
  destruct cancel.
  - rewrite consume_cancelled.
    destruct (Nat.ltb _ _); intros [= <- <- <- <-]; [|done].
    split; [done|]. split.
    + simpl. rewrite app_nil_r. by apply submseteq_inserts_r.
    + simpl. rewrite app_nil_r. rewrite app_assoc. by apply submseteq_inserts_r.
  - rewrite consume_not_cancelled. intros [= <- <- <- <-].
    set (j := maxDegreeOfParalellism - length run).
    split; [done|]. split.
    + rewrite flat_map_app, (yield_awaitFind host doc), <- app_assoc.
      rewrite <- flat_map_app, take_drop. done.
    + apply Permutation_submseteq.
      rewrite resolutions_app, resolutions_evFind, flat_map_app.
      assert (Hsplit : flat_map (factoryResolutions host) waiting
                       ≡ₚ (map (fun f : Factory => EvFindDoc (fl_path (snd f)))
                               (take j waiting)
                           ++ flat_map (taskResolutions host)
                                (map (fun f : Factory => AwaitFind (fst f) (snd f))
                                     (take j waiting)))
                          ++ flat_map (factoryResolutions host) (drop j waiting)).
      { by rewrite resolutions_awaitFind, <- flat_map_app, take_drop. }
      rewrite Hsplit, <- !app_assoc. apply Permutation_app_head.
      apply Permutation_app_swap_app.
Qed.

Lemma Accounted_Sound st :
  Accounted host doc options st -> Sound host doc options st.
Proof.
  intros [_ HA]. unfold Sound. destruct (phase st) as [|p|rs].
  - done.
  - destruct HA as (Hd & Hr & Href & Ho & _).
    split; [by apply Permutation_submseteq|].
    split; [by apply Permutation_submseteq|]. split; [done|].
    destruct (ownHeaders p); [done|]. by left.
  - destruct HA as (f & -> & Hf & Hr).
    split; [by apply Permutation_submseteq|]. right.
    exists f, (ownHeaderFinal host doc options).
    split; [done|]. split; [by apply Permutation_submseteq|]. by left.
Qed.

Lemma settle_Sound c tr p :
  diagnostics p ++ flat_map (taskYield host doc) (running p)
    ++ flat_map (factoryYield host doc) (outstanding p)
    ⊆+ flat_map (factoryYield host doc) (fileFactories host doc options) ->
  resolutions tr ++ flat_map (taskResolutions host) (running p)
    ++ flat_map (factoryResolutions host) (outstanding p)
    ⊆+ flat_map (factoryResolutions host) (fileFactories host doc options) ->
  references p = validateReferenceLinks host options (getAllLinks host doc) ->
  match ownHeaders p with
  | OwnAwaitToc sev => toSeverity (validateOwnHeaders options) = Some sev
  | OwnDone ds => ds = ownHeaderFinal host doc options \/ ds = []
  end ->
  Sound host doc options (settle c tr p).
Proof.
  intros Hd Hr Href Ho.
  destruct (settle_cases c tr p) as [[-> _]|(own & Hrun & Hout & Hown & ->)].
  - unfold Sound. simpl. auto.
  - unfold Sound. cbn [phase trace].
    rewrite Hrun, Hout in Hd, Hr. simpl in Hd, Hr. rewrite app_nil_r in Hd, Hr.
    rewrite Hown in Ho. split; [done|]. right.
    exists (diagnostics p), own. rewrite Href. auto.
Qed.

Lemma step_Sound st w :
  Sound host doc options st -> Sound host doc options (step host doc options st w).
Proof.
  intros HS. destruct st as [c tr ph].
  destruct w as [|k| |]; destruct ph as [|p|rs]; try exact HS.
  - (* the links arrive *)
    destruct c.
    + unfold step. cbn [phase cancelled trace]. unfold Sound in *.
      cbn [phase trace] in *. rewrite HS. split; [apply submseteq_nil_l|by left].
    + apply Accounted_Sound, step_Accounted; [done|]. split; [done|exact HS].
  - (* a task is woken *)
    unfold step. cbn [phase cancelled trace].
    unfold Sound in HS. cbn [phase trace] in HS.
    destruct HS as (Hd & Hr & Href & Ho).
    destruct (running p !! k) as [t|] eqn:Hk;
      [|unfold Sound; cbn [phase trace]; auto].
    rewrite (flat_map_lookup_perm (taskYield host doc) _ _ _ Hk) in Hd.
    rewrite (flat_map_lookup_perm (taskResolutions host) _ _ _ Hk) in Hr.
    destruct (resumeTask host doc t) as [t' ev|pushed] eqn:Hres.
    + apply resumeTask_suspend in Hres as (Hy & Hrs & _).
      unfold Sound.
      cbn [phase trace running outstanding diagnostics references ownHeaders].
      rewrite (flat_map_insert_perm (taskYield host doc) _ _ _ t' Hk), Hy.
      rewrite (flat_map_insert_perm (taskResolutions host) _ _ _ t' Hk).
      rewrite resolutions_app. rewrite <- Hrs in Hr.
      split; [exact Hd|]. split; [|auto].
      etrans; [|exact Hr]. apply Permutation_submseteq.
      by rewrite <- !app_assoc.
    + apply resumeTask_complete in Hres as (-> & Hrs & _).
      rewrite Hrs in Hr. simpl in Hr.
      destruct (consume c (outstanding p) (delete k (running p)) tr
                        (diagnostics p ++ taskYield host doc t))
        as [[[run' waiting'] tr'] ds'] eqn:Hc.
      apply consume_sound in Hc as (-> & Hcy & Hcr).
      apply settle_Sound;
        cbn [diagnostics running outstanding references ownHeaders]; try done.
      * etrans; [|exact Hd]. rewrite <- !app_assoc.
        apply submseteq_skips_l, submseteq_skips_l. done.
      * etrans; [exact Hcr|exact Hr].
  - (* the table of contents arrives *)
    unfold step. cbn [phase cancelled trace].
    unfold Sound in HS. cbn [phase trace] in HS.
    destruct HS as (Hd & Hr & Href & Ho).
    destruct (ownHeaders p) as [sev|own] eqn:Hown.
    + apply settle_Sound;
        cbn [diagnostics running outstanding references ownHeaders]; try done.
      destruct c; [by right|]. left.
      unfold ownHeaderFinal. by rewrite Ho.
    + unfold Sound. cbn [phase trace]. rewrite Hown. auto.
Qed.

Lemma run_Sound sched st :
  Sound host doc options st -> Sound host doc options (run host doc options sched st).
Proof.
  revert st. induction sched as [|w sched IH]; intros st HS; [done|].
  simpl. apply IH. by apply step_Sound.
Qed.

Lemma start_Sound token : Sound host doc options (start doc token).
Proof. done. Qed.
End SoundnessLemmas.

Lemma omap_submseteq {A B} (f : A -> option B) (l k : list A) :
  l ⊆+ k -> omap f l ⊆+ omap f k.
Proof.
  induction 1 as [|x l k _ IH|x y l|x l k _ IH|l k m _ IH1 _ IH2].
  - done.
  - rewrite !omap_cons_eq. destruct (f x); [by apply submseteq_skip|done].
  - rewrite !omap_cons_eq. destruct (f x), (f y); try done.
    apply submseteq_swap.
  - rewrite omap_cons_eq. destruct (f x); [by apply submseteq_cons|done].
  - by etrans.
Qed.

Lemma flat_map_length_le {A B C} (f : A -> list B) (g : A -> list C)
    (l : list A) :
  (forall x, length (f x) <= length (g x)) ->
  length (flat_map f l) <= length (flat_map g l).
Proof.
  intros Hfg. induction l as [|x l IH]; simpl; [done|].
  rewrite !length_app. specialize (Hfg x). lia.
Qed.

(** ** [FileLinkMap]: no link is lost or duplicated *)

Section ConservationLemmas.
Variable host : Host.

Lemma addLink_conserves m link :
  flat_map fl_links (entries (addLink host m link))
  ≡ₚ flat_map fl_links (entries m)
     ++ match internalData link with
        | Some d => [d]
        | None => []
        end.
Proof.
  unfold addLink, internalData, entries.
  destruct (href link) as [t|p frag|r]; try by rewrite app_nil_r.
  destruct (pushExisting _ _ m) as [m'|] eqn:Hp.
  - apply pushExisting_Some in Hp as (m1 & e & m2 & -> & ->).
    rewrite !map_app, !flat_map_app. cbn [map flat_map snd fl_links].
    rewrite <- !app_assoc. do 2 apply Permutation_app_head.
    apply Permutation_app_comm.
  - rewrite map_app, flat_map_app. simpl. done.
Qed.

Lemma addLink_nonempty m link :
  Forall (fun e => fl_links e <> []) (entries m) ->
  Forall (fun e => fl_links e <> []) (entries (addLink host m link)).
Proof.
  unfold addLink, entries. intros Hm.
  destruct (href link) as [t|p frag|r]; try done.
  destruct (pushExisting _ _ m) as [m'|] eqn:Hp.
  - apply pushExisting_Some in Hp as (m1 & e & m2 & -> & ->).
    rewrite map_app in *. cbn [map snd] in *.
    apply Forall_app in Hm as [H1 H2]. apply Forall_cons in H2 as [_ H2].
    apply Forall_app. split; [done|]. apply Forall_cons. split; [|done].
    cbn [fl_links]. by destruct (fl_links e).
  - rewrite map_app. apply Forall_app. split; [done|].
    apply Forall_cons. split; [done|]. apply Forall_nil_2.
Qed.

Lemma newFileLinkMap_conserves links :
  flat_map fl_links (entries (newFileLinkMap host links))
  ≡ₚ omap internalData links.
Proof.
  unfold newFileLinkMap. induction links as [|link links IH] using rev_ind.
  - done.
  - rewrite fold_left_app. cbn [fold_left].
    rewrite addLink_conserves, IH, omap_app. apply Permutation_app_head.
    rewrite omap_cons_eq. by destruct (internalData link).
Qed.

Lemma newFileLinkMap_nonempty links :
  Forall (fun e => fl_links e <> []) (entries (newFileLinkMap host links)).
Proof.
  unfold newFileLinkMap. induction links as [|link links IH] using rev_ind.
  - apply Forall_nil_2.
  - rewrite fold_left_app. cbn [fold_left]. by apply addLink_nonempty.
Qed.

Lemma nonempty_groups_length (es : list FileLinksData) :
  Forall (fun e => fl_links e <> []) es ->
  length es <= length (flat_map fl_links es).
Proof.
  induction 1 as [|e es He _ IH]; simpl; [done|].
  rewrite length_app. destruct (fl_links e); [done|]. simpl. lia.
Qed.
End ConservationLemmas.

(** X5: the groups of a [FileLinkMap] hold, between them, the data of
    every internal link exactly once; no group is empty; so the map has
    at most as many entries as there are internal links, and it is empty
    (the case in which [validateFileLinks] returns at once) exactly when
    no link is internal. *)
Theorem file_link_map_conserves_links (host : Host) (links : list MdLink) :
  flat_map fl_links (entries (newFileLinkMap host links))
  ≡ₚ omap internalData links
  /\ Forall (fun e => fl_links e <> []) (entries (newFileLinkMap host links))
  /\ size (newFileLinkMap host links) <= length (omap internalData links)
  /\ (size (newFileLinkMap host links) = 0 <-> omap internalData links = []).
Proof.
  pose proof (newFileLinkMap_conserves host links) as Hperm.
  pose proof (newFileLinkMap_nonempty host links) as Hne.
  split; [done|]. split; [done|].
  assert (Hsize : size (newFileLinkMap host links)
                  = length (entries (newFileLinkMap host links))).
  { unfold size, entries. by rewrite length_map. }
  split.
  - rewrite Hsize, <- (Permutation_length Hperm).
    by apply nonempty_groups_length.
  - split.
    + intros Hz. unfold size in Hz. apply length_zero_iff_nil in Hz.
      rewrite Hz in Hperm. simpl in Hperm.
      by apply Permutation_nil_l in Hperm.
    + intros Hnil. rewrite Hnil in Hperm. apply Permutation_nil_r in Hperm.
      pose proof (nonempty_groups_length _ Hne) as Hle.
      rewrite Hperm in Hle. simpl in Hle. lia.
Qed.

(** ** Any schedule, any cancellation *)

Lemma returned_sound (host : Host) (doc : TextDocument)
    (options : DiagnosticOptions) (token : bool) (sched : list Wake)
    (rs : list (list Diagnostic)) :
  phase (run host doc options sched (start doc token)) = Returned rs ->
  rs = []
  \/ exists f o,
       rs = [f; referenceDiagnostics host options (getAllLinks host doc); o]
       /\ f ⊆+ filePathDiagnostics host doc options (getAllLinks host doc)
       /\ (o = ownHeaderDiagnostics host doc options (getAllLinks host doc)
           \/ o = []).
Proof.
  intros Hph.
  pose proof (run_Sound host doc options sched _ (start_Sound host doc options token))
    as HS.
  unfold Sound in HS. rewrite Hph in HS.
  destruct HS as [_ [->|(f & o & -> & Hf & Ho)]]; [by left|].
  rewrite fileFactories_expected, validateReferenceLinks_expected,
    ownHeaderFinal_expected in *.
  right. by exists f, o.
Qed.

(** X1: whatever the token says and however the awaited promises settle
    or cancellation arrives, a returned result is either empty or the
    three parts in pass order, where the file-path part holds expected
    file-path diagnostics, none more often than expected, the reference
    part is complete, and the own-header part is complete or empty.  So
    cancellation can only remove diagnostics: it never adds or repeats
    one. *)
Theorem every_result_is_sound (host : Host) (doc : TextDocument)
    (options : DiagnosticOptions) (token : bool) (sched : list Wake)
    (ds : list Diagnostic) :
  getDiagnostics host doc options token sched = Some ds ->
  (ds = []
   \/ exists f o,
        ds = f ++ referenceDiagnostics host options (getAllLinks host doc) ++ o
        /\ f ⊆+ filePathDiagnostics host doc options (getAllLinks host doc)
        /\ (o = ownHeaderDiagnostics host doc options (getAllLinks host doc)
            \/ o = []))
  /\ ds ⊆+ filePathDiagnostics host doc options (getAllLinks host doc)
           ++ referenceDiagnostics host options (getAllLinks host doc)
           ++ ownHeaderDiagnostics host doc options (getAllLinks host doc).
Proof.
  intros Hds. unfold getDiagnostics, result in Hds.
  destruct (phase (run host doc options sched (start doc token)))
    as [|p|rs] eqn:Hph; try done.
  injection Hds as <-.
  destruct (returned_sound host doc options token sched rs Hph)
    as [->|(f & o & -> & Hf & Ho)].
  - split; [by left|]. apply submseteq_nil_l.
  - cbn [concat]. rewrite app_nil_r. split.
    + right. by exists f, o.
    + apply submseteq_app; [done|]. apply submseteq_skips_l.
      destruct Ho as [->| ->]; [done|apply submseteq_nil_l].
Qed.

Lemma every_result_is_sound_witness :
  getDiagnostics Sample.hostAll Sample.readme (Sample.allOn error) false
    [LinksReady; TaskReady 1; CancelRequested; TaskReady 1; TocReady;
     TaskReady 0; TaskReady 0; TaskReady 0]
  = Some [Sample.diagMissingFile; Sample.diagGoneFile; Sample.diagUndefinedRef]
  /\ [Sample.diagMissingFile; Sample.diagGoneFile; Sample.diagUndefinedRef]
     ⊆+ filePathDiagnostics Sample.hostAll Sample.readme (Sample.allOn error)
          (getAllLinks Sample.hostAll Sample.readme)
        ++ referenceDiagnostics Sample.hostAll (Sample.allOn error)
             (getAllLinks Sample.hostAll Sample.readme)
        ++ ownHeaderDiagnostics Sample.hostAll Sample.readme (Sample.allOn error)
             (getAllLinks Sample.hostAll Sample.readme).
Proof.
  assert (H : getDiagnostics Sample.hostAll Sample.readme (Sample.allOn error)
                false
                [LinksReady; TaskReady 1; CancelRequested; TaskReady 1; TocReady;
                 TaskReady 0; TaskReady 0; TaskReady 0]
              = Some [Sample.diagMissingFile; Sample.diagGoneFile;
                      Sample.diagUndefinedRef])
    by (vm_compute; reflexivity).
  split; [exact H|].
  exact (proj2 (every_result_is_sound Sample.hostAll Sample.readme
                  (Sample.allOn error) false _ _ H)).
Defined.

Lemma submseteq_NoDup {A} (l k : list A) : l ⊆+ k -> NoDup k -> NoDup l.
Proof.
  intros Hsub Hk. apply submseteq_Permutation in Hsub as [rest Hperm].
  rewrite Hperm in Hk. by apply NoDup_app in Hk as (? & _ & _).
Qed.

Lemma fileFactories_paths (host : Host) (doc : TextDocument)
    (options : DiagnosticOptions) :
  map (fun f : Factory => fl_path (snd f)) (fileFactories host doc options)
  ⊆+ map fl_path (entries (newFileLinkMap host (getAllLinks host doc))).
Proof.
  unfold fileFactories.
  destruct (toSeverity (validateFilePaths options)) as [sev|];
    [|apply submseteq_nil_l].
  rewrite map_map. simpl. done.
Qed.

Lemma filter_submseteq {A} (f : A -> bool) (l k : list A) :
  l ⊆+ k -> List.filter f l ⊆+ List.filter f k.
Proof.
  induction 1 as [|x l k _ IH|x y l|x l k _ IH|l k m _ IH1 _ IH2]; simpl.
  - done.
  - destruct (f x); [by apply submseteq_skip|done].
  - destruct (f x), (f y); try done. apply submseteq_swap.
  - destruct (f x); [by apply submseteq_cons|done].
  - by etrans.
Qed.

(** X4: whatever the token says and however the awaited promises settle
    or cancellation arrives, the document lookups made so far are lookups
    of link targets, no target looked up twice; the path checks made so
    far are checks of targets for which the lookup found no markdown
    document, no target checked twice; so a computation makes at most two
    existence calls per distinct target. *)
Theorem existence_calls_are_bounded (host : Host) (doc : TextDocument)
    (options : DiagnosticOptions) (token : bool) (sched : list Wake) :
  omap documentLookup (trace (run host doc options sched (start doc token)))
  ⊆+ map fl_path (entries (newFileLinkMap host (getAllLinks host doc)))
  /\ NoDup (omap documentLookup
              (trace (run host doc options sched (start doc token))))
  /\ omap pathCheck (trace (run host doc options sched (start doc token)))
     ⊆+ List.filter
          (fun p => bool_decide (tryFindMdDocumentForLink host p = None))
          (map fl_path (entries (newFileLinkMap host (getAllLinks host doc))))
  /\ NoDup (omap pathCheck
              (trace (run host doc options sched (start doc token))))
  /\ length (resolutions (trace (run host doc options sched (start doc token))))
     <= 2 * size (newFileLinkMap host (getAllLinks host doc)).
Proof.
  pose proof (run_Sound host doc options sched _ (start_Sound host doc options token))
    as HS.
  set (st := run host doc options sched (start doc token)) in *.
  assert (Hres : resolutions (trace st)
                 ⊆+ flat_map (factoryResolutions host)
                      (fileFactories host doc options)).
  { unfold Sound in HS. destruct (phase st) as [|p|rs].
    - rewrite HS. apply submseteq_nil_l.
    - destruct HS as (_ & Hr & _). etrans; [|exact Hr].
      by apply submseteq_inserts_r.
    - by destruct HS. }
  pose proof (entries_distinct_paths host (getAllLinks host doc)) as Hnd.
  assert (Hlook : omap documentLookup (trace st)
                  ⊆+ map fl_path
                       (entries (newFileLinkMap host (getAllLinks host doc)))).
  { rewrite <- documentLookup_resolutions.
    etrans; [apply omap_submseteq, Hres|].
    rewrite documentLookup_factories. apply fileFactories_paths. }
  assert (Hcheck : omap pathCheck (trace st)
                   ⊆+ List.filter
                        (fun p => bool_decide
                                    (tryFindMdDocumentForLink host p = None))
                        (map fl_path
                           (entries (newFileLinkMap host (getAllLinks host doc))))).
  { rewrite <- pathCheck_resolutions.
    etrans; [apply omap_submseteq, Hres|].
    rewrite pathCheck_factories. apply filter_submseteq, fileFactories_paths. }
  split; [done|]. split; [by eapply submseteq_NoDup|]. split; [done|]. split.
  - eapply submseteq_NoDup; [exact Hcheck|].
    apply NoDup_ListNoDup, List.NoDup_filter, NoDup_ListNoDup, Hnd.
  - etrans; [apply submseteq_length, Hres|].
    assert (Hlen : forall l : list Factory,
              length (flat_map (factoryResolutions host) l) <= 2 * length l).
    { induction l as [|f l IH]; simpl; [lia|].
      destruct (tryFindMdDocumentForLink host (fl_path (snd f))); simpl; lia. }
    etrans; [apply Hlen|].
    pose proof (submseteq_length _ _ (fileFactories_paths host doc options)) as Hle.
    rewrite !length_map in Hle. unfold size, entries in *.
    rewrite length_map in Hle. lia.
Qed.

Section CountingLemmas.
Variable host : Host.
Variable doc : TextDocument.
Variable options : DiagnosticOptions.

Lemma targetExpected_length sev e :
  length (targetExpected host doc sev e) <= length (fl_links e).
Proof.
  unfold targetExpected.
  destruct (tryFindMdDocumentForLink host (fl_path e)) as [target|].
  - case_bool_decide; [simpl; lia|].
    rewrite length_map. apply List.filter_length_le.
  - destruct (pathExists host (fl_path e)); [simpl; lia|].
    by rewrite length_map.
Qed.

Lemma filePathDiagnostics_length links :
  length (filePathDiagnostics host doc options links)
  <= length (omap internalData links).
Proof.
  unfold filePathDiagnostics.
  destruct (toSeverity (validateFilePaths options)) as [sev|]; [|simpl; lia].
  rewrite <- (Permutation_length (newFileLinkMap_conserves host links)).
  apply flat_map_length_le, targetExpected_length.
Qed.

Lemma referenceDiagnostics_length links :
  length (referenceDiagnostics host options links)
  <= length (List.filter isReference links).
Proof.
  unfold referenceDiagnostics, referenceExpected.
  destruct (toSeverity (validateReferences options)) as [sev|]; [|simpl; lia].
  generalize (definition_lookup host links). intros defs.
  induction links as [|link links IH]; simpl; [done|].
  unfold isReference at 1.
  destruct (href link) as [t|p frag|r]; simpl; try lia.
  destruct (defs r); simpl; lia.
Qed.

Lemma ownHeaderDiagnostics_length links :
  length (ownHeaderDiagnostics host doc options links)
  <= length (omap internalData links).
Proof.
  unfold ownHeaderDiagnostics, ownHeaderExpected.
  destruct (toSeverity (validateOwnHeaders options)) as [sev|]; [|simpl; lia].
  induction links as [|link links IH]; [done|].
  cbn [flat_map]. rewrite omap_cons_eq, length_app. unfold internalData at 1.
  destruct (href link) as [t|p frag|r]; cbn [length]; try lia.
  case_bool_decide; cbn [length]; lia.
Qed.
Lemma map_submseteq {A B} (f : A -> B) (l k : list A) :
  l ⊆+ k -> map f l ⊆+ map f k.
Proof.
  induction 1 as [|x l k _ IH|x y l|x l k _ IH|l k m _ IH1 _ IH2]; simpl.
  - done.
  - by apply submseteq_skip.
  - apply submseteq_swap.
  - by apply submseteq_cons.
  - by etrans.
Qed.

Lemma filter_is_submseteq {A} (f : A -> bool) (l : list A) :
  List.filter f l ⊆+ l.
Proof.
  induction l as [|x l IH]; simpl; [done|].
  destruct (f x); [by apply submseteq_skip|by apply submseteq_cons].
Qed.

Lemma flat_map_submseteq {A B} (f g : A -> list B) (l : list A) :
  (forall x, f x ⊆+ g x) -> flat_map f l ⊆+ flat_map g l.
Proof.
  intros Hfg. induction l as [|x l IH]; simpl; [done|].
  by apply submseteq_app.
Qed.

Lemma map_of_flat_map {A B C} (h : B -> C) (f : A -> list B) (l : list A) :
  map h (flat_map f l) = flat_map (fun x => map h (f x)) l.
Proof.
  induction l as [|x l IH]; simpl; [done|]. by rewrite map_app, IH.
Qed.

Lemma targetExpected_ranges sev e :
  map range (targetExpected host doc sev e)
  ⊆+ map (fun d => hrefRange (ld_source d)) (fl_links e).
Proof.
  unfold targetExpected.
  destruct (tryFindMdDocumentForLink host (fl_path e)) as [target|].
  - case_bool_decide; [apply submseteq_nil_l|].
    rewrite map_map. cbn [range]. apply map_submseteq, filter_is_submseteq.
  - destruct (pathExists host (fl_path e)); [apply submseteq_nil_l|].
    by rewrite map_map.
Qed.

Lemma filePathDiagnostics_ranges links :
  map range (filePathDiagnostics host doc options links)
  ⊆+ internalRanges links.
Proof.
  unfold filePathDiagnostics, internalRanges.
  destruct (toSeverity (validateFilePaths options)) as [sev|];
    [|apply submseteq_nil_l].
  rewrite map_of_flat_map.
  etrans; [apply flat_map_submseteq, targetExpected_ranges|].
  rewrite <- map_of_flat_map.
  pose proof (Permutation_map (fun d => hrefRange (ld_source d))
                (newFileLinkMap_conserves host links)) as Hperm.
  by rewrite Hperm.
Qed.

Lemma referenceDiagnostics_ranges links :
  map range (referenceDiagnostics host options links)
  ⊆+ referenceRanges links.
Proof.
  unfold referenceDiagnostics, referenceExpected, referenceRanges.
  destruct (toSeverity (validateReferences options)) as [sev|];
    [|apply submseteq_nil_l].
  generalize (definition_lookup host links). intros defs.
  induction links as [|link links IH]; simpl; [done|].
  unfold isReference at 1.
  destruct (href link) as [t|p frag|r]; simpl; try done.
  destruct (defs r); simpl; [by apply submseteq_cons|by apply submseteq_skip].
Qed.

Lemma ownHeaderDiagnostics_ranges links :
  map range (ownHeaderDiagnostics host doc options links)
  ⊆+ internalRanges links.
Proof.
  unfold ownHeaderDiagnostics, ownHeaderExpected, internalRanges.
  destruct (toSeverity (validateOwnHeaders options)) as [sev|];
    [|apply submseteq_nil_l].
  induction links as [|link links IH]; [done|].
  cbn [flat_map]. rewrite omap_cons_eq, map_app. unfold internalData at 1.
  destruct (href link) as [t|p frag|r]; cbn [map app]; try done.
  case_bool_decide; cbn [map app];
    [by apply submseteq_skip|by apply submseteq_cons].
Qed.
End CountingLemmas.

(** X6: whatever the token and the schedule, a returned result splits
    into a file-path part, a reference part and an own-header part such
    that each diagnostic of the file-path part sits at the href range of
    an internal link of its own, each diagnostic of the own-header part
    likewise, and each diagnostic of the reference part at the href
    range of a reference link of its own.  So an internal link accounts
    for at most two diagnostics, one from the file-path pass and one
    from the own-header pass, a reference link for at most one, and an
    external link for none; the result holds at most twice as many
    diagnostics as there are internal links plus one per reference
    link. *)
Theorem result_size_is_bounded (host : Host) (doc : TextDocument)
    (options : DiagnosticOptions) (token : bool) (sched : list Wake)
    (ds : list Diagnostic) :
  getDiagnostics host doc options token sched = Some ds ->
  (exists f r o,
     ds = f ++ r ++ o
     /\ map range f ⊆+ internalRanges (getAllLinks host doc)
     /\ map range r ⊆+ referenceRanges (getAllLinks host doc)
     /\ map range o ⊆+ internalRanges (getAllLinks host doc))
  /\ length ds
     <= 2 * length (omap internalData (getAllLinks host doc))
        + length (List.filter isReference (getAllLinks host doc)).
Proof.
  intros Hds. unfold getDiagnostics, result in Hds.
  destruct (phase (run host doc options sched (start doc token)))
    as [|p|rs] eqn:Hph; try done.
  injection Hds as <-.
  pose proof (filePathDiagnostics_length host doc options (getAllLinks host doc)).
  pose proof (referenceDiagnostics_length host options (getAllLinks host doc)).
  pose proof (ownHeaderDiagnostics_length host doc options (getAllLinks host doc)).
  destruct (returned_sound host doc options token sched rs Hph)
    as [->|(f & o & -> & Hf & Ho)].
  - split; [|simpl; lia]. exists [], [], []. split; [done|].
    split; [|split]; apply submseteq_nil_l.
  - split.
    + exists f, (referenceDiagnostics host options (getAllLinks host doc)), o.
      cbn [concat]. rewrite app_nil_r. split; [done|]. split; [|split].
      * etrans; [apply map_submseteq, Hf|]. apply filePathDiagnostics_ranges.
      * apply referenceDiagnostics_ranges.
      * destruct Ho as [->| ->]; [|apply submseteq_nil_l].
        apply ownHeaderDiagnostics_ranges.
    + apply submseteq_length in Hf.
      cbn [concat]. rewrite app_nil_r, !length_app.
      destruct Ho as [->| ->]; simpl; lia.
Qed.

Lemma result_size_is_bounded_witness :
  getDiagnostics Sample2.hostMixed Sample.readme (Sample.allOn error) false
    (drain 5)
  = Some [Sample.diagMissingFile; Sample.diagUndefinedRef;
          Sample.diagMissingHeader]
  /\ internalRanges (getAllLinks Sample2.hostMixed Sample.readme)
     = [hrefRange (source Sample.linkMissingHeader);
        hrefRange (source Sample.linkMissingFile)]
  /\ referenceRanges (getAllLinks Sample2.hostMixed Sample.readme)
     = [hrefRange (source Sample.linkUndefinedRef)]
  /\ (exists f r o,
        [Sample.diagMissingFile; Sample.diagUndefinedRef;
         Sample.diagMissingHeader] = f ++ r ++ o
        /\ map range f
           ⊆+ internalRanges (getAllLinks Sample2.hostMixed Sample.readme)
        /\ map range r
           ⊆+ referenceRanges (getAllLinks Sample2.hostMixed Sample.readme)
        /\ map range o
           ⊆+ internalRanges (getAllLinks Sample2.hostMixed Sample.readme))
  /\ length [Sample.diagMissingFile; Sample.diagUndefinedRef;
             Sample.diagMissingHeader]
     <= 2 * length (omap internalData
                      (getAllLinks Sample2.hostMixed Sample.readme))
        + length (List.filter isReference
                    (getAllLinks Sample2.hostMixed Sample.readme)).
Proof.
  assert (H : getDiagnostics Sample2.hostMixed Sample.readme
                (Sample.allOn error) false (drain 5)
              = Some [Sample.diagMissingFile; Sample.diagUndefinedRef;
                      Sample.diagMissingHeader])
    by (vm_compute; reflexivity).
  split; [exact H|]. split; [reflexivity|]. split; [reflexivity|].
  exact (result_size_is_bounded Sample2.hostMixed Sample.readme
           (Sample.allOn error) false _ _ H).
Defined.

(** ** Cancellation *)

Section CancellationLemmas.
Variable host : Host.
Variable doc : TextDocument.
Variable options : DiagnosticOptions.

Lemma run_app sched1 sched2 st :
  run host doc options (sched1 ++ sched2) st
  = run host doc options sched2 (run host doc options sched1 st).
Proof. unfold run. apply fold_left_app. Qed.

Lemma run_cons w sched st :
  run host doc options (w :: sched) st
  = run host doc options sched (step host doc options st w).
Proof. done. Qed.

Lemma run_before_links sched c tr :
  existsb isLinksReady sched = false ->
  run host doc options sched (mkComputation c tr AwaitLinks)
  = mkComputation (c || existsb isCancel sched) tr AwaitLinks.
Proof.
  revert c. induction sched as [|w sched IH]; intros c Hno.
  - simpl. by rewrite orb_false_r.
  - cbn [existsb] in Hno. apply orb_false_iff in Hno as [Hw Hno].
    rewrite run_cons.
    destruct w; try done; cbn [step phase cancelled trace existsb isCancel].
    + by apply IH.
    + by apply IH.
    + rewrite IH by done. simpl. by rewrite orb_true_r.
Qed.

Lemma run_returned sched tr rs :
  run host doc options sched (mkComputation true tr (Returned rs))
  = mkComputation true tr (Returned rs).
Proof.
  induction sched as [|w sched IH]; [done|].
  rewrite run_cons. by destruct w.
Qed.

Lemma run_cancelled_links sched tr :
  run host doc options sched (mkComputation true tr AwaitLinks)
  = mkComputation true tr
      (if existsb isLinksReady sched then Returned [] else AwaitLinks).
Proof.
  induction sched as [|w sched IH]; [done|].
  rewrite run_cons.
  destruct w; cbn [step phase cancelled trace existsb isLinksReady orb];
    try apply IH.
  apply run_returned.
Qed.

Lemma resumeTask_suspend_no_lookup t t' ev :
  resumeTask host doc t = Suspend t' ev -> documentLookup ev = None.
Proof.
  destruct t as [sev e|sev e|sev d fl]; cbn [resumeTask].
  - destruct (tryFindMdDocumentForLink host (fl_path e)) as [hrefDoc|].
    + destruct (String.eqb _ _); [done|].
      destruct (List.filter _ _); [done|]. by intros [= <- <-].
    + by intros [= <- <-].
  - by destruct (negb _).
  - done.
Qed.

Lemma step_cancelled_lookups st w :
  cancelled st = true ->
  cancelled (step host doc options st w) = true
  /\ omap documentLookup (trace (step host doc options st w))
     = omap documentLookup (trace st).
Proof.
  destruct st as [c tr ph]. cbn [cancelled]. intros ->.
  destruct w as [|k| |]; destruct ph as [|p|rs]; try done.
  - unfold step. cbn [phase cancelled trace].
    destruct (running p !! k) as [t|]; [|done].
    destruct (resumeTask host doc t) as [t' ev|pushed] eqn:Hres.
    + cbn [cancelled trace]. split; [done|].
      rewrite omap_app, omap_cons_eq.
      rewrite (resumeTask_suspend_no_lookup _ _ _ Hres). simpl.
      by rewrite app_nil_r.
    + rewrite consume_cancelled.
      destruct (Nat.ltb _ _);
        match goal with
        | |- context [settle ?c ?tr ?q] =>
            by destruct (settle_cases c tr q) as [[-> _]|(o & _ & _ & _ & ->)]
        end.
  - unfold step. cbn [phase cancelled trace].
    destruct (ownHeaders p); [|done].
    match goal with
    | |- context [settle ?c ?tr ?q] =>
        by destruct (settle_cases c tr q) as [[-> _]|(o & _ & _ & _ & ->)]
    end.
Qed.

Lemma run_cancelled_lookups sched st :
  cancelled st = true ->
  omap documentLookup (trace (run host doc options sched st))
  = omap documentLookup (trace st).
Proof.
  revert st. induction sched as [|w sched IH]; intros st Hc; [done|].
  rewrite run_cons.
  destruct (step_cancelled_lookups st w Hc) as [Hc' Hl].
  by rewrite IH, Hl.
Qed.
End CancellationLemmas.

(** X2: when cancellation is requested before the extracted links
    arrive, the computation returns the empty list as soon as they do
    and not before, and it calls no host service other than the link
    extractor, whatever the options and whatever happens afterwards. *)
Theorem cancelled_before_links_returns_empty (host : Host)
    (doc : TextDocument) (options : DiagnosticOptions) (token : bool)
    (before after : list Wake) :
  existsb isLinksReady before = false ->
  getDiagnostics host doc options token (before ++ CancelRequested :: after)
  = (if existsb isLinksReady after then Some [] else None)
  /\ trace (run host doc options (before ++ CancelRequested :: after)
              (start doc token))
     = [EvGetAllLinks doc].
Proof.
  intros Hno. unfold getDiagnostics, start.
  rewrite run_app, run_before_links, run_cons by done.
  cbn [step phase cancelled trace].
  rewrite run_cancelled_links. unfold result. cbn [phase trace].
  by destruct (existsb isLinksReady after).
Qed.

Lemma cancelled_before_links_returns_empty_witness :
  existsb isLinksReady [TocReady] = false
  /\ getDiagnostics Sample.hostAll Sample.readme (Sample.allOn error) false
       ([TocReady] ++ CancelRequested :: [LinksReady; TaskReady 0])
     = Some [].
Proof.
  split; [reflexivity|].
  exact (proj1 (cancelled_before_links_returns_empty Sample.hostAll
                  Sample.readme (Sample.allOn error) false [TocReady]
                  [LinksReady; TaskReady 0] eq_refl)).
Defined.

(** X3: once cancellation has been requested no further document lookup
    is made: tasks that have not started return at once, and the targets
    still waiting in the limiter are never resolved. *)
Theorem no_lookup_after_cancellation (host : Host) (doc : TextDocument)
    (options : DiagnosticOptions) (token : bool) (before after : list Wake) :
  omap documentLookup
    (trace (run host doc options (before ++ CancelRequested :: after)
              (start doc token)))
  = omap documentLookup
      (trace (run host doc options before (start doc token))).
Proof.
  rewrite run_app, run_cons.
  rewrite run_cancelled_lookups; [|by destruct (run host doc options before _)].
  by destruct (run host doc options before (start doc token)).
Qed.

(** With cancellation after the first ten of twelve targets have started,
    the two waiting targets are never looked up, however long the
    computation is left to run. *)
Example waiting_targets_are_dropped :
  length (omap documentLookup
            (trace (run Sample.hostMany Sample.readme (Sample.allOn error)
                      (Sample2.cancelledLate ++ repeat (TaskReady 0) 30)
                      (start Sample.readme false))))
  = 10
  /\ getDiagnostics Sample.hostMany Sample.readme (Sample.allOn error) false
       (Sample2.cancelledLate ++ TocReady :: repeat (TaskReady 0) 30)
     <> None.
Proof. split; [vm_compute; reflexivity|]. vm_compute. discriminate. Qed.

(** ** The manager while validation is off *)

Section SilentLemmas.
Variable host : Host.

Lemma updateOf_disabled ws doc :
  (forall r, enabled (getOptions ws r) = false) ->
  computation (updateOf ws doc) = mkComputation false [] (Returned []).
Proof.
  intros Hoff. unfold updateOf, Manager_getDiagnostics.
  by rewrite (Hoff (uri doc)).
Qed.

Lemma settled_Silent k w m : Silent m -> Silent (settled host k w m).
Proof.
  intros [Hfly Hcol].
  assert (Hgo : forall w',
            isCancel w' = false ->
            Silent
              match inFlight m !! k with
              | Some u =>
                  match result (step host (target u) (config u)
                                  (computation u) w') with
                  | Some ds =>
                      mkManager (pendingDiagnostics m)
                        (<[toString host (uri (target u)) := ds]> (collection m))
                        (delayerArmed m) (delete k (inFlight m))
                  | None =>
                      mkManager (pendingDiagnostics m) (collection m)
                        (delayerArmed m)
                        (<[k := mkUpdate (target u) (config u)
                                  (step host (target u) (config u)
                                     (computation u) w')]> (inFlight m))
                  end
              | None => m
              end).
  { intros w' Hw'. destruct (inFlight m !! k) as [u|] eqn:Hk; [|by split].
    assert (Hu : computation u = mkComputation false [] (Returned [])).
    { apply Hfly, list_elem_of_In, list_elem_of_lookup. eauto. }
    rewrite Hu.
    assert (Hstep : step host (target u) (config u)
                      (mkComputation false [] (Returned [])) w'
                    = mkComputation false [] (Returned []))
      by (by destruct w').
    rewrite Hstep. cbn [result phase concat].
    split; cbn [inFlight collection].
    - intros u' Hu'. apply Hfly, list_elem_of_In.
      eapply list_elem_of_delete_inv. by apply list_elem_of_In.
    - intros key ds. rewrite lookup_insert_Some.
      intros [[_ <-]|[_ Hds]]; [done|by eapply Hcol]. }
  unfold settled. destruct w; try (by apply Hgo). by split.
Qed.

Lemma started_Silent ws docs pending coll armed flying :
  (forall r, enabled (getOptions ws r) = false) ->
  Silent (mkManager pending coll armed flying) ->
  forall pending' armed',
    Silent (mkManager pending' coll armed'
              (flying ++ map (updateOf ws) docs)).
Proof.
  intros Hoff [Hfly Hcol] pending' armed'. split; cbn [inFlight collection] in *.
  - intros u Hu. apply in_app_or in Hu as [Hu|Hu]; [by apply Hfly|].
    apply in_map_iff in Hu as (d & <- & _). by apply updateOf_disabled.
  - done.
Qed.

Lemma omap_updates ws (resources : list Uri) :
  exists docs,
    omap (fun resource => updateOf ws <$> firstWithPath host ws resource)
         resources
    = map (updateOf ws) docs.
Proof.
  induction resources as [|r rs [docs IH]]; [by exists []|].
  rewrite omap_cons_eq. destruct (firstWithPath host ws r) as [d|]; simpl.
  - exists (d :: docs). by rewrite IH.
  - by exists docs.
Qed.

Lemma handle_Silent ws m ev :
  (forall r, enabled (getOptions ws r) = false) ->
  Silent m -> Silent (handle host ws m ev).
Proof.
  intros Hoff HS. destruct ev as [d|d|d| | |k w]; cbn [handle].
  - unfold onDocUpdated. destruct (isMarkdownFile host d); [|done].
    destruct HS. by split.
  - unfold onDocUpdated. destruct (isMarkdownFile host d); [|done].
    destruct HS. by split.
  - unfold onDidCloseTextDocument. destruct HS as [Hfly Hcol].
    split; cbn [inFlight collection]; [done|].
    intros key ds. rewrite lookup_delete_Some. intros [_ Hds]. by eapply Hcol.
  - rewrite rebuild_eq. destruct m as [pending coll armed flying].
    cbn [pendingDiagnostics delayerArmed inFlight].
    apply (started_Silent ws _ pending ∅ armed flying Hoff).
    destruct HS as [Hfly _]. split; [done|]. intros key ds.
    cbn [collection]. by rewrite lookup_empty.
  - destruct (delayerArmed m); [|done].
    rewrite recomputePendingDiagnostics_eq.
    destruct (omap_updates ws (pendingDiagnostics m)) as [docs ->].
    destruct m as [pending coll armed flying].
    cbn [collection inFlight].
    by apply (started_Silent ws docs pending coll armed flying Hoff).
  - by apply settled_Silent.
Qed.

Lemma handleAll_Silent h m :
  validationOff h -> Silent m -> Silent (handleAll host m h).
Proof.
  revert m. induction h as [|[ws ev] h IH]; intros m Hoff HS; [done|].
  inversion Hoff as [|we h' Hws Hrest]; subst.
  cbn [handleAll fold_left fst snd] in *. apply IH; [done|].
  by apply handle_Silent.
Qed.
End SilentLemmas.

(** X7: a manager constructed while validation is off and living
    through any history of events during which it stays off never holds
    a diagnostic for any resource, and none of the updates it starts
    calls a host service: each is already finished with the empty list
    when it is started. *)
Theorem disabled_manager_stays_silent (host : Host) (ws0 : Workspace)
    (h : list (Workspace * ManagerEvent)) :
  (forall r, enabled (getOptions ws0 r) = false) ->
  validationOff h ->
  (forall r, published host (handleAll host (newManager host ws0) h) r = [])
  /\ (forall u, In u (inFlight (handleAll host (newManager host ws0) h)) ->
        trace (computation u) = [] /\ result (computation u) = Some []).
Proof.
  intros Hoff0 Hoff.
  assert (HS : Silent (handleAll host (newManager host ws0) h)).
  { apply handleAll_Silent; [done|]. unfold newManager.
    apply (handle_Silent host ws0 _ ConfigurationDidChange Hoff0).
    split; [intros u []|]. intros key ds. cbn [collection].
    by rewrite lookup_empty. }
  destruct HS as [Hfly Hcol]. split.
  - intros r. unfold published.
    destruct (collection _ !! toString host r) as [ds|] eqn:Hl; [|done].
    simpl. by eapply Hcol.
  - intros u Hu. by rewrite (Hfly u Hu).
Qed.

Lemma disabled_manager_stays_silent_witness :
  (forall r, enabled (getOptions (Sample.workspace Sample.disabledButStrict) r)
             = false)
  /\ validationOff
       (Sample.openedThenClosed (Sample.workspace Sample.disabledButStrict)
        ++ Sample.lateCompletion (Sample.workspace Sample.disabledButStrict))
  /\ published Sample.hostAll
       (handleAll Sample.hostAll
          (newManager Sample.hostAll (Sample.workspace Sample.disabledButStrict))
          (Sample.openedThenClosed (Sample.workspace Sample.disabledButStrict)
           ++ Sample.lateCompletion (Sample.workspace Sample.disabledButStrict)))
       (uri Sample.readme)
     = [].
Proof.
  assert (Hoff : forall r,
            enabled (getOptions (Sample.workspace Sample.disabledButStrict) r)
            = false) by reflexivity.
  assert (Hh : validationOff
                 (Sample.openedThenClosed
                    (Sample.workspace Sample.disabledButStrict)
                  ++ Sample.lateCompletion
                       (Sample.workspace Sample.disabledButStrict)))
    by (repeat constructor).
  split; [exact Hoff|]. split; [exact Hh|].
  exact (proj1 (disabled_manager_stays_silent Sample.hostAll
                  (Sample.workspace Sample.disabledButStrict) _ Hoff Hh)
               (uri Sample.readme)).
Defined.

(** ** Debouncing *)

Lemma set_add_idem (u : Uri) (s : list Uri) :
  set_add u (set_add u s) = set_add u s.
Proof.
  unfold set_add at 2 3. destruct (decide (u ∈ s)) as [Hin|Hout].
  - unfold set_add. by rewrite decide_True.
  - unfold set_add. rewrite decide_True; [done|].
    apply elem_of_app. right. by apply list_elem_of_singleton.
Qed.

Lemma set_delete_absent (u : Uri) (s : list Uri) :
  ~ In u s -> set_delete u s = s.
Proof.
  unfold set_delete. induction s as [|v s IH]; intros Hout; [done|].
  simpl. rewrite bool_decide_false by (intros ->; apply Hout; by left).
  simpl. rewrite IH; [done|]. intros Hin. apply Hout. by right.
Qed.

Lemma set_delete_add (u : Uri) (s : list Uri) :
  ~ In u s -> set_delete u (set_add u s) = s.
Proof.
  intros Hout. unfold set_add.
  rewrite decide_False by (by rewrite list_elem_of_In).
  unfold set_delete. rewrite List.filter_app. simpl.
  rewrite bool_decide_true by done. simpl. rewrite app_nil_r.
  by apply set_delete_absent.
Qed.

Lemma edits_pending (host : Host) (ws : Workspace) (d : TextDocument)
    (edits : list TextDocument) (m : Manager) :
  isMarkdownFile host d = true ->
  Forall (fun e => uri e = uri d /\ isMarkdownFile host e = true) edits ->
  fold_left (fun m e => handle host ws m (DidChangeTextDocument e)) edits
            (handle host ws m (DidChangeTextDocument d))
  = mkManager (set_add (uri d) (pendingDiagnostics m)) (collection m) true
              (inFlight m).
Proof.
  intros Hmd Hall. cbn [handle]. unfold onDocUpdated at 2. rewrite Hmd.
  generalize (pendingDiagnostics m) as pending. intros pending.
  induction Hall as [|e edits [Hu He] _ IH]; [done|].
  cbn [fold_left handle]. unfold onDocUpdated at 2. rewrite He.
  cbn [pendingDiagnostics collection inFlight]. rewrite Hu, set_add_idem.
  exact IH.
Qed.

(** X8: any number of change events for one markdown document, while the
    timer has not fired, leave its URI in the pending set exactly once,
    arm the timer, and neither publish nor start anything; when the timer
    then fires, exactly one update is started for the document if it is
    open, and none otherwise. *)
Theorem edits_coalesce (host : Host) (ws : Workspace) (d : TextDocument)
    (edits : list TextDocument) (m : Manager) :
  isMarkdownFile host d = true ->
  Forall (fun e => uri e = uri d /\ isMarkdownFile host e = true) edits ->
  pendingDiagnostics m = [] ->
  pendingDiagnostics
    (fold_left (fun m e => handle host ws m (DidChangeTextDocument e)) edits
               (handle host ws m (DidChangeTextDocument d)))
  = [uri d]
  /\ collection
       (fold_left (fun m e => handle host ws m (DidChangeTextDocument e)) edits
                  (handle host ws m (DidChangeTextDocument d)))
     = collection m
  /\ inFlight
       (fold_left (fun m e => handle host ws m (DidChangeTextDocument e)) edits
                  (handle host ws m (DidChangeTextDocument d)))
     = inFlight m
  /\ inFlight
       (handle host ws
          (fold_left (fun m e => handle host ws m (DidChangeTextDocument e))
                     edits (handle host ws m (DidChangeTextDocument d)))
          DelayerFired)
     = inFlight m
       ++ match firstWithPath host ws (uri d) with
          | Some doc => [updateOf ws doc]
          | None => []
          end
  /\ pendingDiagnostics
       (handle host ws
          (fold_left (fun m e => handle host ws m (DidChangeTextDocument e))
                     edits (handle host ws m (DidChangeTextDocument d)))
          DelayerFired)
     = [].
Proof.
  intros Hmd Hall Hempty. rewrite (edits_pending host ws d edits m Hmd Hall).
  rewrite Hempty. cbn [handle delayerArmed pendingDiagnostics collection inFlight].
  split; [done|]. split; [done|]. split; [done|].
  rewrite recomputePendingDiagnostics_eq.
  cbn [pendingDiagnostics collection inFlight]. split; [|done].
  f_equal. change (set_add (uri d) []) with [uri d].
  rewrite omap_cons_eq. by destruct (firstWithPath host ws (uri d)).
Qed.

Lemma edits_coalesce_witness :
  isMarkdownFile Sample.hostAll Sample.readme = true
  /\ Forall (fun e => uri e = uri Sample.readme
                      /\ isMarkdownFile Sample.hostAll e = true)
            [Sample.readme; Sample.readme]
  /\ pendingDiagnostics Sample.idle = []
  /\ inFlight
       (handle Sample.hostAll (Sample.workspace (Sample.allOn error))
          (fold_left
             (fun m e => handle Sample.hostAll
                           (Sample.workspace (Sample.allOn error)) m
                           (DidChangeTextDocument e))
             [Sample.readme; Sample.readme]
             (handle Sample.hostAll (Sample.workspace (Sample.allOn error))
                Sample.idle (DidChangeTextDocument Sample.readme)))
          DelayerFired)
     = inFlight Sample.idle
       ++ match firstWithPath Sample.hostAll
                  (Sample.workspace (Sample.allOn error)) (uri Sample.readme) with
          | Some doc => [updateOf (Sample.workspace (Sample.allOn error)) doc]
          | None => []
          end.
Proof.
  assert (H1 : isMarkdownFile Sample.hostAll Sample.readme = true)
    by reflexivity.
  assert (H2 : Forall (fun e => uri e = uri Sample.readme
                                /\ isMarkdownFile Sample.hostAll e = true)
                      [Sample.readme; Sample.readme])
    by (repeat constructor).
  assert (H3 : pendingDiagnostics Sample.idle = []) by reflexivity.
  split; [exact H1|]. split; [exact H2|]. split; [exact H3|].
  exact (proj1 (proj2 (proj2 (proj2
           (edits_coalesce Sample.hostAll (Sample.workspace (Sample.allOn error))
              Sample.readme [Sample.readme; Sample.readme] Sample.idle
              H1 H2 H3))))).
Defined.

(** X9: a document that is opened or changed and then closed before the
    timer fires leaves the pending set and the updates in flight as they
    were, so the timer, which stays armed, starts for it nothing that it
    would not have started anyway. *)
Theorem update_then_close_starts_nothing (host : Host) (ws : Workspace)
    (d : TextDocument) (m : Manager) :
  ~ In (uri d) (pendingDiagnostics m) ->
  pendingDiagnostics
    (handle host ws (handle host ws m (DidOpenTextDocument d))
            (DidCloseTextDocument d))
  = pendingDiagnostics m
  /\ inFlight
       (handle host ws (handle host ws m (DidOpenTextDocument d))
               (DidCloseTextDocument d))
     = inFlight m
  /\ inFlight
       (recomputePendingDiagnostics host ws
          (handle host ws (handle host ws m (DidOpenTextDocument d))
                  (DidCloseTextDocument d)))
     = inFlight (recomputePendingDiagnostics host ws m).
Proof.
  intros Hout. cbn [handle]. unfold onDidCloseTextDocument, onDocUpdated.
  rewrite !recomputePendingDiagnostics_eq.
  destruct (isMarkdownFile host d);
    cbn [pendingDiagnostics collection inFlight];
    rewrite ?set_delete_add, ?set_delete_absent by done; done.
Qed.

Lemma update_then_close_starts_nothing_witness :
  ~ In (uri Sample.readme) (pendingDiagnostics Sample.idle)
  /\ pendingDiagnostics
       (handle Sample.hostAll (Sample.workspace (Sample.allOn error))
          (handle Sample.hostAll (Sample.workspace (Sample.allOn error))
             Sample.idle (DidOpenTextDocument Sample.readme))
          (DidCloseTextDocument Sample.readme))
     = pendingDiagnostics Sample.idle.
Proof.
  assert (H : ~ In (uri Sample.readme) (pendingDiagnostics Sample.idle))
    by (intros []).
  split; [exact H|].
  exact (proj1 (update_then_close_starts_nothing Sample.hostAll
                  (Sample.workspace (Sample.allOn error)) Sample.readme
                  Sample.idle H)).
Defined.

(** ** Publishing *)

Lemma settled_lookup_lt (host : Host) i j w m u ds :
  i < j ->
  inFlight m !! j = Some u ->
  isCancel w = false ->
  result (step host (target u) (config u) (computation u) w) = Some ds ->
  inFlight (settled host j w m) !! i = inFlight m !! i.
Proof.
  intros Hlt Hj Hw Hres. unfold settled.
  destruct w; try done; rewrite Hj, Hres; cbn [inFlight];
    by apply list_lookup_delete_lt.
Qed.

Lemma settled_lookup_ge (host : Host) i j w m u ds :
  i <= j ->
  inFlight m !! i = Some u ->
  isCancel w = false ->
  result (step host (target u) (config u) (computation u) w) = Some ds ->
  inFlight (settled host i w m) !! j = inFlight m !! S j.
Proof.
  intros Hle Hi Hw Hres. unfold settled.
  destruct w; try done; rewrite Hi, Hres; cbn [inFlight];
    by apply list_lookup_delete_ge.
Qed.

(** X10: when two updates for the same rendered URI are in flight, the
    published entry is the result of whichever returns last, also when
    that is the update that was started first: a slow older computation
    overwrites the result of a newer one. *)
Theorem last_return_wins (host : Host) (m : Manager) (i j : nat)
    (older newer : Update) (w1 w2 : Wake) (d1 d2 : list Diagnostic) :
  i < j ->
  inFlight m !! i = Some older ->
  inFlight m !! j = Some newer ->
  toString host (uri (target older)) = toString host (uri (target newer)) ->
  isCancel w1 = false ->
  isCancel w2 = false ->
  result (step host (target older) (config older) (computation older) w1)
  = Some d1 ->
  result (step host (target newer) (config newer) (computation newer) w2)
  = Some d2 ->
  collection (settled host i w1 (settled host j w2 m))
    !! toString host (uri (target older)) = Some d1
  /\ collection (settled host (j - 1) w2 (settled host i w1 m))
       !! toString host (uri (target older)) = Some d2.
Proof.
  intros Hlt Hi Hj Hkey Hw1 Hw2 H1 H2. split.
  - assert (Hi' : inFlight (settled host j w2 m) !! i = Some older).
    { by rewrite (settled_lookup_lt host i j w2 m newer d2). }
    rewrite (settled_publishes host i w1 _ older d1 Hi' Hw1 H1).
    apply lookup_insert_eq.
  - assert (Hj' : inFlight (settled host i w1 m) !! (j - 1) = Some newer).
    { rewrite (settled_lookup_ge host i (j - 1) w1 m older d1); [|lia|done..].
      by replace (S (j - 1)) with j by lia. }
    rewrite (settled_publishes host (j - 1) w2 _ newer d2 Hj' Hw2 H2).
    rewrite Hkey. apply lookup_insert_eq.
Qed.

Lemma last_return_wins_witness :
  0 < 1
  /\ inFlight Sample2.twoInFlight !! 0
     = Some (updateOf (Sample.workspace (Sample.allOn error)) Sample.readme)
  /\ inFlight Sample2.twoInFlight !! 1
     = Some (updateOf (Sample.workspace Sample.allIgnored) Sample.readme)
  /\ collection
       (settled Sample.hostRef 0 TocReady
          (settled Sample.hostRef 0 LinksReady
             (settled Sample.hostRef 1 LinksReady Sample2.twoInFlight)))
       !! toString Sample.hostRef (uri Sample.readme)
     = Some [Sample.diagUndefinedRef].
Proof.
  split; [lia|]. split; [reflexivity|]. split; [reflexivity|].
  exact (proj1 (last_return_wins Sample.hostRef
                  (settled Sample.hostRef 0 LinksReady Sample2.twoInFlight)
                  0 1 _ _ TocReady LinksReady
                  [Sample.diagUndefinedRef] []
                  ltac:(lia) eq_refl eq_refl eq_refl eq_refl eq_refl
                  eq_refl eq_refl)).
Defined.

(** X13: a configuration change does not stop the updates already in
    flight: whatever the new options are, also when validation has just
    been turned off, each of them publishes its result under its document
    when its computation returns after the collection was cleared. *)
Theorem rebuild_keeps_updates_in_flight (host : Host) (ws : Workspace)
    (m : Manager) (k : nat) (u : Update) (w : Wake) (ds : list Diagnostic) :
  inFlight m !! k = Some u ->
  isCancel w = false ->
  result (step host (target u) (config u) (computation u) w) = Some ds ->
  inFlight (handle host ws m ConfigurationDidChange) !! k = Some u
  /\ collection (settled host k w (handle host ws m ConfigurationDidChange))
     = {[ toString host (uri (target u)) := ds ]}.
Proof.
  intros Hk Hw Hres. cbn [handle]. rewrite rebuild_eq.
  assert (Hk' : (inFlight m ++ map (updateOf ws) (visibleMarkdown host ws)) !! k
                = Some u).
  { by apply lookup_app_l_Some. }
  split; [exact Hk'|].
  rewrite (settled_publishes host k w (mkManager _ _ _ _) u ds Hk' Hw Hres).
  cbn [collection]. by rewrite insert_empty.
Qed.

Lemma rebuild_keeps_updates_in_flight_witness :
  inFlight (settled Sample.hostRef 0 LinksReady Sample2.twoInFlight) !! 0
  = Some (mkUpdate Sample.readme (Sample.allOn error)
            (step Sample.hostRef Sample.readme (Sample.allOn error)
               (start Sample.readme false) LinksReady))
  /\ collection
       (settled Sample.hostRef 0 TocReady
          (handle Sample.hostRef (Sample.workspace Sample.disabledButStrict)
             (settled Sample.hostRef 0 LinksReady Sample2.twoInFlight)
             ConfigurationDidChange))
     = {[ toString Sample.hostRef (uri Sample.readme)
          := [Sample.diagUndefinedRef] ]}.
Proof.
  split; [reflexivity|].
  exact (proj2 (rebuild_keeps_updates_in_flight Sample.hostRef
                  (Sample.workspace Sample.disabledButStrict)
                  (settled Sample.hostRef 0 LinksReady Sample2.twoInFlight)
                  0 _ TocReady [Sample.diagUndefinedRef]
                  eq_refl eq_refl eq_refl)).
Defined.

(** ** What the manager publishes *)

Section FaithfulLemmas.
Variable host : Host.

Lemma result_submseteq doc options token sched ds :
  result (run host doc options sched (start doc token)) = Some ds ->
  ds ⊆+ expectedDiagnostics host doc options.
Proof.
  unfold result, expectedDiagnostics.
  destruct (phase (run host doc options sched (start doc token)))
    as [|p|rs] eqn:Hph; try done.
  intros [= <-].
  destruct (returned_sound host doc options token sched rs Hph)
    as [->|(f & o & -> & Hf & Ho)]; [apply submseteq_nil_l|].
  cbn [concat]. rewrite app_nil_r.
  apply submseteq_app; [done|]. apply submseteq_skips_l.
  destruct Ho as [->| ->]; [done|apply submseteq_nil_l].
Qed.

Lemma Justified_mono wss wss' key ds :
  (forall ws, In ws wss -> In ws wss') ->
  Justified host wss key ds -> Justified host wss' key ds.
Proof.
  intros Hsub (ws & doc & Hws & Hdoc & Hkey & Hds).
  exists ws, doc. auto.
Qed.

Lemma Started_mono wss wss' u :
  (forall ws, In ws wss -> In ws wss') ->
  Started host wss u -> Started host wss' u.
Proof.
  intros Hsub [(ws & Hws & Hdoc & Hcfg) Hc]. split; [|done].
  exists ws. auto.
Qed.

Lemma Faithful_mono wss wss' m :
  (forall ws, In ws wss -> In ws wss') ->
  Faithful host wss m -> Faithful host wss' m.
Proof.
  intros Hsub [Hfly Hcol]. split.
  - intros u Hu. eapply Started_mono; eauto.
  - intros key ds Hk. eapply Justified_mono; eauto.
Qed.

Lemma firstWithPath_listed ws resource doc :
  firstWithPath host ws resource = Some doc -> In doc (textDocuments ws).
Proof.
  unfold firstWithPath. intros Hfind.
  by apply find_some in Hfind as [? _].
Qed.

Lemma updateOf_Started ws doc :
  In doc (textDocuments ws) -> Started host [ws] (updateOf ws doc).
Proof.
  intros Hdoc. unfold updateOf, Manager_getDiagnostics. split.
  - exists ws. split; [by left|].
    by destruct (negb (enabled (getOptions ws (uri doc)))).
  - destruct (negb (enabled (getOptions ws (uri doc)))); cbn [computation].
    + by left.
    + right. by exists [].
Qed.

Lemma started_Faithful wss ws (docs : list TextDocument) pend col armed fly :
  (forall d, In d docs -> In d (textDocuments ws)) ->
  Faithful host wss (mkManager pend col armed fly) ->
  forall pend' armed',
    Faithful host (wss ++ [ws])
      (mkManager pend' col armed' (fly ++ map (updateOf ws) docs)).
Proof.
  intros Hdocs [Hfly Hcol] pend' armed'. split; cbn [inFlight collection] in *.
  - intros u Hu. apply in_app_or in Hu as [Hu|Hu].
    + apply (Started_mono wss); [|auto]. intros ? ?. apply in_or_app. by left.
    + apply in_map_iff in Hu as (d & <- & Hd).
      apply (Started_mono [ws]); [|by apply updateOf_Started, Hdocs].
      intros ? ?. apply in_or_app. by right.
  - intros key ds Hkey. apply (Justified_mono wss); [|auto].
    intros ? ?. apply in_or_app. by left.
Qed.

Lemma step_Started wss u w :
  isCancel w = false ->
  Started host wss u ->
  Started host wss
    (mkUpdate (target u) (config u)
       (step host (target u) (config u) (computation u) w)).
Proof.
  intros Hw [Hws Hc]. split; [done|]. cbn [computation target config].
  destruct Hc as [->|(sched & ->)].
  - left. by destruct w.
  - right. exists (sched ++ [w]). by rewrite run_app.
Qed.

Lemma step_Justified wss u w ds :
  isCancel w = false ->
  Started host wss u ->
  result (step host (target u) (config u) (computation u) w) = Some ds ->
  Justified host wss (toString host (uri (target u))) ds.
Proof.
  intros Hw [(ws & Hws & Hdoc & Hcfg) Hc] Hres.
  exists ws, (target u). split; [done|]. split; [done|]. split; [done|].
  rewrite <- Hcfg. destruct Hc as [Hc|(sched & Hc)]; rewrite Hc in Hres.
  - destruct w; try done; injection Hres as <-; apply submseteq_nil_l.
  - apply (result_submseteq (target u) (config u) false (sched ++ [w])).
    by rewrite run_app.
Qed.

Lemma settled_Faithful wss k w m :
  Faithful host wss m -> Faithful host wss (settled host k w m).
Proof.
  intros [Hfly Hcol]. unfold settled.
  assert (Hgo : forall w', isCancel w' = false ->
            Faithful host wss
              match inFlight m !! k with
              | Some u =>
                  match result (step host (target u) (config u)
                                  (computation u) w') with
                  | Some ds =>
                      mkManager (pendingDiagnostics m)
                        (<[toString host (uri (target u)) := ds]> (collection m))
                        (delayerArmed m) (delete k (inFlight m))
                  | None =>
                      mkManager (pendingDiagnostics m) (collection m)
                        (delayerArmed m)
                        (<[k := mkUpdate (target u) (config u)
                                  (step host (target u) (config u)
                                     (computation u) w')]> (inFlight m))
                  end
              | None => m
              end).
  { intros w' Hw'. destruct (inFlight m !! k) as [u|] eqn:Hk; [|by split].
    assert (Hu : Started host wss u).
    { apply Hfly, list_elem_of_In, list_elem_of_lookup. eauto. }
    destruct (result _) as [ds|] eqn:Hres; split; cbn [inFlight collection].
    - intros u' Hu'. apply Hfly, list_elem_of_In.
      eapply list_elem_of_delete_inv. by apply list_elem_of_In.
    - intros key ds' Hkey.
      apply lookup_insert_Some in Hkey as [[<- <-]|[_ Hkey]]; [|eauto].
      by apply (step_Justified wss u w').
    - intros u' Hu'. apply list_elem_of_In in Hu'.
      apply list_elem_of_lookup in Hu' as [j Hj].
      apply list_lookup_insert_Some in Hj as [(-> & <- & _)|(_ & Hj)].
      + by apply step_Started.
      + apply Hfly, list_elem_of_In, list_elem_of_lookup. eauto.
    - done. }
  destruct w as [|j| |];
    [exact (Hgo LinksReady eq_refl)|exact (Hgo (TaskReady j) eq_refl)
    |exact (Hgo TocReady eq_refl)|by split].
Qed.

Lemma handle_Faithful wss ws m ev :
  Faithful host wss m -> Faithful host (wss ++ [ws]) (handle host ws m ev).
Proof.
  intros HF.
  assert (Hweak : forall m', Faithful host wss m' ->
                             Faithful host (wss ++ [ws]) m').
  { intros m'. apply Faithful_mono. intros k Hk. apply in_or_app. by left. }
  destruct ev as [d|d|d| | |k w]; cbn [handle].
  - unfold onDocUpdated. destruct (isMarkdownFile host d); [|auto].
    apply Hweak. destruct HF as [Hfly Hcol]. by split.
  - unfold onDocUpdated. destruct (isMarkdownFile host d); [|auto].
    apply Hweak. destruct HF as [Hfly Hcol]. by split.
  - apply Hweak. destruct HF as [Hfly Hcol].
    unfold onDidCloseTextDocument. split; cbn [inFlight collection]; [done|].
    intros key ds Hkey. apply lookup_delete_Some in Hkey as [_ Hkey]. eauto.
  - rewrite rebuild_eq. destruct m as [pend col armed fly].
    cbn [pendingDiagnostics delayerArmed inFlight].
    apply (started_Faithful wss ws _ pend ∅ armed fly).
    + intros d Hd. unfold visibleMarkdown in Hd.
      by apply filter_In in Hd as [? _].
    + destruct HF as [Hfly Hcol]. split; [done|].
      cbn [collection]. intros key ds Hkey. by rewrite lookup_empty in Hkey.
  - destruct (delayerArmed m); [|auto].
    rewrite recomputePendingDiagnostics_eq. destruct m as [pend col armed fly].
    cbn [pendingDiagnostics collection inFlight].
    assert (Hdocs : exists docs,
              omap (fun resource =>
                      updateOf ws <$> firstWithPath host ws resource) pend
              = map (updateOf ws) docs
              /\ forall d, In d docs -> In d (textDocuments ws)).
    { clear HF. induction pend as [|r pend (docs & Heq & Hin)].
      - by exists [].
      - rewrite omap_cons_eq, Heq.
        destruct (firstWithPath host ws r) as [d|] eqn:Hfind.
        + exists (d :: docs). split; [done|].
          intros d' [<-|Hd']; [|auto].
          by apply (firstWithPath_listed ws r).
        + by exists docs. }
    destruct Hdocs as (docs & -> & Hin).
    by apply (started_Faithful wss ws docs pend col armed fly).
  - apply Hweak. by apply settled_Faithful.
Qed.

Lemma handleAll_Faithful h wss m :
  Faithful host wss m ->
  Faithful host (wss ++ map fst h) (handleAll host m h).
Proof.
  revert wss m. induction h as [|[ws ev] h IH]; intros wss m HF.
  - simpl. by rewrite app_nil_r.
  - cbn [handleAll fold_left map fst snd].
    replace (wss ++ ws :: map fst h) with ((wss ++ [ws]) ++ map fst h)
      by (by rewrite <- app_assoc).
    apply IH. by apply handle_Faithful.
Qed.
End FaithfulLemmas.

(** X11: whatever the history of events, settlements and configuration
    changes since construction, every entry of the collection is for a
    document that the host listed in [workspace.textDocuments] when one
    of the handlers ran, and it holds only diagnostics that the three
    passes report for that document under the options configured for it
    then, none more often than expected.  An open or change event for a
    document the host does not list never leads to an entry.  The
    constructor is the history that starts with a configuration
    change. *)
Theorem published_diagnostics_are_justified (host : Host)
    (h : list (Workspace * ManagerEvent)) (key : string)
    (ds : list Diagnostic) :
  collection (handleAll host (mkManager [] ∅ false []) h) !! key = Some ds ->
  exists ws doc,
    In ws (map fst h) /\ In doc (textDocuments ws)
    /\ toString host (uri doc) = key
    /\ ds ⊆+ expectedDiagnostics host doc (getOptions ws (uri doc)).
Proof.
  intros Hkey.
  assert (HF : Faithful host [] (mkManager [] ∅ false [])).
  { split; cbn [inFlight collection]; [intros ? []|].
    intros k d Hk. by rewrite lookup_empty in Hk. }
  apply (handleAll_Faithful host h) in HF as [_ Hcol].
  exact (Hcol key ds Hkey).
Qed.

Lemma published_diagnostics_are_justified_witness :
  collection (handleAll Sample.hostRef (mkManager [] ∅ false [])
                Sample2.openedAndPublished)
    !! "file:/readme.md" = Some [Sample.diagUndefinedRef]
  /\ collection (handleAll Sample.hostRef (mkManager [] ∅ false [])
                   Sample2.openedAndPublished)
       !! "file:/unlisted.md" = None
  /\ exists ws doc,
       In ws (map fst Sample2.openedAndPublished)
       /\ In doc (textDocuments ws)
       /\ toString Sample.hostRef (uri doc) = "file:/readme.md"
       /\ [Sample.diagUndefinedRef]
          ⊆+ expectedDiagnostics Sample.hostRef doc (getOptions ws (uri doc)).
Proof.
  assert (H : collection (handleAll Sample.hostRef (mkManager [] ∅ false [])
                            Sample2.openedAndPublished)
                !! "file:/readme.md" = Some [Sample.diagUndefinedRef])
    by (vm_compute; reflexivity).
  split; [exact H|]. split; [vm_compute; reflexivity|].
  exact (published_diagnostics_are_justified Sample.hostRef
           Sample2.openedAndPublished _ _ H).
Defined.

(** ** Reading the settings *)

Lemma toSeverity_levelOfValue (v : SettingValue) :
  toSeverity (levelOfValue v) = toSeverityOfValue v.
Proof.
  destruct v as [b|s|t]; cbn [levelOfValue toSeverityOfValue]; try done.
  destruct (String.eqb s "error"); [done|].
  destruct (String.eqb s "warning"); [done|].
  by destruct (String.eqb s "ignore").
Qed.

Lemma toSeverityOfValue_Some (v : SettingValue) (sev : DiagnosticSeverity) :
  toSeverityOfValue v = Some sev
  <-> (sev = Error /\ v = SettingString "error")
      \/ (sev = Warning /\ v = SettingString "warning").
Proof.
  split.
  - destruct v as [b|s|t]; cbn [toSeverityOfValue]; try done.
    destruct (String.eqb s "error") eqn:He.
    { apply String.eqb_eq in He as ->. intros [= <-]. by left. }
    destruct (String.eqb s "warning") eqn:Hw.
    { apply String.eqb_eq in Hw as ->. intros [= <-]. by right. }
    by destruct (String.eqb s "ignore").
  - by intros [[-> ->]|[-> ->]].
Qed.

Lemma level_setting_decodes (config : string -> option SettingValue)
    (key : string) (sev : DiagnosticSeverity) :
  toSeverity (levelOfValue (config_get config key (SettingString "ignore")))
  = Some sev
  <-> storedLevel config key sev.
Proof.
  rewrite toSeverity_levelOfValue, toSeverityOfValue_Some.
  unfold storedLevel, config_get. destruct (config key) as [v|].
  - split; intros [[-> H]|[-> H]]; [left|right|left|right]; split;
      congruence.
  - split; intros [[_ H]|[_ H]]; discriminate.
Qed.

(** X12: the options read from the settings.  Validation is enabled
    exactly when a truthy value is stored for it, and a pass has a
    severity exactly when the value stored for its level is the string
    [error] or [warning]; a level that is unset, misspelt, differently
    capitalised or not a string leaves the pass off, because
    [toSeverity] has no default case. *)
Theorem settings_decide_the_passes (config : string -> option SettingValue) :
  (enabled (VSCodeDiagnosticConfiguration_getOptions config) = true
   <-> exists v, config "experimental.validate.enabled" = Some v
                 /\ valueTruthy v = true)
  /\ (forall sev,
        toSeverity (validateReferences
                      (VSCodeDiagnosticConfiguration_getOptions config))
        = Some sev
        <-> storedLevel config "experimental.validate.referenceLinks" sev)
  /\ (forall sev,
        toSeverity (validateOwnHeaders
                      (VSCodeDiagnosticConfiguration_getOptions config))
        = Some sev
        <-> storedLevel config "experimental.validate.headerLinks" sev)
  /\ (forall sev,
        toSeverity (validateFilePaths
                      (VSCodeDiagnosticConfiguration_getOptions config))
        = Some sev
        <-> storedLevel config "experimental.validate.fileLinks" sev).
Proof.
  split; [|split; [|split]]; try (intros sev; apply level_setting_decodes).
  cbn [VSCodeDiagnosticConfiguration_getOptions enabled]. unfold config_get.
  destruct (config "experimental.validate.enabled") as [v|].
  - split; [eauto|]. by intros (v' & [= <-] & Hv).
  - split; [done|]. by intros (v' & [=] & _).
Qed.

(** A misspelt level and a level that is not a string both leave their
    pass off. *)
Example misspelt_levels_are_ignored :
  VSCodeDiagnosticConfiguration_getOptions Sample2.settings
  = mkOptions true error ignore ignore.
Proof. reflexivity. Qed.

Section UnsetLevels.
Variable host : Host.
Variable doc : TextDocument.
Variable options : DiagnosticOptions.

Lemma run_returned_stable sched st rs :
  phase st = Returned rs ->
  phase (run host doc options sched st) = Returned rs
  /\ trace (run host doc options sched st) = trace st.
Proof.
  revert st. induction sched as [|w sched IH]; intros st Hph; [done|].
  rewrite run_cons.
  destruct (IH (step host doc options st w)) as [IHp IHt].
  { by apply step_returned. }
  rewrite IHp, IHt. split; [done|].
  destruct st as [c tr ph]. cbn [phase] in Hph. subst ph. by destruct w.
Qed.

Lemma links_ready_all_ignored c tr :
  validateReferences options = ignore ->
  validateOwnHeaders options = ignore ->
  validateFilePaths options = ignore ->
  exists rs,
    step host doc options (mkComputation c tr AwaitLinks) LinksReady
    = mkComputation c tr (Returned rs)
    /\ concat rs = [].
Proof.
  intros Hr Ho Hf. cbn [step phase cancelled trace].
  destruct c; [by exists []|].
  unfold startFileLinks, startOwnHeaderLinks, validateReferenceLinks.
  rewrite Hr, Ho, Hf. cbn [toSeverity]. unfold settle.
  cbn [running outstanding ownHeaders diagnostics references].
  by exists [[]; []; []].
Qed.
End UnsetLevels.

(** X14: with validation switched on and no level stored for any of the
    three passes, a computation returns the empty list as soon as the
    extracted links arrive, cancelled or not, and it calls no host
    service but the link extractor: no table of contents is built and
    no path is looked up. *)
Theorem unset_levels_validate_nothing (host : Host)
    (config : string -> option SettingValue) (doc : TextDocument)
    (token : bool) (before after : list Wake) :
  config "experimental.validate.referenceLinks" = None ->
  config "experimental.validate.headerLinks" = None ->
  config "experimental.validate.fileLinks" = None ->
  existsb isLinksReady before = false ->
  getDiagnostics host doc (VSCodeDiagnosticConfiguration_getOptions config)
    token (before ++ LinksReady :: after) = Some []
  /\ getDiagnostics host doc (VSCodeDiagnosticConfiguration_getOptions config)
       token before = None
  /\ trace (run host doc (VSCodeDiagnosticConfiguration_getOptions config)
              (before ++ LinksReady :: after) (start doc token))
     = [EvGetAllLinks doc].
Proof.
  intros Hr Ho Hf Hno. unfold getDiagnostics, start.
  rewrite run_app, !run_before_links, run_cons by done.
  destruct (links_ready_all_ignored host doc
              (VSCodeDiagnosticConfiguration_getOptions config)
              (token || existsb isCancel before) [EvGetAllLinks doc])
    as (rs & -> & Hrs).
  - cbn [VSCodeDiagnosticConfiguration_getOptions validateReferences].
    unfold config_get. by rewrite Hr.
  - cbn [VSCodeDiagnosticConfiguration_getOptions validateOwnHeaders].
    unfold config_get. by rewrite Ho.
  - cbn [VSCodeDiagnosticConfiguration_getOptions validateFilePaths].
    unfold config_get. by rewrite Hf.
  - destruct (run_returned_stable host doc
                (VSCodeDiagnosticConfiguration_getOptions config) after
                (mkComputation (token || existsb isCancel before)
                   [EvGetAllLinks doc] (Returned rs)) rs eq_refl)
      as [Hph Htr].
    unfold result. rewrite Hph, Htr, Hrs. done.
Qed.

Lemma unset_levels_validate_nothing_witness :
  Sample2.onlyEnabled "experimental.validate.referenceLinks" = None
  /\ enabled (VSCodeDiagnosticConfiguration_getOptions Sample2.onlyEnabled)
     = true
  /\ getDiagnostics Sample.hostAll Sample.readme
       (VSCodeDiagnosticConfiguration_getOptions Sample2.onlyEnabled) false
       ([TocReady] ++ LinksReady :: [TaskReady 0; TocReady])
     = Some [].
Proof.
  split; [reflexivity|]. split; [reflexivity|].
  exact (proj1 (unset_levels_validate_nothing Sample.hostAll
                  Sample2.onlyEnabled Sample.readme false [TocReady]
                  [TaskReady 0; TocReady] eq_refl eq_refl eq_refl eq_refl)).
Defined.

(** A configuration change that does not touch
    [markdown.experimental.validate.enabled], such as a change of a
    level alone, does not reach the manager: what is published stays,
    and nothing is recomputed, whatever the new options are. *)
Lemma other_setting_changes_are_not_observed (host : Host)
    (affectsConfiguration : string -> bool) (ws : Workspace) (m : Manager) :
  affectsConfiguration "markdown.experimental.validate.enabled" = false ->
  onDidChangeConfiguration host affectsConfiguration ws m = m.
Proof.
  intros Hno. unfold onDidChangeConfiguration,
    VSCodeDiagnosticConfiguration_fires. by rewrite Hno.
Qed.
